(** * Key-custody core of the secure chat system

    A shallow embedding of

    - [config/masterKey.js]   (master key life cycle, [wrapKey], [unwrapKey]),
    - [routes/auth.js]        (token [/verify] and [/logout] of the auth service),
    - [middleware/auth.js]    ([verifyJWT], [checkTokenBlacklist], [verifyDualAuth]),
    - [services/authService.js] (the cached signing key of the identity provider),

    and, around them, of the other middlewares of the two [middleware/auth.js]
    files ([verifyAuth], [optionalAuth], [requireRole], [createUserRateLimit],
    [verifyGoogleAuth], [requireWhitelistedIP]), of [/public-key], of
    [verifyUser] and [batchVerifyUsers], and of the start-up of the message
    service,

    together with the library primitives those files call: Node's
    [crypto.createCipher('aes-256-gcm', password)] (OpenSSL [EVP_BytesToKey]
    with MD5, AES-256, GCM), the ['base64'] and ['utf8'] string encodings,
    the [jsonwebtoken] verifier and the [node-cache] store.

    Conventions.  A byte is an [N] below 256, a JavaScript string is the list
    of its UTF-16 code units, a time stamp is an integer ([Z]).  Module-level
    [let] variables of the source become fields of an explicit state record;
    a function that may [throw] returns a [Result]. *)

From Stdlib Require Import NArith ZArith String Ascii Bool List Lia DecimalString.
Import ListNotations.

Set Implicit Arguments.
Open Scope N_scope.

(* ================================================================== *)
(** * Part I.  The model                                               *)
(* ================================================================== *)

(** ** Results of functions that may throw *)

Inductive Result (E A : Type) : Type :=
| Ok (a : A)
| Throw (e : E).
Arguments Ok {E A} a.
Arguments Throw {E A} e.

Definition bind {E A B} (r : Result E A) (k : A -> Result E B) : Result E B :=
  match r with
  | Ok a => k a
  | Throw e => Throw e
  end.

(** ** Bytes and JavaScript strings *)

Definition Bytes := list N.
Definition JsString := list N.

Definition is_byte (b : N) : Prop := (b < 256)%N.
Definition all_bytes (bs : Bytes) : Prop := Forall is_byte bs.

(** A string literal of the source, as code units. *)
Definition js (s : string) : JsString :=
  List.map N_of_ascii (list_ascii_of_string s).

Definition jsstring_eqb (a b : JsString) : bool :=
  if list_eq_dec N.eq_dec a b then true else false.

(** Big-endian and little-endian packing of bytes into numbers. *)
Fixpoint be_num (bs : Bytes) (acc : N) : N :=
  match bs with
  | [] => acc
  | b :: r => be_num r (acc * 256 + b)
  end.

Fixpoint le_num (bs : Bytes) : N :=
  match bs with
  | [] => 0
  | b :: r => b + 256 * le_num r
  end.

Fixpoint le_bytes (n : nat) (x : N) : Bytes :=
  match n with
  | O => []
  | S k => (x mod 256) :: le_bytes k (x / 256)
  end.

Definition be_bytes (n : nat) (x : N) : Bytes := rev (le_bytes n x).

(** Lower-case hexadecimal rendering, as [digest('hex')] gives it. *)
Definition hex_digit (d : N) : N :=
  if (d <? 10)%N then (48 + d)%N else (87 + d)%N.

Fixpoint hex_of_bytes (bs : Bytes) : JsString :=
  match bs with
  | [] => []
  | b :: r => hex_digit (b / 16) :: hex_digit (b mod 16) :: hex_of_bytes r
  end.

Definition unhex_digit (c : N) : N := if c <? 58 then c - 48 else c - 87.

Fixpoint unhex (s : JsString) : Bytes :=
  match s with
  | a :: b :: r => (16 * unhex_digit a + unhex_digit b) :: unhex r
  | _ => []
  end.

(** Cutting a byte string into chunks of [n] bytes; the last one may be short. *)
Fixpoint chunks (fuel : nat) (n : nat) (bs : Bytes) : list Bytes :=
  match fuel with
  | O => []
  | S f =>
      match bs with
      | [] => []
      | _ => firstn n bs :: chunks f n (skipn n bs)
      end
  end.

Definition chunks_of (n : nat) (bs : Bytes) : list Bytes :=
  chunks (length bs) n bs.

(** ** MD5 (RFC 1321), used by [EVP_BytesToKey] *)

Module MD5.
Local Open Scope N_scope.

Definition add32 (a b : N) : N := (a + b) mod 4294967296.
Definition not32 (a : N) : N := N.lxor (a mod 4294967296) 4294967295.
Definition rotl32 (x s : N) : N :=
  N.lor (N.shiftl x s mod 4294967296) (N.shiftr x (32 - s)).

Definition K : list N :=
  [ 0xd76aa478; 0xe8c7b756; 0x242070db; 0xc1bdceee; 0xf57c0faf; 0x4787c62a;
    0xa8304613; 0xfd469501; 0x698098d8; 0x8b44f7af; 0xffff5bb1; 0x895cd7be;
    0x6b901122; 0xfd987193; 0xa679438e; 0x49b40821; 0xf61e2562; 0xc040b340;
    0x265e5a51; 0xe9b6c7aa; 0xd62f105d; 0x02441453; 0xd8a1e681; 0xe7d3fbc8;
    0x21e1cde6; 0xc33707d6; 0xf4d50d87; 0x455a14ed; 0xa9e3e905; 0xfcefa3f8;
    0x676f02d9; 0x8d2a4c8a; 0xfffa3942; 0x8771f681; 0x6d9d6122; 0xfde5380c;
    0xa4beea44; 0x4bdecfa9; 0xf6bb4b60; 0xbebfbc70; 0x289b7ec6; 0xeaa127fa;
    0xd4ef3085; 0x04881d05; 0xd9d4d039; 0xe6db99e5; 0x1fa27cf8; 0xc4ac5665;
    0xf4292244; 0x432aff97; 0xab9423a7; 0xfc93a039; 0x655b59c3; 0x8f0ccc92;
    0xffeff47d; 0x85845dd1; 0x6fa87e4f; 0xfe2ce6e0; 0xa3014314; 0x4e0811a1;
    0xf7537e82; 0xbd3af235; 0x2ad7d2bb; 0xeb86d391 ].

Definition S : list N :=
  [ 7; 12; 17; 22; 7; 12; 17; 22; 7; 12; 17; 22; 7; 12; 17; 22;
    5; 9; 14; 20; 5; 9; 14; 20; 5; 9; 14; 20; 5; 9; 14; 20;
    4; 11; 16; 23; 4; 11; 16; 23; 4; 11; 16; 23; 4; 11; 16; 23;
    6; 10; 15; 21; 6; 10; 15; 21; 6; 10; 15; 21; 6; 10; 15; 21 ].

Definition pad (msg : Bytes) : Bytes :=
  let len := N.of_nat (length msg) in
  let zeros := (119 - len mod 64) mod 64 in
  msg ++ [128] ++ repeat 0 (N.to_nat zeros) ++ le_bytes 8 (8 * len).

Definition State : Type := N * N * N * N.

Definition init : State := (0x67452301, 0xefcdab89, 0x98badcfe, 0x10325476).

Definition step (M : list N) (st : State) (i : N) : State :=
  let '(a, b, c, d) := st in
  let '(f, g) :=
    if i <? 16 then (N.lor (N.land b c) (N.land (not32 b) d), i)
    else if i <? 32 then (N.lor (N.land d b) (N.land (not32 d) c), (5 * i + 1) mod 16)
    else if i <? 48 then (N.lxor b (N.lxor c d), (3 * i + 5) mod 16)
    else (N.lxor c (N.lor b (not32 d)), (7 * i) mod 16) in
  let f' := add32 (add32 (add32 f a) (nth (N.to_nat i) K 0)) (nth (N.to_nat g) M 0) in
  (d, add32 b (rotl32 f' (nth (N.to_nat i) S 0)), b, c).

Definition rounds : list N := List.map N.of_nat (seq 0 64).

Definition compress (st : State) (block : Bytes) : State :=
  let M := List.map le_num (chunks_of 4 block) in
  let '(a, b, c, d) := st in
  let '(a', b', c', d') := fold_left (step M) rounds st in
  (add32 a a', add32 b b', add32 c c', add32 d d').

Definition digest (msg : Bytes) : Bytes :=
  let '(a, b, c, d) := fold_left compress (chunks_of 64 (pad msg)) init in
  le_bytes 4 a ++ le_bytes 4 b ++ le_bytes 4 c ++ le_bytes 4 d.

End MD5.

(** ** SHA-256 (FIPS 180-4), used for the key identifier *)

Module SHA256.
Local Open Scope N_scope.

Definition add32 (a b : N) : N := (a + b) mod 4294967296.
Definition not32 (a : N) : N := N.lxor (a mod 4294967296) 4294967295.
Definition rotr32 (x s : N) : N :=
  N.lor (N.shiftr x s) (N.shiftl x (32 - s) mod 4294967296).

Definition K : list N :=
  [ 1116352408; 1899447441; 3049323471; 3921009573; 961987163; 1508970993;
    2453635748; 2870763221; 3624381080; 310598401; 607225278; 1426881987;
    1925078388; 2162078206; 2614888103; 3248222580; 3835390401; 4022224774;
    264347078; 604807628; 770255983; 1249150122; 1555081692; 1996064986;
    2554220882; 2821834349; 2952996808; 3210313671; 3336571891; 3584528711;
    113926993; 338241895; 666307205; 773529912; 1294757372; 1396182291;
    1695183700; 1986661051; 2177026350; 2456956037; 2730485921; 2820302411;
    3259730800; 3345764771; 3516065817; 3600352804; 4094571909; 275423344;
    430227734; 506948616; 659060556; 883997877; 958139571; 1322822218;
    1537002063; 1747873779; 1955562222; 2024104815; 2227730452; 2361852424;
    2428436474; 2756734187; 3204031479; 3329325298 ].

Definition pad (msg : Bytes) : Bytes :=
  let len := N.of_nat (length msg) in
  let zeros := (119 - len mod 64) mod 64 in
  msg ++ [128] ++ repeat 0 (N.to_nat zeros) ++ be_bytes 8 (8 * len).

Definition sig0 (x : N) := N.lxor (rotr32 x 7) (N.lxor (rotr32 x 18) (N.shiftr x 3)).
Definition sig1 (x : N) := N.lxor (rotr32 x 17) (N.lxor (rotr32 x 19) (N.shiftr x 10)).
Definition Sig0 (x : N) := N.lxor (rotr32 x 2) (N.lxor (rotr32 x 13) (rotr32 x 22)).
Definition Sig1 (x : N) := N.lxor (rotr32 x 6) (N.lxor (rotr32 x 11) (rotr32 x 25)).
Definition Ch (x y z : N) := N.lxor (N.land x y) (N.land (not32 x) z).
Definition Maj (x y z : N) := N.lxor (N.land x y) (N.lxor (N.land x z) (N.land y z)).

(** The message schedule, kept newest-first: [w] holds W(t-1), W(t-2), ... *)
Fixpoint schedule (n : nat) (w : list N) : list N :=
  match n with
  | O => w
  | S k =>
      let wt := add32 (add32 (sig1 (nth 1 w 0)) (nth 6 w 0))
                      (add32 (sig0 (nth 14 w 0)) (nth 15 w 0)) in
      schedule k (wt :: w)
  end.

Definition State : Type := (N * N * N * N) * (N * N * N * N).

Definition init : State :=
  ((1779033703, 3144134277, 1013904242, 2773480762),
   (1359893119, 2600822924, 528734635, 1541459225)).

Definition step (st : State) (kw : N * N) : State :=
  let '((a, b, c, d), (e, f, g, h)) := st in
  let t1 := add32 (add32 (add32 h (Sig1 e)) (add32 (Ch e f g) (fst kw))) (snd kw) in
  let t2 := add32 (Sig0 a) (Maj a b c) in
  ((add32 t1 t2, a, b, c), (add32 d t1, e, f, g)).

Definition compress (st : State) (block : Bytes) : State :=
  let w16 := List.map (fun c => be_num c 0) (chunks_of 4 block) in
  let W := rev (schedule 48 (rev w16)) in
  let '((a, b, c, d), (e, f, g, h)) := st in
  let '((a', b', c', d'), (e', f', g', h')) := fold_left step (combine K W) st in
  ((add32 a a', add32 b b', add32 c c', add32 d d'),
   (add32 e e', add32 f f', add32 g g', add32 h h')).

Definition digest (msg : Bytes) : Bytes :=
  let '((a, b, c, d), (e, f, g, h)) :=
    fold_left compress (chunks_of 64 (pad msg)) init in
  be_bytes 4 a ++ be_bytes 4 b ++ be_bytes 4 c ++ be_bytes 4 d ++
  be_bytes 4 e ++ be_bytes 4 f ++ be_bytes 4 g ++ be_bytes 4 h.

End SHA256.

(** Byte-wise exclusive or; the result is as long as the shorter argument. *)
Fixpoint xor_bytes (a b : Bytes) : Bytes :=
  match a, b with
  | x :: a', y :: b' => N.lxor x y :: xor_bytes a' b'
  | _, _ => []
  end.

(** ** AES-256 block encryption (FIPS 197) *)

Module AES.

Definition sbox : list N :=
  [
    99; 124; 119; 123; 242; 107; 111; 197; 48; 1; 103; 43; 254; 215; 171; 118;
    202; 130; 201; 125; 250; 89; 71; 240; 173; 212; 162; 175; 156; 164; 114; 192;
    183; 253; 147; 38; 54; 63; 247; 204; 52; 165; 229; 241; 113; 216; 49; 21;
    4; 199; 35; 195; 24; 150; 5; 154; 7; 18; 128; 226; 235; 39; 178; 117;
    9; 131; 44; 26; 27; 110; 90; 160; 82; 59; 214; 179; 41; 227; 47; 132;
    83; 209; 0; 237; 32; 252; 177; 91; 106; 203; 190; 57; 74; 76; 88; 207;
    208; 239; 170; 251; 67; 77; 51; 133; 69; 249; 2; 127; 80; 60; 159; 168;
    81; 163; 64; 143; 146; 157; 56; 245; 188; 182; 218; 33; 16; 255; 243; 210;
    205; 12; 19; 236; 95; 151; 68; 23; 196; 167; 126; 61; 100; 93; 25; 115;
    96; 129; 79; 220; 34; 42; 144; 136; 70; 238; 184; 20; 222; 94; 11; 219;
    224; 50; 58; 10; 73; 6; 36; 92; 194; 211; 172; 98; 145; 149; 228; 121;
    231; 200; 55; 109; 141; 213; 78; 169; 108; 86; 244; 234; 101; 122; 174; 8;
    186; 120; 37; 46; 28; 166; 180; 198; 232; 221; 116; 31; 75; 189; 139; 138;
    112; 62; 181; 102; 72; 3; 246; 14; 97; 53; 87; 185; 134; 193; 29; 158;
    225; 248; 152; 17; 105; 217; 142; 148; 155; 30; 135; 233; 206; 85; 40; 223;
    140; 161; 137; 13; 191; 230; 66; 104; 65; 153; 45; 15; 176; 84; 187; 22 ].

Definition sub (b : N) : N := nth (N.to_nat b) sbox 0.

Definition xtime (a : N) : N :=
  if a <? 128 then (2 * a) mod 256 else N.lxor ((2 * a) mod 256) 27.

Definition rot_word (w : Bytes) : Bytes :=
  match w with
  | [] => []
  | a :: r => r ++ [a]
  end.

Definition rcon : list N := [1; 2; 4; 8; 16; 32; 64].

(** Key expansion for Nk = 8: word [i] from words [i-1] and [i-8]. *)
Fixpoint expand (n i : nat) (w : list Bytes) : list Bytes :=
  match n with
  | O => w
  | S k =>
      let temp := nth (i - 1) w [] in
      let temp' :=
        if Nat.eqb (i mod 8) 0
        then xor_bytes (List.map sub (rot_word temp)) [nth (i / 8 - 1) rcon 0; 0; 0; 0]
        else if Nat.eqb (i mod 8) 4 then List.map sub temp
        else temp in
      expand k (S i) (w ++ [xor_bytes (nth (i - 8) w []) temp'])
  end.

Definition key_schedule (key : Bytes) : list Bytes :=
  chunks_of 16 (concat (expand 52 8 (chunks_of 4 key))).

Definition shift_rows (s : Bytes) : Bytes :=
  List.map (fun i => nth ((i mod 4) + 4 * ((i / 4 + i mod 4) mod 4))%nat s 0)
           (seq 0 16).

Definition mix_column (c : Bytes) : Bytes :=
  match c with
  | [a0; a1; a2; a3] =>
      [ N.lxor (xtime a0) (N.lxor (N.lxor (xtime a1) a1) (N.lxor a2 a3));
        N.lxor a0 (N.lxor (xtime a1) (N.lxor (N.lxor (xtime a2) a2) a3));
        N.lxor a0 (N.lxor a1 (N.lxor (xtime a2) (N.lxor (xtime a3) a3)));
        N.lxor (N.lxor (xtime a0) a0) (N.lxor a1 (N.lxor a2 (xtime a3))) ]
  | _ => c
  end.

Definition mix_columns (s : Bytes) : Bytes :=
  concat (List.map mix_column (chunks_of 4 s)).

Definition round (s rk : Bytes) : Bytes :=
  xor_bytes (mix_columns (shift_rows (List.map sub s))) rk.

Definition final_round (s rk : Bytes) : Bytes :=
  xor_bytes (shift_rows (List.map sub s)) rk.

Definition encrypt_block (key block : Bytes) : Bytes :=
  match key_schedule key with
  | [] => block
  | rk0 :: rks =>
      final_round (fold_left round (firstn 13 rks) (xor_bytes block rk0))
                  (nth 13 rks [])
  end.

End AES.

(** ** Galois/Counter Mode (NIST SP 800-38D), 96-bit IV, no associated data *)

Module GCM.

Definition block_num (bs : Bytes) : N := be_num bs 0.
Definition num_block (x : N) : Bytes := be_bytes 16 x.

Definition R : N := 0xE1000000000000000000000000000000.

Definition gf_step (x : N) (zv : N * N) (i : nat) : N * N :=
  let '(z, v) := zv in
  (if N.testbit x (127 - N.of_nat i) then N.lxor z v else z,
   if N.testbit v 0 then N.lxor (N.shiftr v 1) R else N.shiftr v 1).

Definition gf_mul (x y : N) : N := fst (fold_left (gf_step x) (seq 0 128) (0, y)).

Definition pad16 (bs : Bytes) : Bytes :=
  bs ++ repeat 0 ((16 - length bs mod 16) mod 16)%nat.

Definition ghash (h : N) (data : Bytes) : N :=
  fold_left (fun y blk => gf_mul (N.lxor y (block_num blk)) h) (chunks_of 16 data) 0.

Definition inc32 (cb : N) : N :=
  (cb / 4294967296) * 4294967296 + (cb mod 4294967296 + 1) mod 4294967296.

Fixpoint keystream (E : N -> N) (n : nat) (cb : N) : Bytes :=
  match n with
  | O => []
  | S k => num_block (E cb) ++ keystream E k (inc32 cb)
  end.

Definition gctr (E : N -> N) (icb : N) (x : Bytes) : Bytes :=
  xor_bytes x (keystream E (S (length x / 16)) icb).

Definition cipher (key : Bytes) (x : N) : N :=
  block_num (AES.encrypt_block key (num_block x)).

Definition j0 (iv : Bytes) : N := be_num iv 0 * 4294967296 + 1.

Definition tag_of (key iv ct : Bytes) : Bytes :=
  let E := cipher key in
  let lens := be_bytes 8 0 ++ be_bytes 8 (8 * N.of_nat (length ct)) in
  num_block (N.lxor (ghash (E 0) (pad16 ct ++ lens)) (E (j0 iv))).

Definition encrypt (key iv pt : Bytes) : Bytes * Bytes :=
  let ct := gctr (cipher key) (inc32 (j0 iv)) pt in
  (ct, tag_of key iv ct).

(** Decryption releases the plaintext only if the expected tag, cut to the
    length of the supplied one, equals the supplied tag. *)
Definition decrypt (key iv ct tag : Bytes) : option Bytes :=
  if list_eq_dec N.eq_dec (firstn (length tag) (tag_of key iv ct)) tag
  then Some (gctr (cipher key) (inc32 (j0 iv)) ct)
  else None.

End GCM.

(** ** The ['base64'] string encoding of Node buffers

    Encoding is RFC 4648 with padding.  Decoding is Node's lenient one: it
    looks at the low byte of each code unit of the string, accepts the
    standard and the URL-safe alphabet, skips every other character and
    stops at the first ['=']. *)

Module Base64.

Definition alphabet : JsString :=
  js "ABCDEFGHIJKLMNOPQRSTUVWXYZabcdefghijklmnopqrstuvwxyz0123456789+/".

Definition enc (i : N) : N := nth (N.to_nat i) alphabet 0.

Definition pad_char : N := 61.

Fixpoint encode (bs : Bytes) : JsString :=
  match bs with
  | [] => []
  | [b1] => [enc (b1 / 4); enc ((b1 mod 4) * 16); pad_char; pad_char]
  | [b1; b2] =>
      [enc (b1 / 4); enc ((b1 mod 4) * 16 + b2 / 16); enc ((b2 mod 16) * 4); pad_char]
  | b1 :: b2 :: b3 :: r =>
      enc (b1 / 4) :: enc ((b1 mod 4) * 16 + b2 / 16)
        :: enc ((b2 mod 16) * 4 + b3 / 64) :: enc (b3 mod 64) :: encode r
  end.

(** What the decoder sees of a code unit: [static_cast<uint8_t>]. *)
Definition low_byte (c : N) : N := c mod 256.

Definition dec (c : N) : option N :=
  let b := low_byte c in
  if (65 <=? b) && (b <=? 90) then Some (b - 65)
  else if (97 <=? b) && (b <=? 122) then Some (b - 71)
  else if (48 <=? b) && (b <=? 57) then Some (b + 4)
  else if (b =? 43) || (b =? 45) then Some 62
  else if (b =? 47) || (b =? 95) then Some 63
  else None.

Fixpoint sextets (s : JsString) : list N :=
  match s with
  | [] => []
  | c :: r =>
      if low_byte c =? pad_char then []
      else match dec c with
           | Some v => v :: sextets r
           | None => sextets r
           end
  end.

Fixpoint unpack (v : list N) : Bytes :=
  match v with
  | s1 :: s2 :: s3 :: s4 :: r =>
      (s1 * 4 + s2 / 16) :: ((s2 mod 16) * 16 + s3 / 4) :: ((s3 mod 4) * 64 + s4)
        :: unpack r
  | [s1; s2; s3] => [s1 * 4 + s2 / 16; (s2 mod 16) * 16 + s3 / 4]
  | [s1; s2] => [s1 * 4 + s2 / 16]
  | _ => []
  end.

Definition decode (s : JsString) : Bytes := unpack (sextets s).

End Base64.

(** ** The ['utf8'] string encoding

    [encode] is what Node does with a string argument under ['utf8']: a
    surrogate pair becomes one four-byte sequence, an unpaired surrogate
    becomes the three bytes of U+FFFD.  [decode] is the decoder behind
    [decipher.update(.., 'utf8')] and [decipher.final('utf8')]: every
    maximal ill-formed prefix yields one U+FFFD. *)

Module Utf8.

Definition is_high (c : N) : bool := (0xD800 <=? c) && (c <=? 0xDBFF).
Definition is_low (c : N) : bool := (0xDC00 <=? c) && (c <=? 0xDFFF).

Definition replacement : Bytes := [0xEF; 0xBF; 0xBD].

Fixpoint encode (s : JsString) : Bytes :=
  match s with
  | [] => []
  | c :: r =>
      if c <? 0x80 then c :: encode r
      else if c <? 0x800 then (0xC0 + c / 64) :: (0x80 + c mod 64) :: encode r
      else if is_high c then
        match r with
        | d :: r' =>
            if is_low d then
              let cp := 0x10000 + (c - 0xD800) * 0x400 + (d - 0xDC00) in
              (0xF0 + cp / 262144) :: (0x80 + (cp / 4096) mod 64)
                :: (0x80 + (cp / 64) mod 64) :: (0x80 + cp mod 64) :: encode r'
            else replacement ++ encode r
        | [] => replacement
        end
      else if is_low c then replacement ++ encode r
      else (0xE0 + c / 4096) :: (0x80 + (c / 64) mod 64) :: (0x80 + c mod 64)
             :: encode r
  end.

(** A sequence in progress: code point so far, bytes still needed, and the
    range allowed for the next byte. *)
Record Pending : Type := mkPending {
  p_cp : N;
  p_need : N;
  p_lo : N;
  p_hi : N
}.

Definition start (b : N) : JsString * option Pending :=
  if b <? 0x80 then ([b], None)
  else if (0xC2 <=? b) && (b <=? 0xDF) then
    ([], Some (mkPending (b - 0xC0) 1 0x80 0xBF))
  else if (0xE0 <=? b) && (b <=? 0xEF) then
    ([], Some (mkPending (b - 0xE0) 2 (if b =? 0xE0 then 0xA0 else 0x80)
                         (if b =? 0xED then 0x9F else 0xBF)))
  else if (0xF0 <=? b) && (b <=? 0xF4) then
    ([], Some (mkPending (b - 0xF0) 3 (if b =? 0xF0 then 0x90 else 0x80)
                         (if b =? 0xF4 then 0x8F else 0xBF)))
  else ([0xFFFD], None).

Definition emit (cp : N) : JsString :=
  if cp <? 0x10000 then [cp]
  else [0xD800 + (cp - 0x10000) / 0x400; 0xDC00 + (cp - 0x10000) mod 0x400].

Fixpoint decode_from (p : option Pending) (bs : Bytes) : JsString :=
  match bs with
  | [] => match p with
          | None => []
          | Some _ => [0xFFFD]
          end
  | b :: r =>
      match p with
      | None => fst (start b) ++ decode_from (snd (start b)) r
      | Some q =>
          if (p_lo q <=? b) && (b <=? p_hi q) then
            let cp := p_cp q * 64 + (b - 0x80) in
            if p_need q =? 1 then emit cp ++ decode_from None r
            else decode_from (Some (mkPending cp (p_need q - 1) 0x80 0xBF)) r
          else 0xFFFD :: fst (start b) ++ decode_from (snd (start b)) r
      end
  end.

Definition decode (bs : Bytes) : JsString := decode_from None bs.

(** A string is well formed when every code unit has 16 bits and every
    surrogate is half of a high-low pair. *)
Fixpoint well_formed (s : JsString) : bool :=
  match s with
  | [] => true
  | c :: r =>
      if is_high c then
        match r with
        | d :: r' => is_low d && well_formed r'
        | [] => false
        end
      else negb (is_low c) && (c <? 0x10000) && well_formed r
  end.

End Utf8.

(** ** Node's [crypto.createCipher] and [crypto.createDecipher]

    With a password instead of a key and an IV, Node derives both with
    OpenSSL's [EVP_BytesToKey] (MD5, one iteration, no salt): nothing but
    the password enters the derivation. *)

Module NodeCrypto.

Definition evp_bytes_to_key (password : Bytes) : Bytes * Bytes :=
  let d1 := MD5.digest password in
  let d2 := MD5.digest (d1 ++ password) in
  let d3 := MD5.digest (d2 ++ password) in
  (d1 ++ d2, firstn 12 d3).

(** [createCipher('aes-256-gcm', password)], then
    [update(data, 'utf8', 'base64') + final('base64')] and [getAuthTag()]. *)
Definition gcm_cipher (password : Bytes) (data : JsString) : JsString * Bytes :=
  let (key, iv) := evp_bytes_to_key password in
  let (ct, tag) := GCM.encrypt key iv (Utf8.encode data) in
  (Base64.encode ct, tag).

(** Without an [authTagLength] option, [setAuthTag] takes a tag of 4, 8 or
    12 to 16 bytes and throws on any other length. *)
Definition valid_gcm_tag_length (n : nat) : bool :=
  Nat.eqb n 4 || Nat.eqb n 8 || (Nat.leb 12 n && Nat.leb n 16).

Inductive CryptoError : Type :=
| InvalidTagLength
| UnableToAuthenticate.

(** [createDecipher('aes-256-gcm', password)], an optional [setAuthTag(tag)],
    then [update(data, 'base64', 'utf8') + final('utf8')].  [final] throws
    when no tag was set or when the tag does not verify. *)
Definition gcm_decipher (password : Bytes) (tag : option Bytes) (data : JsString)
  : Result CryptoError JsString :=
  let (key, iv) := evp_bytes_to_key password in
  match tag with
  | None => Throw UnableToAuthenticate
  | Some t =>
      if valid_gcm_tag_length (length t) then
        match GCM.decrypt key iv (Base64.decode data) t with
        | Some pt => Ok (Utf8.decode pt)
        | None => Throw UnableToAuthenticate
        end
      else Throw InvalidTagLength
  end.

End NodeCrypto.

(** ** [config/masterKey.js] *)

Module MasterKey.
Local Open Scope Z_scope.

(** The object built by [generateMasterKey]; [saveMasterKey] adds [savedAt]. *)
Record KeyObject : Type := mkKeyObject {
  ko_key : JsString;
  ko_version : Z;
  ko_algorithm : JsString;
  ko_createdAt : Z;
  ko_keyId : JsString
}.

Record KeyData : Type := mkKeyData {
  kd_object : KeyObject;
  kd_savedAt : Z
}.

(** What the file at [MASTER_KEY_PATH] holds.  The storage encryption
    ([aes-256-cbc] under the storage password, over the JSON text) is kept
    symbolic: [Sealed pw d] is the text written by [saveMasterKey] under
    password [pw]; deciphering and parsing it succeed under that password
    and throw under any other.  [Unreadable] is any other content. *)
Inductive FileContent : Type :=
| Sealed (password : JsString) (data : KeyData)
| Unreadable (raw : JsString).

Record LogEntry : Type := mkLogEntry {
  le_timestamp : Z;
  le_action : JsString;
  le_oldVersion : Z;
  le_newVersion : Z;
  le_keyId : JsString;
  le_algorithm : JsString
}.

(** The part of the process environment the module touches: the key file,
    the rotation log, the [STORAGE_PASSWORD] variable, and whether writes to
    the keys directory succeed ([writeFileSync] and [appendFileSync] throw
    when they do not). *)
Record World : Type := mkWorld {
  master_key_file : option FileContent;
  rotation_log : list LogEntry;
  env_STORAGE_PASSWORD : option JsString;
  keys_dir_writable : bool
}.

(** The module-level variables. *)
Record State : Type := mkState {
  currentMasterKey : option Bytes;
  keyVersion : Z;
  keyCreatedAt : option Z
}.

Definition initial : State := mkState None 1 None.

(** One call reads the clock [now] (milliseconds) and may draw [random],
    the 32 bytes of [crypto.randomBytes(32)]. *)
Record Inputs : Type := mkInputs {
  now : Z;
  random : Bytes
}.

Inductive Outcome : Type :=
| Returned
| Threw (message : JsString).

Definition generateMasterKey (st : State) (i : Inputs) : KeyObject :=
  mkKeyObject (Base64.encode (random i))
              (keyVersion st + 1)
              (js "AES-256-GCM")
              (now i)
              (firstn 16 (hex_of_bytes (SHA256.digest (random i)))).

Definition storageKey (w : World) : JsString :=
  match env_STORAGE_PASSWORD w with
  | Some (c :: s) => c :: s
  | _ => js "default-dev-password"
  end.

(** [oldVersion] is read from [keyVersion] when the entry is written: both
    callers of [saveMasterKey] have assigned the new version by then. *)
Definition logKeyRotation (st : State) (w : World) (i : Inputs) (k : KeyObject) : World :=
  mkWorld (master_key_file w)
          (rotation_log w ++
             [mkLogEntry (now i) (js "KEY_ROTATION") (keyVersion st) (ko_version k)
                         (ko_keyId k) (ko_algorithm k)])
          (env_STORAGE_PASSWORD w)
          (keys_dir_writable w).

Definition saveMasterKey (st : State) (w : World) (i : Inputs) (k : KeyObject)
  : World * Outcome :=
  if keys_dir_writable w then
    let w' := mkWorld (Some (Sealed (storageKey w) (mkKeyData k (now i))))
                      (rotation_log w) (env_STORAGE_PASSWORD w) (keys_dir_writable w) in
    (logKeyRotation st w' i k, Returned)
  else (w, Threw (js "EACCES: permission denied")).

(** [null] is [None]: no file, or any exception on the way. *)
Definition loadMasterKey (w : World) : option KeyData :=
  match master_key_file w with
  | None => None
  | Some (Sealed pw d) => if jsstring_eqb pw (storageKey w) then Some d else None
  | Some (Unreadable _) => None
  end.

(** The three assignments to [currentMasterKey], [keyVersion] and
    [keyCreatedAt] that follow a load or a generation. *)
Definition install (k : KeyObject) : State :=
  mkState (Some (Base64.decode (ko_key k))) (ko_version k) (Some (ko_createdAt k)).

(** The new key is assigned before [saveMasterKey] runs, so the new state
    stands also when saving throws. *)
Definition rotateMasterKey (st : State) (w : World) (i : Inputs)
  : State * World * Outcome :=
  let newKeyObject := generateMasterKey st i in
  let st' := install newKeyObject in
  let (w', o) := saveMasterKey st' w i newKeyObject in
  (st', w', o).

Definition maxAge : Z := 90 * 24 * 60 * 60 * 1000.

Definition initMasterKey (st : State) (w : World) (i : Inputs)
  : State * World * Outcome :=
  match loadMasterKey w with
  | Some existingKey =>
      let st' := install (kd_object existingKey) in
      let keyAge := now i - ko_createdAt (kd_object existingKey) in
      if maxAge <? keyAge then rotateMasterKey st' w i
      else (st', w, Returned)
  | None =>
      let newKey := generateMasterKey st i in
      let st' := install newKey in
      let (w', o) := saveMasterKey st' w i newKey in
      (st', w', o)
  end.

Definition getCurrentMasterKey (st : State) : Result JsString Bytes :=
  match currentMasterKey st with
  | None => Throw (js "Master key not initialized")
  | Some k => Ok k
  end.

Record KeyInfo : Type := mkKeyInfo {
  ki_version : Z;
  ki_algorithm : JsString;
  ki_createdAt : option Z;
  ki_keyId : option JsString
}.

Definition getKeyInfo (st : State) : KeyInfo :=
  mkKeyInfo (keyVersion st) (js "AES-256-GCM") (keyCreatedAt st)
            (match currentMasterKey st with
             | Some k => Some (firstn 16 (hex_of_bytes (SHA256.digest k)))
             | None => None
             end).

Record Envelope : Type := mkEnvelope {
  wrappedKey : JsString;
  authTag : JsString;
  version : Z;
  algorithm : JsString
}.

Definition wrapKey (st : State) (dek : JsString) : Result JsString Envelope :=
  match getCurrentMasterKey st with
  | Throw _ => Throw (js "Key wrapping operation failed")
  | Ok masterKey =>
      let (encrypted, tag) := NodeCrypto.gcm_cipher masterKey dek in
      Ok (mkEnvelope encrypted (Base64.encode tag) (keyVersion st) (js "AES-256-GCM"))
  end.

(** The envelope [wrapKey] builds under master key [mk]. *)
Definition envelope_of (mk : Bytes) (v : Z) (dek : JsString) : Envelope :=
  mkEnvelope (fst (NodeCrypto.gcm_cipher mk dek))
             (Base64.encode (snd (NodeCrypto.gcm_cipher mk dek)))
             v (js "AES-256-GCM").

Definition unwrapKey (st : State) (wrappedData : Envelope) : Result JsString JsString :=
  match getCurrentMasterKey st with
  | Throw _ => Throw (js "Key unwrapping operation failed")
  | Ok masterKey =>
      let tag := match authTag wrappedData with
                 | [] => None
                 | t => Some (Base64.decode t)
                 end in
      match NodeCrypto.gcm_decipher masterKey tag (wrappedKey wrappedData) with
      | Ok decrypted => Ok decrypted
      | Throw _ => Throw (js "Key unwrapping operation failed")
      end
  end.

End MasterKey.

(** ** JavaScript values carried by token claims

    Claims are primitive JSON values; numbers are integers. *)

Module Js.

Inductive JsVal : Type :=
| JUndefined
| JNull
| JBool (b : bool)
| JNum (n : Z)
| JStr (s : JsString).

(** [a === b] *)
Definition strict_eq (a b : JsVal) : bool :=
  match a, b with
  | JUndefined, JUndefined => true
  | JNull, JNull => true
  | JBool x, JBool y => Bool.eqb x y
  | JNum x, JNum y => Z.eqb x y
  | JStr x, JStr y => jsstring_eqb x y
  | _, _ => false
  end.

(** [a !== b] *)
Definition strict_neq (a b : JsVal) : bool := negb (strict_eq a b).

Definition decimal (n : Z) : JsString := js (NilZero.string_of_int (Z.to_int n)).

(** The conversion done by a template literal. *)
Definition to_string (v : JsVal) : JsString :=
  match v with
  | JUndefined => js "undefined"
  | JNull => js "null"
  | JBool true => js "true"
  | JBool false => js "false"
  | JNum n => decimal n
  | JStr s => s
  end.

End Js.

(** ** Responses of the route handlers and middlewares *)

Record Response : Type := mkResponse {
  status : Z;
  body : list (JsString * JsString)
}.

Definition field (name : string) (r : Response) : option JsString :=
  match find (fun kv => jsstring_eqb (fst kv) (js name)) (body r) with
  | Some kv => Some (snd kv)
  | None => None
  end.

(** ** Tokens and the [jsonwebtoken] verifier

    A compact token is kept as its decoded parts.  The RSA signature is
    symbolic: [signed_for] names the public key under which it verifies.
    [Malformed raw] is a text that does not decode to a header and a
    payload: the empty text, a text that has not three parts, or a
    three-part text whose header is no JSON object. *)

Module Jwt.
Import Js.
Local Open Scope Z_scope.

Record Claims : Type := mkClaims {
  jti : JsVal;
  sub : JsVal;
  username : JsVal;
  email : JsVal;
  iat : JsVal;
  exp : JsVal;
  nbf : JsVal
}.

Record Jws : Type := mkJws {
  alg : JsString;
  claims : Claims;
  signed_for : JsString
}.

Inductive TokenString : Type :=
| Malformed (raw : JsString)
| Compact (t : Jws).

(** The payload [jwt.verify] returns: [exp] is a number or absent. *)
Record Payload : Type := mkPayload {
  p_jti : JsVal;
  p_sub : JsVal;
  p_username : JsVal;
  p_email : JsVal;
  p_iat : JsVal;
  p_exp : option Z
}.

Inductive ErrorName : Type :=
| JsonWebTokenError
| NotBeforeError
| TokenExpiredError.

Record Error : Type := mkError {
  name : ErrorName;
  message : JsString
}.

(** What [jwt.verify] says of a text it cannot decode: [!jwtString],
    then [jwtString.split('.').length !== 3], then a decode that gives
    nothing. *)
Definition undecodable (raw : JsString) : JsString :=
  match raw with
  | [] => js "jwt must be provided"
  | _ :: _ =>
      if Nat.eqb (length (filter (N.eqb 46) raw)) 2
      then js "invalid token"
      else js "jwt malformed"
  end.

(** [jwt.verify(token, key, { algorithms: ['RS256'], clockTolerance })] at
    clock reading [now] (seconds). *)
Definition verify (token : TokenString) (key : JsString) (clockTolerance now : Z)
  : Result Error Payload :=
  match token with
  | Malformed raw => Throw (mkError JsonWebTokenError (undecodable raw))
  | Compact t =>
      if negb (jsstring_eqb (alg t) (js "RS256")) then
        Throw (mkError JsonWebTokenError (js "invalid algorithm"))
      else if negb (jsstring_eqb (signed_for t) key) then
        Throw (mkError JsonWebTokenError (js "invalid signature"))
      else
        let c := claims t in
        let after_nbf (k : Result Error Payload) :=
          match nbf c with
          | JUndefined => k
          | JNum n =>
              if now + clockTolerance <? n
              then Throw (mkError NotBeforeError (js "jwt not active"))
              else k
          | _ => Throw (mkError JsonWebTokenError (js "invalid nbf value"))
          end in
        after_nbf
          match exp c with
          | JUndefined =>
              Ok (mkPayload (jti c) (sub c) (username c) (email c) (iat c) None)
          | JNum e =>
              if e + clockTolerance <=? now
              then Throw (mkError TokenExpiredError (js "jwt expired"))
              else Ok (mkPayload (jti c) (sub c) (username c) (email c) (iat c) (Some e))
          | _ => Throw (mkError JsonWebTokenError (js "invalid exp value"))
          end
  end.

(** The [Authorization] header: [Bearer t] is the text ["Bearer "] followed
    by the token; [NotBearer] is any other header text. *)
Inductive AuthHeader : Type :=
| Bearer (t : TokenString)
| NotBearer (raw : JsString).

End Jwt.

(** ** [routes/auth.js] of the auth service: [/verify] and [/logout] *)

Module AuthService.
Import Js Jwt.
Local Open Scope Z_scope.

Record UserRow : Type := mkUser {
  u_id : JsString;
  u_username : JsString;
  u_email : JsString;
  u_is_active : bool
}.

Record BlacklistRow : Type := mkRow {
  token_jti : JsString;
  user_id : option JsString;
  expired_at : Z
}.

Record Db : Type := mkDb {
  users : list UserRow;
  token_blacklist : list BlacklistRow
}.

(** A query parameter: [undefined] and [null] are SQL NULL. *)
Definition sql_param (v : JsVal) : option JsString :=
  match v with
  | JUndefined | JNull => None
  | _ => Some (to_string v)
  end.

(** [SELECT id FROM token_blacklist WHERE token_jti = $1] *)
Definition select_blacklist (db : Db) (jti : JsVal) : list BlacklistRow :=
  match sql_param jti with
  | None => []
  | Some j => filter (fun r => jsstring_eqb (token_jti r) j) (token_blacklist db)
  end.

(** [SELECT .. FROM users WHERE id = $1 AND is_active = true] *)
Definition select_active_user (db : Db) (id : JsVal) : list UserRow :=
  match sql_param id with
  | None => []
  | Some i => filter (fun u => jsstring_eqb (u_id u) i && u_is_active u) (users db)
  end.

Definition user_exists (db : Db) (id : JsString) : bool :=
  existsb (fun u => jsstring_eqb (u_id u) id) (users db).

(** [INSERT INTO token_blacklist (token_jti, user_id, expired_at)]: the
    table has [token_jti VARCHAR(255) UNIQUE NOT NULL] and
    [user_id REFERENCES users(id)]; a violated constraint makes the query
    throw and leaves the table as it was. *)
Definition insert_blacklist (db : Db) (jti sub : JsVal) (expired : Z) : option Db :=
  match sql_param jti with
  | None => None
  | Some j =>
      let fk_ok := match sql_param sub with
                   | None => true
                   | Some u => user_exists db u
                   end in
      if Nat.leb (length j) 255
         && negb (existsb (fun r => jsstring_eqb (token_jti r) j) (token_blacklist db))
         && fk_ok
      then Some (mkDb (users db)
                      (token_blacklist db ++ [mkRow j (sql_param sub) expired]))
      else None
  end.

(** [DELETE FROM token_blacklist WHERE expired_at < NOW()], clock in
    milliseconds. *)
Definition cleanupExpiredTokens (db : Db) (now_ms : Z) : Db :=
  mkDb (users db) (filter (fun r => negb (expired_at r <? now_ms)) (token_blacklist db)).

(** The table over time: rows are added by further logouts and removed by
    the hourly cleanup; [until] bounds the clock (milliseconds) of the
    cleanups. *)
Inductive evolves (until : Z) : Db -> Db -> Prop :=
| evolves_refl (db : Db) : evolves until db db
| evolves_insert (db1 db2 db3 : Db) (jti sub : JsVal) (expired : Z) :
    evolves until db1 db2 ->
    insert_blacklist db2 jti sub expired = Some db3 ->
    evolves until db1 db3
| evolves_cleanup (db1 db2 : Db) (now_ms : Z) :
    evolves until db1 db2 ->
    now_ms <= until ->
    evolves until db1 (cleanupExpiredTokens db2 now_ms).

Record Request : Type := mkRequest {
  authorization : option AuthHeader
}.

Inductive VerifyReply : Type :=
| Valid (user : Payload)
| Refused (r : Response).

Definition revoked_response : Response :=
  mkResponse 401 [(js "error", js "Token has been revoked")].

(** [router.post('/verify')]; [publicKey] is what [getPublicKey()] returns. *)
Definition verify_route (publicKey : JsString) (db : Db) (now : Z) (req : Request)
  : VerifyReply :=
  match authorization req with
  | Some (Bearer token) =>
      match verify token publicKey 0 now with
      | Throw e =>
          match name e with
          | JsonWebTokenError =>
              Refused (mkResponse 401 [(js "error", js "Invalid token")])
          | TokenExpiredError =>
              Refused (mkResponse 401 [(js "error", js "Token has expired")])
          | NotBeforeError =>
              Refused (mkResponse 500 [(js "error", js "Token verification failed")])
          end
      | Ok decoded =>
          match select_blacklist db (p_jti decoded) with
          | _ :: _ => Refused revoked_response
          | [] =>
              match select_active_user db (p_sub decoded) with
              | [] => Refused (mkResponse 401 [(js "error", js "User not found or inactive")])
              | _ :: _ => Valid decoded
              end
          end
      end
  | _ => Refused (mkResponse 401 [(js "error", js "No token provided")])
  end.

(** [router.post('/logout')]: the revoke operation. *)
Definition logout_route (publicKey : JsString) (db : Db) (now : Z) (req : Request)
  : Db * Response :=
  match authorization req with
  | Some (Bearer token) =>
      match verify token publicKey 0 now with
      | Throw _ => (db, mkResponse 500 [(js "error", js "Logout failed")])
      | Ok decoded =>
          match p_exp decoded with
          | None =>
              (* [new Date(undefined * 1000)] is an invalid date, which the
                 [expired_at] column refuses *)
              (db, mkResponse 500 [(js "error", js "Logout failed")])
          | Some e =>
              match insert_blacklist db (p_jti decoded) (p_sub decoded) (e * 1000) with
              | Some db' => (db', mkResponse 200 [(js "message", js "Logout successful")])
              | None => (db, mkResponse 500 [(js "error", js "Logout failed")])
              end
          end
      end
  | _ => (db, mkResponse 400 [(js "error", js "No token provided")])
  end.

End AuthService.

(** ** [services/authService.js]: the cached signing key

    [publicKeyCache] is a [node-cache] store with [stdTTL: 300]; only the
    key ['auth_public_key'] is ever used.  An entry is served until its
    expiry time has passed; after that [get] gives [undefined] (and drops
    the entry, which makes no difference to any later [get]). *)

Module KeyDirectory.
Local Open Scope Z_scope.

Record Entry : Type := mkEntry {
  value : JsString;
  expires : Z
}.

Definition Cache : Type := option Entry.

Definition stdTTL : Z := 300.

(** [publicKeyCache.get('auth_public_key')] at clock reading [now]
    (milliseconds). *)
Definition get (c : Cache) (now : Z) : option JsString :=
  match c with
  | None => None
  | Some e => if expires e <? now then None else Some (value e)
  end.

(** [publicKeyCache.set('auth_public_key', v)] *)
Definition set (v : JsString) (now : Z) : Cache :=
  Some (mkEntry v (now + stdTTL * 1000)).

(** [publicKeyCache.del('auth_public_key')] *)
Definition clearPublicKeyCache (c : Cache) : Cache := None.

(** A value used as a condition: a string is truthy unless empty. *)
Definition truthy (v : option JsString) : option JsString :=
  match v with
  | Some (c :: s) => Some (c :: s)
  | _ => None
  end.

(** Outcome of [axios.get(.../api/auth/public-key)]: the request fails, or
    a reply arrives, with or without a [publicKey] field. *)
Inductive HttpResult : Type :=
| RequestFailed (message : JsString)
| Replied (publicKey : option JsString).

(** [fetchAuthPublicKey].  The function suspends at [await axios.get]; the
    cache is shared, so what it holds when the function resumes
    ([resumed], at time [later]) need not be what it held at the call
    ([c], at time [now]).  The result is the returned key or the thrown
    message, with the cache after the call. *)
Definition fetchAuthPublicKey (c : Cache) (now : Z) (http : HttpResult)
           (resumed : Cache) (later : Z) : Result JsString JsString * Cache :=
  match truthy (get c now) with
  | Some cachedKey => (Ok cachedKey, c)
  | None =>
      let on_error (e : JsString) :=
        match truthy (get resumed later) with
        | Some cachedKey => (Ok cachedKey, resumed)
        | None => (Throw e, resumed)
        end in
      match http with
      | Replied pk =>
          match truthy pk with
          | Some publicKey => (Ok publicKey, set publicKey later)
          | None => on_error (js "Invalid response format from auth service")
          end
      | RequestFailed e => on_error e
      end
  end.

Definition getAuthPublicKey (c : Cache) (now : Z) : option JsString := get c now.

End KeyDirectory.

(** ** [middleware/auth.js]: the dual authorization gate *)

Module Gate.
Import Js Jwt.
Local Open Scope Z_scope.

(** [verifyJWT]: any library error is rethrown as a plain [Error]. *)
Definition verifyJWT (token : TokenString) (publicKey : JsString) (now : Z)
  : Result JsString Payload :=
  match verify token publicKey 30 now with
  | Ok decoded => Ok decoded
  | Throw e => Throw (js "JWT verification failed: " ++ message e)
  end.

(** The Redis side.  [RedisError] is every way the [try] block can throw:
    [getRedisClient()] throws when the client is not connected, the [GET]
    is rejected, or [getRedisClient] is the [async] one of
    [kacls-service/config/redis.js], whose promise has no [get] method.
    Otherwise the store answers with the value of the key, if any. *)
Inductive Redis : Type :=
| RedisError
| RedisReady (store : list (JsString * JsString)).

Definition redis_get (store : list (JsString * JsString)) (key : JsString)
  : option JsString :=
  match find (fun kv => jsstring_eqb (fst kv) key) store with
  | Some kv => Some (snd kv)
  | None => None
  end.

Definition checkTokenBlacklist (redis : Redis) (jti : JsVal) : bool :=
  match redis with
  | RedisError => false
  | RedisReady store =>
      match redis_get store (js "blacklist:" ++ to_string jti) with
      | Some blacklisted => jsstring_eqb blacklisted (js "true")
      | None => false
      end
  end.

Record Request : Type := mkRequest {
  authorization : option AuthHeader;
  x_third_party_token : option TokenString
}.

(** [req.auth]; the two dates are kept as the claims they are built from. *)
Record Auth : Type := mkAuth {
  user_id : JsVal;
  user_username : JsVal;
  user_email : JsVal;
  tokenInfo_jti : JsVal;
  tokenInfo_iat : JsVal;
  tokenInfo_exp : option Z;
  thirdParty_jti : JsVal;
  thirdParty_iat : JsVal;
  thirdParty_exp : option Z
}.

Inductive Decision : Type :=
| Respond (r : Response)
| Next (auth : Auth).

(** [x < now] for an [exp] that is a number or [undefined]. *)
Definition exp_before (e : option Z) (now : Z) : bool :=
  match e with
  | Some x => x <? now
  | None => false
  end.

Definition is_string (v : JsVal) : bool :=
  match v with
  | JStr _ => true
  | _ => false
  end.

(** The responses [verifyDualAuth] sends. *)
Definition missing_header : Response :=
  mkResponse 401
    [(js "error", js "Missing or invalid authorization header");
     (js "expected", js "Bearer <token>")].

Definition missing_third_party : Response :=
  mkResponse 401
    [(js "error", js "Missing third-party authentication token");
     (js "message", js "KACLS requires dual authentication")].

Definition service_unavailable : Response :=
  mkResponse 503 [(js "error", js "Authentication service unavailable")].

Definition invalid_google_token (m : JsString) : Response :=
  mkResponse 401 [(js "error", js "Invalid Google JWT token"); (js "message", m)].

Definition token_revoked : Response :=
  mkResponse 401 [(js "error", js "Token has been revoked")].

Definition invalid_third_party_token (m : JsString) : Response :=
  mkResponse 401 [(js "error", js "Invalid third-party JWT token"); (js "message", m)].

Definition token_mismatch : Response :=
  mkResponse 401
    [(js "error", js "Token mismatch");
     (js "message", js "Google JWT and third-party JWT must belong to the same user")].

Definition token_expired : Response :=
  mkResponse 401 [(js "error", js "Token expired")].

Definition internal_error : Response :=
  mkResponse 500
    [(js "error", js "Authentication verification failed");
     (js "message", js "Internal authentication error")].

(** A header used as a condition: the empty text counts as absent. *)
Definition given (t : option TokenString) : option TokenString :=
  match t with
  | Some (Malformed []) => None
  | _ => t
  end.

(** [verifyDualAuth].  [authPublicKey] is the value of [getAuthPublicKey()],
    [now] the clock in seconds. *)
Definition verifyDualAuth (authPublicKey : option JsString) (redis : Redis)
           (now : Z) (req : Request) : Decision :=
  match authorization req with
  | Some (Bearer token) =>
      match given (x_third_party_token req) with
      | None => Respond missing_third_party
      | Some thirdPartyToken =>
          match KeyDirectory.truthy authPublicKey with
          | None => Respond service_unavailable
          | Some key =>
              match verifyJWT token key now with
              | Throw m => Respond (invalid_google_token m)
              | Ok googleJWT =>
                  if checkTokenBlacklist redis (p_jti googleJWT) then
                    Respond token_revoked
                  else
                    match verifyJWT thirdPartyToken key now with
                    | Throw m => Respond (invalid_third_party_token m)
                    | Ok thirdPartyJWT =>
                        if strict_neq (p_sub googleJWT) (p_sub thirdPartyJWT)
                           || strict_neq (p_username googleJWT) (p_username thirdPartyJWT)
                        then Respond token_mismatch
                        else if exp_before (p_exp googleJWT) now
                                || exp_before (p_exp thirdPartyJWT) now
                        then Respond token_expired
                        else if is_string (p_jti googleJWT) then
                          Next (mkAuth (p_sub googleJWT) (p_username googleJWT)
                                       (p_email googleJWT)
                                       (p_jti googleJWT) (p_iat googleJWT) (p_exp googleJWT)
                                       (p_jti thirdPartyJWT) (p_iat thirdPartyJWT)
                                       (p_exp thirdPartyJWT))
                        else
                          (* [googleJWT.jti.substring] throws in the log line
                             and the outer [catch] answers *)
                          Respond internal_error
                    end
              end
          end
      end
  | _ => Respond missing_header
  end.

End Gate.

(** ** Concrete runs used below *)

Module Scenario.
Import MasterKey.
Local Open Scope Z_scope.

(** First boot on an empty keys directory, then one rotation. *)
Definition random1 : Bytes := List.map N.of_nat (seq 0 32).
Definition random2 : Bytes := List.map N.of_nat (seq 100 32).

Definition empty_world : World := mkWorld None [] None true.

Definition boot : State * World * Outcome :=
  initMasterKey initial empty_world (mkInputs 1700000000000 random1).

Definition booted : State := fst (fst boot).
Definition booted_world : World := snd (fst boot).

Definition rotation : State * World * Outcome :=
  rotateMasterKey booted booted_world (mkInputs 1700000500000 random2).

Definition rotated : State := fst (fst rotation).

(** A data-encryption key as the client exports it: base64 text. *)
Definition dek : JsString := js "q83vASNFZ4mrze8BI0VniavN7wEjRWeJq83vASNFZ4k=".

(** A string holding one unpaired surrogate. *)
Definition lone_surrogate : JsString := [0xD800%N].

(** The envelope of [dek] under the first key. *)
Definition wrapped : Envelope :=
  mkEnvelope (js "EZQI4IZJFXnohAxIvuFrWzgzTmoPQNtPOKWGuvCK2b0cM7rfjb4RlBa0TGw=")
             (js "zSGAlYsPwyosRCCZh37XLA==") 2 (js "AES-256-GCM").


(** [wrapped] with the last tag byte changed from 0x2C to 0x2D. *)
Definition bad_tag : Envelope :=
  mkEnvelope (wrappedKey wrapped) (js "zSGAlYsPwyosRCCZh37XLQ==") 2 (js "AES-256-GCM").


(** [wrapped] with the tag cut to its first four bytes. *)
Definition short_tag : Envelope :=
  mkEnvelope (wrappedKey wrapped) (js "zSGAlQ==") 2 (js "AES-256-GCM").

(** A restart of the service on the keys directory left by [boot], with
    another storage password in the environment. *)
Definition restart_world : World :=
  mkWorld (master_key_file booted_world) (rotation_log booted_world)
          (Some (js "another-storage-password")) true.

Definition restart : State * World * Outcome :=
  initMasterKey initial restart_world (mkInputs 1700000900000 random2).

(** The same restart on a key file whose content was damaged. *)
Definition damaged_world : World :=
  mkWorld (Some (Unreadable (js "U2FsdGVkX1+"))) (rotation_log booted_world) None true.

Definition restart_damaged : State * World * Outcome :=
  initMasterKey initial damaged_world (mkInputs 1700000900000 random2).

End Scenario.

(** Tokens, requests and stores for the gate and the auth service. *)

Module GateScenario.
Import Js Jwt.
Local Open Scope Z_scope.

Definition issuer_key : JsString := js "-----BEGIN PUBLIC KEY----- auth-service".

Definition alice_id : JsString := js "6f1c2a34-0d5e-4b7a-9c11-2e8f5a6b7c8d".
Definition bob_id : JsString := js "0a9b8c7d-6e5f-4a3b-8c2d-1e0f9a8b7c6d".

Definition claims_of (jti id name : JsString) : Claims :=
  mkClaims (JStr jti) (JStr id) (JStr name) JUndefined
           (JNum 1700000000) (JNum 1700086400) JUndefined.

Definition token_of (jti id name : JsString) : TokenString :=
  Compact (mkJws (js "RS256") (claims_of jti id name) issuer_key).

(** Alice's resource token and identity token, and an identity token of Bob. *)
Definition resource_token : TokenString :=
  token_of (js "jti-resource-0001") alice_id (js "alice").
Definition identity_token : TokenString :=
  token_of (js "jti-identity-0002") alice_id (js "alice").
Definition bob_identity_token : TokenString :=
  token_of (js "jti-identity-0003") bob_id (js "bob").

(** Alice's claims under a signature that verifies for another key. *)
Definition forged_token : TokenString :=
  Compact (mkJws (js "RS256")
                 (claims_of (js "jti-resource-0001") alice_id (js "alice"))
                 (js "-----BEGIN PUBLIC KEY----- somebody else")).

Definition clock : Z := 1700000100.

(** A clock reading after the tokens' [exp]. *)
Definition late_clock : Z := 1700090000.


Definition request : Gate.Request :=
  Gate.mkRequest (Some (Bearer resource_token)) (Some identity_token).

Definition mixed_request : Gate.Request :=
  Gate.mkRequest (Some (Bearer resource_token)) (Some bob_identity_token).

Definition redis_empty : Gate.Redis := Gate.RedisReady [].
Definition redis_identity_listed : Gate.Redis :=
  Gate.RedisReady [(js "blacklist:jti-identity-0002", js "true")].

(** What the gate hands on for Alice's pair of tokens. *)
Definition alice_auth : Gate.Auth :=
  Gate.mkAuth (JStr alice_id) (JStr (js "alice")) JUndefined
              (JStr (js "jti-resource-0001")) (JNum 1700000000) (Some 1700086400)
              (JStr (js "jti-identity-0002")) (JNum 1700000000) (Some 1700086400).

(** The auth service's database with Alice and Bob, nobody logged out. *)
Definition db0 : AuthService.Db :=
  AuthService.mkDb
    [AuthService.mkUser alice_id (js "alice") (js "alice@example.org") true;
     AuthService.mkUser bob_id (js "bob") (js "bob@example.org") true]
    [].

Definition bearer (t : TokenString) : AuthService.Request :=
  AuthService.mkRequest (Some (Bearer t)).

(** Alice logs out with her resource token. *)
Definition logout : AuthService.Db * Response :=
  AuthService.logout_route issuer_key db0 clock (bearer resource_token).

Definition db_after_logout : AuthService.Db := fst logout.

(** Ten seconds later. *)
Definition clock_after : Z := 1700000110.

(** The signing-key cache, filled at clock 0 ms: good for 300 000 ms. *)
Definition filled_cache : KeyDirectory.Cache := KeyDirectory.set issuer_key 0.

(** The cache as another call of [fetchAuthPublicKey] fills it at 400 500 ms. *)
Definition refilled_cache : KeyDirectory.Cache := KeyDirectory.set issuer_key 400500.

Definition unreachable : KeyDirectory.HttpResult :=
  KeyDirectory.RequestFailed (js "connect ECONNREFUSED 127.0.0.1:3001").

End GateScenario.

(** ** What the middlewares hand on: [req.auth] *)

Module Express.
Import Js.

(** A value used as a condition. *)
Definition truthy (v : JsVal) : bool :=
  match v with
  | JUndefined | JNull => false
  | JBool b => b
  | JNum n => negb (Z.eqb n 0)
  | JStr [] => false
  | JStr (_ :: _) => true
  end.

(** [req.auth.user].  The four authentication middlewares build it as
    [{ id, username, email }]; [requireRole] also reads [role], which is
    then [undefined]. *)
Record User : Type := mkUser {
  usr_id : JsVal;
  usr_username : JsVal;
  usr_email : JsVal;
  usr_role : JsVal
}.

(** [{ jti, issuedAt, expiresAt }]; the two dates are kept as the claims
    they are built from. *)
Record TokenInfo : Type := mkTokenInfo {
  tok_jti : JsVal;
  tok_iat : JsVal;
  tok_exp : option Z
}.

(** [req.auth]; a field the object does not have is [None] (or [false]). *)
Record ReqAuth : Type := mkReqAuth {
  ra_user : option User;
  ra_tokenInfo : option TokenInfo;
  ra_thirdPartyAuth : option TokenInfo;
  ra_isAnonymous : bool;
  ra_authError : option JsString
}.

(** A middleware that sets [req.auth]: it sends a response or calls
    [next()]. *)
Inductive Outcome : Type :=
| Reply (r : Response)
| Proceed (auth : ReqAuth).

(** A middleware that only lets through or stops. *)
Inductive Verdict : Type :=
| Deny (r : Response)
| Pass.

(** [req.auth] as built from one verified token. *)
Definition auth_of (decoded : Jwt.Payload) : ReqAuth :=
  mkReqAuth (Some (mkUser (Jwt.p_sub decoded) (Jwt.p_username decoded)
                          (Jwt.p_email decoded) JUndefined))
            (Some (mkTokenInfo (Jwt.p_jti decoded) (Jwt.p_iat decoded)
                               (Jwt.p_exp decoded)))
            None false None.

(** [req.auth] as [verifyDualAuth] leaves it. *)
Definition dual_auth (a : Gate.Auth) : ReqAuth :=
  mkReqAuth (Some (mkUser (Gate.user_id a) (Gate.user_username a)
                          (Gate.user_email a) JUndefined))
            (Some (mkTokenInfo (Gate.tokenInfo_jti a) (Gate.tokenInfo_iat a)
                               (Gate.tokenInfo_exp a)))
            (Some (mkTokenInfo (Gate.thirdParty_jti a) (Gate.thirdParty_iat a)
                               (Gate.thirdParty_exp a)))
            false None.

Definition authentication_required : Response :=
  mkResponse 401 [(js "error", js "Authentication required")].

Definition insufficient_permissions (required : JsString) (current : JsVal) : Response :=
  mkResponse 403
    [(js "error", js "Insufficient permissions");
     (js "required", required);
     (js "current", to_string current)].

(** [requireRole(requiredRole)], the same text in the middleware of the
    message service and in that of the KACLS service. *)
Definition requireRole (requiredRole : JsString) (auth : option ReqAuth) : Verdict :=
  match auth with
  | Some a =>
      match ra_user a with
      | Some u =>
          let userRole := if truthy (usr_role u) then usr_role u else JStr (js "user") in
          if strict_neq userRole (JStr requiredRole)
             && strict_neq userRole (JStr (js "admin"))
          then Deny (insufficient_permissions requiredRole userRole)
          else Pass
      | None => Deny authentication_required
      end
  | None => Deny authentication_required
  end.

End Express.

(** ** [middleware/auth.js] of the message service *)

Module MessageGate.
Import Js Jwt Express.
Local Open Scope Z_scope.

Record Request : Type := mkRequest {
  authorization : option AuthHeader
}.

Definition invalid_token (m : JsString) : Response :=
  mkResponse 401 [(js "error", js "Invalid JWT token"); (js "message", m)].

(** [verifyAuth].  [verifyJWT] and [checkTokenBlacklist] are word for word
    those of the KACLS middleware.  The write of [user_activity:<sub>] that
    precedes [next()] sits in a [try] of its own whose [catch] only logs;
    it decides nothing and is left out. *)
Definition verifyAuth (authPublicKey : option JsString) (redis : Gate.Redis)
           (now : Z) (req : Request) : Outcome :=
  match authorization req with
  | Some (Bearer token) =>
      match KeyDirectory.truthy authPublicKey with
      | None => Reply Gate.service_unavailable
      | Some key =>
          match Gate.verifyJWT token key now with
          | Throw m => Reply (invalid_token m)
          | Ok decodedJWT =>
              if Gate.checkTokenBlacklist redis (p_jti decodedJWT) then
                Reply Gate.token_revoked
              else if Gate.exp_before (p_exp decodedJWT) now then
                Reply Gate.token_expired
              else Proceed (auth_of decodedJWT)
          end
      end
  | _ => Reply Gate.missing_header
  end.

Definition anonymous : ReqAuth := mkReqAuth None None None true None.

(** [optionalAuth].  [verifyAuth] answers every failure itself and never
    rejects, so the [catch] block has nothing to catch. *)
Definition optionalAuth (authPublicKey : option JsString) (redis : Gate.Redis)
           (now : Z) (req : Request) : Outcome :=
  match authorization req with
  | Some (Bearer _) => verifyAuth authPublicKey redis now req
  | _ => Proceed anonymous
  end.

(** *** [createUserRateLimit]

    [userRequests] is a [Map] from user ids to arrays of time stamps
    (milliseconds). *)

Definition Store : Type := list (JsVal * list Z).

Fixpoint lookup (m : Store) (k : JsVal) : option (list Z) :=
  match m with
  | [] => None
  | (k', v) :: r => if strict_eq k' k then Some v else lookup r k
  end.

Fixpoint set (m : Store) (k : JsVal) (v : list Z) : Store :=
  match m with
  | [] => [(k, v)]
  | (k', v') :: r => if strict_eq k' k then (k', v) :: r else (k', v') :: set r k v
  end.

(** [userRequests.get(userId) || []] *)
Definition get_or_empty (m : Store) (k : JsVal) : list Z :=
  match lookup m k with
  | Some l => l
  | None => []
  end.

(** [Math.ceil(x / 1000)] for an integer [x] *)
Definition ceil_div_1000 (x : Z) : Z := - ((- x) / 1000).

(** [Math.ceil((userRequestList[0] + windowMs - now) / 1000)]: with an
    empty list the sum is [NaN], which the JSON body shows as [null]. *)
Definition retryAfter (userRequestList : list Z) (windowMs now : Z) : option Z :=
  match userRequestList with
  | [] => None
  | first :: _ => Some (ceil_div_1000 (first + windowMs - now))
  end.

Definition rate_limit_exceeded (windowMs maxRequests : Z) (message : option JsString)
           (retry : option Z) : Response :=
  mkResponse 429
    [(js "error", js "Rate limit exceeded");
     (js "message",
      match message with
      | Some (c :: s) => c :: s
      | _ => js "Too many requests. Limit: " ++ decimal maxRequests
                ++ js " per " ++ decimal windowMs ++ js "ms"
      end);
     (js "retryAfter",
      match retry with
      | Some n => decimal n
      | None => js "null"
      end)].

(** The middleware returned by [createUserRateLimit(windowMs, maxRequests,
    message)], on the map [userRequests] at clock reading [now]. *)
Definition rateLimit (windowMs maxRequests : Z) (message : option JsString)
           (userRequests : Store) (now : Z) (auth : option ReqAuth)
  : Store * Verdict :=
  match auth with
  | Some (mkReqAuth (Some u) _ _ _ _) =>
      let userId := usr_id u in
      let windowStart := now - windowMs in
      let cleaned :=
        match lookup userRequests userId with
        | Some requests =>
            set userRequests userId (filter (fun timestamp => windowStart <? timestamp) requests)
        | None => userRequests
        end in
      let userRequestList := get_or_empty cleaned userId in
      if maxRequests <=? Z.of_nat (length userRequestList) then
        (cleaned,
         Deny (rate_limit_exceeded windowMs maxRequests message
                 (retryAfter userRequestList windowMs now)))
      else
        (set cleaned userId (userRequestList ++ [now]), Pass)
  | _ => (userRequests, Pass)
  end.

(** A run of the middleware over the requests that reach it, in order:
    each with the clock reading at which it is handled.  [passed u] collects
    the times at which requests of user [u] were let through. *)
Definition by_user (u : JsVal) (auth : option ReqAuth) : bool :=
  match auth with
  | Some (mkReqAuth (Some x) _ _ _ _) => strict_eq (usr_id x) u
  | _ => false
  end.

Definition is_pass (v : Verdict) : bool :=
  match v with
  | Pass => true
  | Deny _ => false
  end.

Fixpoint serve (windowMs maxRequests : Z) (message : option JsString) (u : JsVal)
         (userRequests : Store) (passed : list Z)
         (requests : list (Z * option ReqAuth)) : Store * list Z :=
  match requests with
  | [] => (userRequests, passed)
  | (now, auth) :: rest =>
      let (m', v) := rateLimit windowMs maxRequests message userRequests now auth in
      serve windowMs maxRequests message u m'
            (if by_user u auth && is_pass v then passed ++ [now] else passed)
            rest
  end.

(** The clock readings of a run do not go back. *)
Fixpoint clock_from (c : Z) (requests : list (Z * option ReqAuth)) : Prop :=
  match requests with
  | [] => True
  | (now, _) :: rest => c <= now /\ clock_from now rest
  end.

(** How many of the times [l] fall in the window of length [windowMs]
    that ends at [s]. *)
Definition in_window (windowMs s : Z) (l : list Z) : nat :=
  length (filter (fun t => (s - windowMs <? t) && (t <=? s)) l).

End MessageGate.

(** ** [middleware/auth.js] of the KACLS service: the single-token gate
    and the address whitelist *)

Module KaclsGate.
Import Js Jwt Express.
Local Open Scope Z_scope.

Definition missing_authorization : Response :=
  mkResponse 401 [(js "error", js "Missing authorization header")].

Definition authentication_failed (m : JsString) : Response :=
  mkResponse 401 [(js "error", js "Authentication failed"); (js "message", m)].

(** [verifyGoogleAuth]: [verifyJWT] is not wrapped in a [try] of its own,
    so its error reaches the outer [catch]. *)
Definition verifyGoogleAuth (authPublicKey : option JsString) (redis : Gate.Redis)
           (now : Z) (req : Gate.Request) : Outcome :=
  match Gate.authorization req with
  | Some (Bearer token) =>
      match KeyDirectory.truthy authPublicKey with
      | None => Reply Gate.service_unavailable
      | Some key =>
          match Gate.verifyJWT token key now with
          | Throw m => Reply (authentication_failed m)
          | Ok decoded =>
              if Gate.checkTokenBlacklist redis (p_jti decoded) then
                Reply Gate.token_revoked
              else Proceed (auth_of decoded)
          end
      end
  | _ => Reply missing_authorization
  end.

(** [s.split(',')] *)
Fixpoint split_comma (s : JsString) : list JsString :=
  match s with
  | [] => [[]]
  | c :: r =>
      if (c =? 44)%N then [] :: split_comma r
      else match split_comma r with
           | p :: ps => (c :: p) :: ps
           | [] => [[c]]
           end
  end.

(** [l.join(',')] *)
Fixpoint join_comma (l : list JsString) : JsString :=
  match l with
  | [] => []
  | [p] => p
  | p :: ps => p ++ 44%N :: join_comma ps
  end.

Record Connection : Type := mkConnection {
  ip : option JsString;
  remoteAddress : option JsString
}.

(** [req.ip || req.connection.remoteAddress] *)
Definition clientIP (req : Connection) : option JsString :=
  match ip req with
  | Some (c :: s) => Some (c :: s)
  | _ => remoteAddress req
  end.

(** [whitelistedIPs.includes(clientIP)] *)
Definition includes (l : list JsString) (v : option JsString) : bool :=
  match v with
  | Some s => existsb (jsstring_eqb s) l
  | None => false
  end.

Definition not_whitelisted : Response :=
  mkResponse 403
    [(js "error", js "Access denied");
     (js "message", js "Your IP address is not whitelisted")].

(** [requireWhitelistedIP]; [env] is [process.env.WHITELISTED_IPS]. *)
Definition requireWhitelistedIP (env : option JsString) (req : Connection) : Verdict :=
  let whitelistedIPs :=
    match env with
    | Some s => split_comma s
    | None => []
    end in
  if Nat.ltb 0 (length whitelistedIPs) && negb (includes whitelistedIPs (clientIP req))
  then Deny not_whitelisted
  else Pass.

End KaclsGate.

(** ** [services/authService.js] of the message service: users in bulk,
    and the life of the cached key *)

Module Directory.
Import Js KeyDirectory.
Local Open Scope Z_scope.

(** Outcome of [axios.get(.../api/auth/user/<id>)]: a reply whose body has
    a [user] property or none, a reply whose body is [null] (reading its
    [user] throws a [TypeError] with the given message), an error status,
    or no reply at all. *)
Inductive UserHttp : Type :=
| UserBody (user : option JsString)
| NullBody (message : JsString)
| ErrorStatus (code : Z) (message : JsString)
| NoReply (message : JsString).

(** What [verifyUser] resolves to.  [vr_userId] is the [userId] property
    that [batchVerifyUsers] reads: only the handler of its [.catch] would
    set one. *)
Record Verification : Type := mkVerification {
  vr_exists : bool;
  vr_user : option JsString;
  vr_error : option JsString;
  vr_userId : JsVal
}.

Definition verifyUser (userId : JsVal) (http : UserHttp) : Verification :=
  match http with
  | UserBody user => mkVerification true user None JUndefined
  | NullBody message => mkVerification false None (Some message) JUndefined
  | ErrorStatus code message =>
      if code =? 404 then mkVerification false None None JUndefined
      else mkVerification false None (Some message) JUndefined
  | NoReply message => mkVerification false None (Some message) JUndefined
  end.

(** A plain object used as a map: [acc[k] = v]. *)
Fixpoint assign (acc : list (JsString * Verification)) (k : JsString) (v : Verification)
  : list (JsString * Verification) :=
  match acc with
  | [] => [(k, v)]
  | (k', v') :: r =>
      if jsstring_eqb k' k then (k', v) :: r else (k', v') :: assign r k v
  end.

(** [batchVerifyUsers]: [verifyUser] resolves in every case, so the
    [.catch] on each promise is never entered. *)
Definition batchVerifyUsers (calls : list (JsVal * UserHttp))
  : list (JsString * Verification) :=
  let results := List.map (fun c => verifyUser (fst c) (snd c)) calls in
  fold_left (fun acc result => assign acc (to_string (vr_userId result)) result)
            results [].

(** One call of [fetchAuthPublicKey] during which nothing else touches the
    cache. *)
Record Call : Type := mkCall {
  called_at : Z;
  reply : HttpResult;
  resumed_at : Z
}.

Definition fetch_alone (c : Cache) (call : Call) : Result JsString JsString * Cache :=
  fetchAuthPublicKey c (called_at call) (reply call) c (resumed_at call).

(** The body of the ten-minute timer of [startPeriodicTasks]: the call,
    its error logged and dropped. *)
Definition periodic_refresh (c : Cache) (call : Call) : Cache := snd (fetch_alone c call).

Definition refreshes (c : Cache) (calls : list Call) : Cache :=
  fold_left periodic_refresh calls c.

(** [startServer] of the message service: the database, Redis, then the
    key; any failure ends the process.  The cache is empty when the module
    is loaded. *)
Inductive Startup : Type :=
| Exit (code : Z)
| Listening (c : Cache).

Definition startServer (database_ok redis_ok : bool) (call : Call) : Startup :=
  if database_ok then
    if redis_ok then
      match fetch_alone None call with
      | (Ok _, c) => Listening c
      | (Throw _, _) => Exit 1
      end
    else Exit 1
  else Exit 1.

End Directory.


(** ** [routes/auth.js] of the auth service: [/public-key] *)

Module PublicKeyRoute.
Local Open Scope Z_scope.

(** [router.get('/public-key')]; [publicKey] is what [getPublicKey()]
    returns, the key read or generated when the module was loaded. *)
Definition public_key (publicKey : JsString) : Response :=
  mkResponse 200
    [(js "publicKey", publicKey);
     (js "algorithm", js "RS256");
     (js "service", js "auth-service")].

(** What [axios.get] makes of a response: it resolves on a 2xx status,
    [response.data] being the body, and rejects otherwise. *)
Definition received (r : Response) : KeyDirectory.HttpResult :=
  if (200 <=? status r) && (status r <? 300)
  then KeyDirectory.Replied (field "publicKey" r)
  else KeyDirectory.RequestFailed
         (js "Request failed with status code " ++ Js.decimal (status r)).

End PublicKeyRoute.

(** ** Further runs *)

Module Runs.
Local Open Scope Z_scope.

(** The keys directory left by the first boot, no longer writable. *)
Definition read_only_world : MasterKey.World :=
  MasterKey.mkWorld (MasterKey.master_key_file Scenario.booted_world)
                    (MasterKey.rotation_log Scenario.booted_world)
                    None false.

(** A token of Alice that carries no [jti]. *)
Definition token_without_jti : Jwt.TokenString :=
  Jwt.Compact
    (Jwt.mkJws (js "RS256")
               (Jwt.mkClaims Js.JUndefined (Js.JStr GateScenario.alice_id)
                             (Js.JStr (js "alice")) Js.JUndefined
                             (Js.JNum 1700000000) (Js.JNum 1700086400) Js.JUndefined)
               GateScenario.issuer_key).

(** A token of Alice that carries no [exp]. *)
Definition token_without_exp : Jwt.TokenString :=
  Jwt.Compact
    (Jwt.mkJws (js "RS256")
               (Jwt.mkClaims (Js.JStr (js "jti-resource-0004"))
                             (Js.JStr GateScenario.alice_id)
                             (Js.JStr (js "alice")) Js.JUndefined
                             (Js.JNum 1700000000) Js.JUndefined Js.JUndefined)
               GateScenario.issuer_key).

(** [req.auth] of a request of Alice behind [verifyAuth]. *)
Definition alice_req_auth : Express.ReqAuth :=
  Express.auth_of
    (Jwt.mkPayload (Js.JStr (js "jti-resource-0001")) (Js.JStr GateScenario.alice_id)
                   (Js.JStr (js "alice")) Js.JUndefined (Js.JNum 1700000000)
                   (Some 1700086400)).

Definition bob_req_auth : Express.ReqAuth :=
  Express.auth_of
    (Jwt.mkPayload (Js.JStr (js "jti-resource-0005")) (Js.JStr GateScenario.bob_id)
                   (Js.JStr (js "bob")) Js.JUndefined (Js.JNum 1700000000)
                   (Some 1700086400)).

(** Requests reaching a limit of two per second: Alice six times, Bob and
    an anonymous caller in between. *)
Definition burst : list (Z * option Express.ReqAuth) :=
  [(1700000000000, Some alice_req_auth);
   (1700000000400, Some alice_req_auth);
   (1700000000500, Some bob_req_auth);
   (1700000000700, Some alice_req_auth);
   (1700000000900, None);
   (1700000001000, Some alice_req_auth);
   (1700000001100, Some alice_req_auth);
   (1700000001500, Some alice_req_auth)].

(** The message service starts at clock 0; the key arrives 40 ms later.
    Two refreshes follow while the key is still served: one finds the auth
    service down, the other is offered a new key. *)
Definition startup_call : Directory.Call :=
  Directory.mkCall 0 (KeyDirectory.Replied (Some GateScenario.issuer_key)) 40.

Definition startup_cache : KeyDirectory.Cache :=
  KeyDirectory.set GateScenario.issuer_key 40.

Definition early_refreshes : list Directory.Call :=
  [Directory.mkCall 120000 GateScenario.unreachable 125000;
   Directory.mkCall 240000
     (KeyDirectory.Replied (Some (js "-----BEGIN PUBLIC KEY----- rotated")))
     240030].

(** Another data-encryption key, as the client exports one. *)
Definition other_dek : JsString := js "3q2+796tvu/erb7v3q2+796tvu/erb7v3q2+796tvu8=".

End Runs.

(* ================================================================== *)
(** * Part II.  Properties                                             *)
(* ================================================================== *)

Ltac Zify.zify_post_hook ::= Z.to_euclidean_division_equations.

(** ** The primitives against published vectors *)

Module Vectors.

Example md5_rfc1321_empty :
  hex_of_bytes (MD5.digest []) = js "d41d8cd98f00b204e9800998ecf8427e".
Proof. vm_compute. reflexivity. Qed.

Example md5_rfc1321_abc :
  hex_of_bytes (MD5.digest (js "abc")) = js "900150983cd24fb0d6963f7d28e17f72".
Proof. vm_compute. reflexivity. Qed.

Example md5_two_blocks :
  hex_of_bytes (MD5.digest (repeat 97 100)) = js "36a92cc94a9e0fa21f625f8bfb007adf".
Proof. vm_compute. reflexivity. Qed.

Example sha256_fips180_abc :
  hex_of_bytes (SHA256.digest (js "abc")) =
  js "ba7816bf8f01cfea414140de5dae2223b00361a396177a9cb410ff61f20015ad".
Proof. vm_compute. reflexivity. Qed.

Example sha256_two_blocks :
  hex_of_bytes (SHA256.digest (repeat 97 100)) =
  js "2816597888e4a0d3a36b82b83316ab32680eb8f00f8cd3b904d681246d285a0e".
Proof. vm_compute. reflexivity. Qed.

Example aes256_fips197_c3 :
  hex_of_bytes (AES.encrypt_block (List.map N.of_nat (seq 0 32))
                                  (unhex (js "00112233445566778899aabbccddeeff")))
  = js "8ea2b7ca516745bfeafc49904b496089".
Proof. vm_compute. reflexivity. Qed.

Example gcm_test_case_13 :
  GCM.encrypt (repeat 0 32) (repeat 0 12) [] =
  ([], unhex (js "530f8afbc74536b9a963b4f1c4cb738b")).
Proof. vm_compute. reflexivity. Qed.

Example gcm_test_case_14 :
  GCM.encrypt (repeat 0 32) (repeat 0 12) (repeat 0 16) =
  (unhex (js "cea7403d4d606b6e074ec5d3baf39d18"),
   unhex (js "d0d1c8a799996bf0265b98b5d48ab919")).
Proof. vm_compute. reflexivity. Qed.

Example gcm_test_case_15 :
  GCM.encrypt
    (unhex (js "feffe9928665731c6d6a8f9467308308feffe9928665731c6d6a8f9467308308"))
    (unhex (js "cafebabefacedbaddecaf888"))
    (unhex (js ("d9313225f88406e5a55909c5aff5269a86a7a9531534f7da2e4c303d8a318a72"
             ++ "1c3c0c95956809532fcf0e2449a6b525b16aedf5aa0de657ba637b391aafd255")))
  = (unhex (js ("522dc1f099567d07f47f37a32a84427d643a8cdcbfe5c0c97598a2bd2555d1aa"
             ++ "8cb08e48590dbb3da7b08b1056828838c5f61e6393ba7a0abcc9f662898015ad")),
     unhex (js "b094dac5d93471bdec1a502270e3cc6c")).
Proof. vm_compute. reflexivity. Qed.

Example base64_rfc4648 :
  Base64.encode (js "foobar") = js "Zm9vYmFy" /\
  Base64.encode (js "fooba") = js "Zm9vYmE=" /\
  Base64.encode (js "foob") = js "Zm9vYg==" /\
  Base64.decode (js "Zm9vYg==") = js "foob" /\
  Base64.decode (js "Zm9v YmE") = js "fooba".
Proof. repeat split; reflexivity. Qed.

Example utf8_samples :
  Utf8.encode [0x20AC; 0xD83D; 0xDE00; 0xE9; 0x41] = unhex (js "e282acf09f9880c3a941") /\
  Utf8.decode (unhex (js "e282acf09f9880c3a941")) = [0x20AC; 0xD83D; 0xDE00; 0xE9; 0x41] /\
  Utf8.encode [0xD800] = unhex (js "efbfbd") /\
  Utf8.decode (unhex (js "ff41c3")) = [0xFFFD; 0x41; 0xFFFD].
Proof. vm_compute. repeat split; reflexivity. Qed.

End Vectors.

(** ** Lists taken three or two at a time *)

Lemma list_ind3 (A : Type) (P : list A -> Prop) :
  P [] -> (forall a, P [a]) -> (forall a b, P [a; b]) ->
  (forall a b c l, P l -> P (a :: b :: c :: l)) ->
  forall l, P l.
Proof.
  intros H0 H1 H2 H3.
  fix IH 1.
  intros [|a [|b [|c l]]]; [apply H0 | apply H1 | apply H2 | apply H3, IH].
Qed.

(** ** Base64: decoding undoes encoding *)

Module Base64Facts.
Import Base64.

Lemma dec_enc_table :
  forallb (fun i => match dec (enc i) with
                    | Some j => (j =? i) && negb (low_byte (enc i) =? pad_char)
                    | None => false
                    end)
          (List.map N.of_nat (seq 0 64)) = true.
Proof. vm_compute. reflexivity. Qed.

Lemma dec_enc (i : N) :
  i < 64 -> dec (enc i) = Some i /\ low_byte (enc i) <> pad_char.
Proof.
  intros Hi. pose proof dec_enc_table as T.
  rewrite forallb_forall in T. specialize (T i).
  assert (In i (List.map N.of_nat (seq 0 64))) as Hin.
  { apply in_map_iff. exists (N.to_nat i). split; [lia | apply in_seq; lia]. }
  specialize (T Hin). destruct (dec (enc i)) as [j|]; [|discriminate].
  apply andb_true_iff in T. destruct T as [T1 T2].
  apply N.eqb_eq in T1. apply negb_true_iff, N.eqb_neq in T2. subst. auto.
Qed.

Lemma sextets_enc (i : N) (r : JsString) :
  i < 64 -> sextets (enc i :: r) = i :: sextets r.
Proof.
  intros Hi. destruct (dec_enc Hi) as [D P].
  cbn [sextets]. apply N.eqb_neq in P. rewrite P, D. reflexivity.
Qed.

Lemma sextets_pad (r : JsString) : sextets (pad_char :: r) = [].
Proof. reflexivity. Qed.

Theorem base64_decode_encode (bs : Bytes) : all_bytes bs -> decode (encode bs) = bs.
Proof.
  unfold decode, all_bytes, is_byte.
  induction bs as [|a|a b|a b c l IH] using list_ind3; intros H.
  - reflexivity.
  - inversion_clear H. cbn [encode].
    rewrite !sextets_enc, sextets_pad by lia. cbn [unpack]. f_equal. lia.
  - inversion_clear H as [|? ? Ha H']. inversion_clear H' as [|? ? Hb _].
    cbn [encode]. rewrite !sextets_enc, sextets_pad by lia.
    cbn [unpack]. f_equal; [lia|]. f_equal. lia.
  - inversion_clear H as [|? ? Ha H']. inversion_clear H' as [|? ? Hb H''].
    inversion_clear H'' as [|? ? Hc Hl].
    cbn [encode]. rewrite !sextets_enc by lia. cbn [unpack].
    rewrite (IH Hl). f_equal; [lia|]. f_equal; [lia|]. f_equal. lia.
Qed.

End Base64Facts.

(** ** UTF-8: decoding undoes encoding on well-formed strings *)

Module Utf8Facts.
Import Utf8.

Ltac bool_to_prop H :=
  repeat first
    [ rewrite andb_true_iff in H | rewrite andb_false_iff in H
    | rewrite orb_true_iff in H | rewrite orb_false_iff in H
    | rewrite negb_true_iff in H | rewrite negb_false_iff in H
    | rewrite N.leb_le in H | rewrite N.leb_gt in H
    | rewrite N.ltb_lt in H | rewrite N.ltb_ge in H
    | rewrite N.eqb_eq in H | rewrite N.eqb_neq in H ].

(** Settle the next conditional of the goal by arithmetic. *)
Ltac settle :=
  match goal with
  | |- context [if ?b then _ else _] =>
      let E := fresh "E" in
      destruct b eqn:E; bool_to_prop E; try (exfalso; lia)
  end.

Lemma start_ascii (b : N) : b < 0x80 -> start b = ([b], None).
Proof. intros H. unfold start. settle. reflexivity. Qed.

Lemma start_two (b : N) :
  0xC2 <= b <= 0xDF -> start b = ([], Some (mkPending (b - 0xC0) 1 0x80 0xBF)).
Proof. intros H. unfold start. do 2 settle. reflexivity. Qed.

Lemma start_three (b : N) :
  0xE0 <= b <= 0xEF ->
  start b = ([], Some (mkPending (b - 0xE0) 2 (if b =? 0xE0 then 0xA0 else 0x80)
                                 (if b =? 0xED then 0x9F else 0xBF))).
Proof. intros H. unfold start. do 3 settle. reflexivity. Qed.

Lemma start_four (b : N) :
  0xF0 <= b <= 0xF4 ->
  start b = ([], Some (mkPending (b - 0xF0) 3 (if b =? 0xF0 then 0x90 else 0x80)
                                 (if b =? 0xF4 then 0x8F else 0xBF))).
Proof. intros H. unfold start. do 4 settle. reflexivity. Qed.

Lemma continue_last (cp lo hi b : N) (r : Bytes) :
  lo <= b <= hi ->
  decode_from (Some (mkPending cp 1 lo hi)) (b :: r)
  = emit (cp * 64 + (b - 0x80)) ++ decode_from None r.
Proof. intros H. cbn [decode_from p_lo p_hi p_cp p_need]. settle. reflexivity. Qed.

Lemma continue_more (cp need lo hi b : N) (r : Bytes) :
  lo <= b <= hi -> need <> 1 ->
  decode_from (Some (mkPending cp need lo hi)) (b :: r)
  = decode_from (Some (mkPending (cp * 64 + (b - 0x80)) (need - 1) 0x80 0xBF)) r.
Proof.
  intros H Hn. cbn [decode_from p_lo p_hi p_cp p_need]. settle.
  apply N.eqb_neq in Hn. rewrite Hn. reflexivity.
Qed.

Lemma decode_cons_start (b : N) (r : Bytes) :
  decode_from None (b :: r) = fst (start b) ++ decode_from (snd (start b)) r.
Proof. reflexivity. Qed.

Lemma emit_bmp (cp : N) : cp < 0x10000 -> emit cp = [cp].
Proof. intros H. unfold emit. settle. reflexivity. Qed.

Lemma emit_pair (c d : N) :
  0xD800 <= c <= 0xDBFF -> 0xDC00 <= d <= 0xDFFF ->
  emit (0x10000 + (c - 0xD800) * 0x400 + (d - 0xDC00)) = [c; d].
Proof. intros Hc Hd. unfold emit. settle. f_equal; [lia|]. f_equal. lia. Qed.

(** One code unit, or one surrogate pair, survives the round trip. *)
Lemma round_trip_one (c : N) (rest : Bytes) :
  c < 0x80 -> decode_from None (c :: rest) = c :: decode_from None rest.
Proof. intros H. rewrite decode_cons_start, start_ascii by lia. reflexivity. Qed.

Lemma round_trip_two (c : N) (rest : Bytes) :
  0x80 <= c < 0x800 ->
  decode_from None ((0xC0 + c / 64) :: (0x80 + c mod 64) :: rest)
  = c :: decode_from None rest.
Proof.
  intros H. rewrite decode_cons_start, start_two by lia. cbn [fst snd app].
  rewrite continue_last by lia.
  replace ((0xC0 + c / 64 - 0xC0) * 64 + (0x80 + c mod 64 - 0x80)) with c by lia.
  rewrite emit_bmp by lia. reflexivity.
Qed.

Lemma round_trip_three (c : N) (rest : Bytes) :
  0x800 <= c < 0x10000 -> is_high c = false -> is_low c = false ->
  decode_from None
    ((0xE0 + c / 4096) :: (0x80 + (c / 64) mod 64) :: (0x80 + c mod 64) :: rest)
  = c :: decode_from None rest.
Proof.
  intros H Hh Hl. unfold is_high in Hh. unfold is_low in Hl.
  bool_to_prop Hh. bool_to_prop Hl.
  rewrite decode_cons_start, start_three by lia. cbn [fst snd app].
  rewrite continue_more; [| do 2 settle; lia | lia].
  rewrite continue_last by lia.
  replace (((0xE0 + c / 4096 - 0xE0) * 64 + (0x80 + (c / 64) mod 64 - 0x80)) * 64
           + (0x80 + c mod 64 - 0x80)) with c by lia.
  rewrite emit_bmp by lia. reflexivity.
Qed.

Lemma round_trip_four (c d : N) (rest : Bytes) :
  0xD800 <= c <= 0xDBFF -> 0xDC00 <= d <= 0xDFFF ->
  let cp := 0x10000 + (c - 0xD800) * 0x400 + (d - 0xDC00) in
  decode_from None
    ((0xF0 + cp / 262144) :: (0x80 + (cp / 4096) mod 64)
       :: (0x80 + (cp / 64) mod 64) :: (0x80 + cp mod 64) :: rest)
  = c :: d :: decode_from None rest.
Proof.
  intros Hc Hd cp.
  assert (0x10000 <= cp < 0x110000) as Hcp by (unfold cp; lia).
  rewrite decode_cons_start, start_four by lia. cbn [fst snd app].
  rewrite continue_more; [| do 2 settle; lia | lia].
  rewrite continue_more by lia.
  rewrite continue_last by lia.
  replace ((((0xF0 + cp / 262144 - 0xF0) * 64 + (0x80 + (cp / 4096) mod 64 - 0x80)) * 64
            + (0x80 + (cp / 64) mod 64 - 0x80)) * 64 + (0x80 + cp mod 64 - 0x80))
    with cp by lia.
  unfold cp. rewrite emit_pair by lia. reflexivity.
Qed.

Lemma decode_encode_app (n : nat) :
  forall (s : JsString) (rest : Bytes),
    (length s <= n)%nat -> well_formed s = true ->
    decode_from None (encode s ++ rest) = s ++ decode_from None rest.
Proof.
  induction n as [|n IH]; intros s rest Hn Hwf.
  - destruct s; [reflexivity | cbn in Hn; lia].
  - destruct s as [|c r]; [reflexivity|].
    cbn [length] in Hn. cbn [well_formed] in Hwf. cbn [encode].
    destruct (c <? 0x80) eqn:E1; bool_to_prop E1.
    { destruct (is_high c) eqn:Eh; [unfold is_high in Eh; bool_to_prop Eh; lia|].
      bool_to_prop Hwf. destruct Hwf as [_ Hr].
      cbn [app]. rewrite round_trip_one by lia. rewrite IH by (auto; lia). reflexivity. }
    destruct (c <? 0x800) eqn:E2; bool_to_prop E2.
    { destruct (is_high c) eqn:Eh; [unfold is_high in Eh; bool_to_prop Eh; lia|].
      bool_to_prop Hwf. destruct Hwf as [_ Hr].
      cbn [app]. rewrite round_trip_two by lia. rewrite IH by (auto; lia). reflexivity. }
    destruct (is_high c) eqn:Eh.
    { destruct r as [|d r']; [discriminate|].
      bool_to_prop Hwf. destruct Hwf as [Hd Hr]. rewrite Hd.
      unfold is_high in Eh. unfold is_low in Hd. bool_to_prop Eh. bool_to_prop Hd.
      cbn [app]. rewrite round_trip_four by lia.
      cbn [length] in Hn. rewrite IH by (auto; lia). reflexivity. }
    bool_to_prop Hwf. destruct Hwf as [[Hl Hc] Hr]. rewrite Hl.
    cbn [app]. rewrite round_trip_three by (auto; lia).
    rewrite IH by (auto; lia). reflexivity.
Qed.

Theorem utf8_decode_encode (s : JsString) :
  well_formed s = true -> decode (encode s) = s.
Proof.
  intros H. unfold decode.
  rewrite <- (app_nil_r (encode s)).
  rewrite (@decode_encode_app (length s)) by auto.
  cbn. apply app_nil_r.
Qed.

End Utf8Facts.

(** ** Byte ranges and lengths *)

Lemma lxor_byte (a b : N) : is_byte a -> is_byte b -> is_byte (N.lxor a b).
Proof.
  unfold is_byte. intros Ha Hb.
  assert (forall x, x < 256 -> N.log2 x < 8) as L.
  { intros x Hx. destruct (N.eq_dec x 0) as [->|Hz]; [reflexivity|].
    apply (N.log2_lt_pow2 x 8); lia. }
  destruct (N.eq_dec (N.lxor a b) 0) as [E|E]; [rewrite E; lia|].
  apply (N.log2_lt_pow2 (N.lxor a b) 8); [lia|].
  pose proof (N.log2_lxor a b). pose proof (L a Ha). pose proof (L b Hb). lia.
Qed.

Lemma xor_bytes_all_bytes (a b : Bytes) :
  all_bytes a -> all_bytes b -> all_bytes (xor_bytes a b).
Proof.
  unfold all_bytes. revert b.
  induction a as [|x a IH]; intros [|y b] Ha Hb; cbn [xor_bytes]; try constructor.
  - inversion_clear Ha. inversion_clear Hb. now apply lxor_byte.
  - inversion_clear Ha. inversion_clear Hb. now apply IH.
Qed.

Lemma xor_bytes_length (a b : Bytes) :
  (length a <= length b)%nat -> length (xor_bytes a b) = length a.
Proof.
  revert b. induction a as [|x a IH]; intros [|y b] H; cbn in *; try lia.
  rewrite IH; lia.
Qed.

Lemma xor_bytes_involutive (a k : Bytes) :
  (length a <= length k)%nat -> xor_bytes (xor_bytes a k) k = a.
Proof.
  revert k. induction a as [|x a IH]; intros [|y k] H; cbn in *; try lia; auto.
  rewrite IH by lia. f_equal.
  rewrite N.lxor_assoc, N.lxor_nilpotent, N.lxor_0_r. reflexivity.
Qed.

Lemma le_bytes_length (n : nat) (x : N) : length (le_bytes n x) = n.
Proof. revert x. induction n; intros x; cbn; auto. Qed.

Lemma le_bytes_all_bytes (n : nat) (x : N) : all_bytes (le_bytes n x).
Proof.
  unfold all_bytes, is_byte.
  revert x. induction n as [|n IH]; intros x; cbn [le_bytes]; constructor.
  - lia.
  - apply IH.
Qed.

Lemma be_bytes_length (n : nat) (x : N) : length (be_bytes n x) = n.
Proof. unfold be_bytes. rewrite length_rev. apply le_bytes_length. Qed.

Lemma be_bytes_all_bytes (n : nat) (x : N) : all_bytes (be_bytes n x).
Proof. unfold be_bytes. apply Forall_rev, le_bytes_all_bytes. Qed.

Lemma utf8_encode_all_bytes (s : JsString) :
  Utf8.well_formed s = true -> all_bytes (Utf8.encode s).
Proof.
  assert (forall (n : nat) (s : JsString),
             (length s <= n)%nat -> Utf8.well_formed s = true ->
             all_bytes (Utf8.encode s)) as G.
  { clear s. unfold all_bytes, is_byte.
    induction n as [|n IH]; intros s Hn Hwf.
    - destruct s; [constructor | cbn in Hn; lia].
    - destruct s as [|c r]; [constructor|].
      cbn [length] in Hn. cbn [Utf8.well_formed] in Hwf. cbn [Utf8.encode].
      destruct (Utf8.is_high c) eqn:Eh.
      + destruct r as [|d r']; [discriminate|].
        Utf8Facts.bool_to_prop Hwf. destruct Hwf as [Hd Hr]. rewrite Hd.
        unfold Utf8.is_high in Eh. unfold Utf8.is_low in Hd.
        Utf8Facts.bool_to_prop Eh. Utf8Facts.bool_to_prop Hd.
        cbn [length] in Hn.
        do 2 Utf8Facts.settle.
        repeat (constructor; [lia|]). apply IH; auto; lia.
      + Utf8Facts.bool_to_prop Hwf. destruct Hwf as [[Hl Hc] Hr]. rewrite Hl.
        do 2 (Utf8Facts.settle; [repeat (constructor; [lia|]); apply IH; auto; lia|]).
        repeat (constructor; [lia|]). apply IH; auto; lia. }
  intros H. apply (G (length s)); auto.
Qed.

(** ** Counter mode and the tag: decryption undoes encryption *)

Module GCMFacts.
Import GCM.

Lemma num_block_length (x : N) : length (num_block x) = 16%nat.
Proof. apply be_bytes_length. Qed.

Lemma keystream_length (E : N -> N) (n : nat) (cb : N) :
  length (keystream E n cb) = (16 * n)%nat.
Proof.
  revert cb. induction n as [|n IH]; intros cb; cbn [keystream]; [reflexivity|].
  rewrite length_app, num_block_length, IH. lia.
Qed.

Lemma keystream_all_bytes (E : N -> N) (n : nat) (cb : N) :
  all_bytes (keystream E n cb).
Proof.
  revert cb. induction n as [|n IH]; intros cb; cbn [keystream]; [constructor|].
  apply Forall_app. split; [apply be_bytes_all_bytes | apply IH].
Qed.

Lemma keystream_covers (E : N -> N) (icb : N) (x : Bytes) :
  (length x <= length (keystream E (S (length x / 16)) icb))%nat.
Proof.
  rewrite keystream_length.
  pose proof (Nat.div_mod_eq (length x) 16) as D.
  pose proof (Nat.mod_upper_bound (length x) 16 ltac:(discriminate)) as U.
  set (q := (length x / 16)%nat) in *. set (r := (length x mod 16)%nat) in *.
  clearbody q r. lia.
Qed.

Lemma gctr_length (E : N -> N) (icb : N) (x : Bytes) :
  length (gctr E icb x) = length x.
Proof. unfold gctr. apply xor_bytes_length, keystream_covers. Qed.

Lemma gctr_involutive (E : N -> N) (icb : N) (x : Bytes) :
  gctr E icb (gctr E icb x) = x.
Proof.
  unfold gctr at 1. rewrite gctr_length. unfold gctr.
  apply xor_bytes_involutive, keystream_covers.
Qed.

Lemma gctr_all_bytes (E : N -> N) (icb : N) (x : Bytes) :
  all_bytes x -> all_bytes (gctr E icb x).
Proof. intros H. apply xor_bytes_all_bytes; [assumption | apply keystream_all_bytes]. Qed.

Lemma tag_of_length (key iv ct : Bytes) : length (tag_of key iv ct) = 16%nat.
Proof. apply num_block_length. Qed.

Lemma tag_of_all_bytes (key iv ct : Bytes) : all_bytes (tag_of key iv ct).
Proof. apply be_bytes_all_bytes. Qed.

(** What [decrypt] checks, as a proposition. *)
Lemma decrypt_spec (key iv ct tag : Bytes) :
  (firstn (length tag) (tag_of key iv ct) = tag /\
   decrypt key iv ct tag = Some (gctr (cipher key) (inc32 (j0 iv)) ct))
  \/ (firstn (length tag) (tag_of key iv ct) <> tag /\ decrypt key iv ct tag = None).
Proof.
  unfold decrypt.
  destruct (list_eq_dec N.eq_dec (firstn (length tag) (tag_of key iv ct)) tag); auto.
Qed.

Theorem decrypt_encrypt (key iv pt : Bytes) :
  decrypt key iv (fst (encrypt key iv pt)) (snd (encrypt key iv pt)) = Some pt.
Proof.
  unfold encrypt. cbn [fst snd].
  destruct (decrypt_spec key iv (gctr (cipher key) (inc32 (j0 iv)) pt)
              (tag_of key iv (gctr (cipher key) (inc32 (j0 iv)) pt))) as [[_ D]|[D _]].
  - rewrite D, gctr_involutive. reflexivity.
  - exfalso. apply D. apply firstn_all.
Qed.

End GCMFacts.

(** ** [createCipher] followed by [createDecipher] under one password *)

Module NodeCryptoFacts.
Import NodeCrypto.

Lemma gcm_cipher_eq (password : Bytes) (data : JsString) :
  gcm_cipher password data =
  (Base64.encode (fst (GCM.encrypt (fst (evp_bytes_to_key password))
                                   (snd (evp_bytes_to_key password))
                                   (Utf8.encode data))),
   snd (GCM.encrypt (fst (evp_bytes_to_key password))
                    (snd (evp_bytes_to_key password))
                    (Utf8.encode data))).
Proof.
  unfold gcm_cipher. destruct (evp_bytes_to_key password) as [key iv]. cbn [fst snd].
  destruct (GCM.encrypt key iv (Utf8.encode data)) as [ct tag]. reflexivity.
Qed.

Lemma cipher_tag_length (password : Bytes) (data : JsString) :
  length (snd (gcm_cipher password data)) = 16%nat.
Proof. rewrite gcm_cipher_eq. cbn [snd]. apply GCMFacts.tag_of_length. Qed.

Lemma cipher_tag_all_bytes (password : Bytes) (data : JsString) :
  all_bytes (snd (gcm_cipher password data)).
Proof. rewrite gcm_cipher_eq. cbn [snd]. apply GCMFacts.tag_of_all_bytes. Qed.

Theorem decipher_cipher (password : Bytes) (data : JsString) :
  Utf8.well_formed data = true ->
  gcm_decipher password (Some (snd (gcm_cipher password data)))
               (fst (gcm_cipher password data)) = Ok data.
Proof.
  intros Hwf. unfold gcm_decipher.
  rewrite cipher_tag_length. rewrite gcm_cipher_eq. cbn [fst snd].
  destruct (evp_bytes_to_key password) as [key iv]. cbn [fst snd].
  change (valid_gcm_tag_length 16) with true. cbv iota.
  rewrite Base64Facts.base64_decode_encode.
  - rewrite GCMFacts.decrypt_encrypt, Utf8Facts.utf8_decode_encode by assumption.
    reflexivity.
  - unfold GCM.encrypt. cbn [fst].
    apply GCMFacts.gctr_all_bytes, utf8_encode_all_bytes, Hwf.
Qed.

End NodeCryptoFacts.

(** ** The master key module *)

Module MasterKeyFacts.
Import MasterKey.

Lemma encode_nonempty (b : N) (bs : Bytes) : Base64.encode (b :: bs) <> [].
Proof. destruct bs as [|c [|d r]]; discriminate. Qed.

Lemma wrapKey_eq (st : State) (mk : Bytes) (dek : JsString) :
  currentMasterKey st = Some mk ->
  wrapKey st dek =
  Ok (mkEnvelope (fst (NodeCrypto.gcm_cipher mk dek))
                 (Base64.encode (snd (NodeCrypto.gcm_cipher mk dek)))
                 (keyVersion st) (js "AES-256-GCM")).
Proof.
  intros H. unfold wrapKey, getCurrentMasterKey. rewrite H.
  destruct (NodeCrypto.gcm_cipher mk dek) as [e t]. reflexivity.
Qed.

(** What [unwrapKey] hands to the decipher when the 16-byte tag of a wrap
    is in the envelope. *)
Lemma unwrapKey_with_tag (st : State) (mk tag : Bytes) (ct : JsString)
      (v : Z) (a : JsString) :
  currentMasterKey st = Some mk -> all_bytes tag -> length tag = 16%nat ->
  unwrapKey st (mkEnvelope ct (Base64.encode tag) v a) =
  match NodeCrypto.gcm_decipher mk (Some tag) ct with
  | Ok decrypted => Ok decrypted
  | Throw _ => Throw (js "Key unwrapping operation failed")
  end.
Proof.
  intros H Hb Hl. unfold unwrapKey, getCurrentMasterKey. rewrite H.
  cbn [authTag wrappedKey].
  destruct tag as [|b tag]; [discriminate|].
  destruct (Base64.encode (b :: tag)) eqn:E; [now apply encode_nonempty in E|].
  rewrite <- E, Base64Facts.base64_decode_encode by assumption. reflexivity.
Qed.

Lemma wrapKey_envelope (st : State) (mk : Bytes) (dek : JsString) :
  currentMasterKey st = Some mk ->
  wrapKey st dek = Ok (envelope_of mk (keyVersion st) dek).
Proof. apply wrapKey_eq. Qed.

Lemma unwrapKey_envelope (st : State) (mk : Bytes) (v : Z) (dek : JsString) :
  currentMasterKey st = Some mk ->
  Utf8.well_formed dek = true ->
  unwrapKey st (envelope_of mk v dek) = Ok dek.
Proof.
  intros E Hwf. unfold envelope_of.
  rewrite (@unwrapKey_with_tag st mk _ _ _ _ E
             (NodeCryptoFacts.cipher_tag_all_bytes mk dek)
             (NodeCryptoFacts.cipher_tag_length mk dek)).
  rewrite NodeCryptoFacts.decipher_cipher by assumption. reflexivity.
Qed.

(** C1 (as amended).  With the master key initialised and unchanged
    between the two calls, [unwrapKey] gives back the key that [wrapKey]
    was given, for every key that is a well-formed string (16-bit code
    units, no unpaired surrogate). *)
Theorem wrap_unwrap_round_trip (st : State) (dek : JsString) :
  currentMasterKey st <> None ->
  Utf8.well_formed dek = true ->
  exists env, wrapKey st dek = Ok env /\ unwrapKey st env = Ok dek.
Proof.
  intros Hk Hwf. destruct (currentMasterKey st) as [mk|] eqn:E; [|congruence].
  exists (envelope_of mk (keyVersion st) dek). split.
  - apply (@wrapKey_envelope st mk dek E).
  - apply (@unwrapKey_envelope st mk (keyVersion st) dek E Hwf).
Qed.

Lemma wrap_unwrap_round_trip_witness :
  currentMasterKey Scenario.booted <> None /\
  Utf8.well_formed Scenario.dek = true /\
  exists env, wrapKey Scenario.booted Scenario.dek = Ok env
              /\ unwrapKey Scenario.booted env = Ok Scenario.dek.
Proof.
  split; [discriminate|]. split; [reflexivity|].
  apply (wrap_unwrap_round_trip Scenario.booted Scenario.dek);
    [discriminate | reflexivity].
Defined.

(** C1 as stated fails: a key holding an unpaired surrogate is wrapped
    without error and comes back as U+FFFD. *)
Lemma round_trip_fails_on_lone_surrogate :
  currentMasterKey Scenario.booted <> None /\
  bind (wrapKey Scenario.booted Scenario.lone_surrogate) (unwrapKey Scenario.booted)
  = Ok [0xFFFD] /\
  bind (wrapKey Scenario.booted Scenario.lone_surrogate) (unwrapKey Scenario.booted)
  <> Ok Scenario.lone_surrogate.
Proof.
  split; [discriminate|].
  assert (bind (wrapKey Scenario.booted Scenario.lone_surrogate)
               (unwrapKey Scenario.booted) = Ok [0xFFFD]) as E
      by (vm_compute; reflexivity).
  split; [exact E|]. rewrite E. discriminate.
Qed.

End MasterKeyFacts.

(** *** Rotation *)

Module RotationFacts.
Import MasterKey.
Local Open Scope Z_scope.

Lemma rotate_state (st : State) (w : World) (i : Inputs) :
  fst (fst (rotateMasterKey st w i)) = install (generateMasterKey st i).
Proof.
  unfold rotateMasterKey.
  destruct (saveMasterKey (install (generateMasterKey st i)) w i (generateMasterKey st i)).
  reflexivity.
Qed.

(** [unwrapKey] reads the current key, the ciphertext and the tag, and
    nothing else: neither the version in the envelope nor the version and
    age in the state. *)
Lemma unwrapKey_ignores_version (st : State) (env : Envelope) (v v' : Z)
      (a : JsString) (c : option Z) :
  unwrapKey st env =
  unwrapKey (mkState (currentMasterKey st) v c)
            (mkEnvelope (wrappedKey env) (authTag env) v' a).
Proof. unfold unwrapKey, getCurrentMasterKey. reflexivity. Qed.

(** C2 (as amended).  [rotateMasterKey] installs the fresh key as the only
    key: the state holds nothing of the previous one and the key file,
    when it can be written, is overwritten with the new key object.
    [unwrapKey] always deciphers under the current key, whatever version
    the envelope records.  Envelopes wrapped after the rotation carry the
    new version number, the previous one plus one, and unwrap to the key
    that was wrapped. *)
Theorem rotation_replaces_the_key (st : State) (w : World) (i : Inputs)
        (dek : JsString) :
  Utf8.well_formed dek = true ->
  let st' := fst (fst (rotateMasterKey st w i)) in
  let w' := snd (fst (rotateMasterKey st w i)) in
  st' = mkState (Some (Base64.decode (Base64.encode (random i))))
                (keyVersion st + 1) (Some (now i))
  /\ (keys_dir_writable w = true ->
      master_key_file w' =
      Some (Sealed (storageKey w) (mkKeyData (generateMasterKey st i) (now i))))
  /\ (forall env v, unwrapKey st' env =
                    unwrapKey st' (mkEnvelope (wrappedKey env) (authTag env) v
                                              (algorithm env)))
  /\ exists env, wrapKey st' dek = Ok env
                 /\ version env = keyVersion st + 1
                 /\ unwrapKey st' env = Ok dek.
Proof.
  intros Hwf st' w'. subst st' w'. rewrite rotate_state.
  split; [reflexivity|]. split.
  - intros Hw. unfold rotateMasterKey, saveMasterKey. rewrite Hw. reflexivity.
  - split; [intros; apply unwrapKey_ignores_version|].
    assert (currentMasterKey (install (generateMasterKey st i))
            = Some (Base64.decode (ko_key (generateMasterKey st i)))) as E
        by reflexivity.
    exists (envelope_of (Base64.decode (ko_key (generateMasterKey st i)))
                        (keyVersion st + 1) dek).
    split; [apply (@MasterKeyFacts.wrapKey_envelope _ _ dek E)|].
    split; [reflexivity|].
    apply (@MasterKeyFacts.unwrapKey_envelope _ _ _ _ E Hwf).
Qed.

Lemma dek_well_formed : Utf8.well_formed Scenario.dek = true.
Proof. vm_compute. reflexivity. Qed.

Lemma rotation_replaces_the_key_witness :
  Utf8.well_formed Scenario.dek = true /\
  exists env, wrapKey Scenario.rotated Scenario.dek = Ok env
              /\ version env = keyVersion Scenario.booted + 1
              /\ unwrapKey Scenario.rotated env = Ok Scenario.dek.
Proof.
  split; [exact dek_well_formed|].
  exact (proj2 (proj2 (proj2
           (rotation_replaces_the_key Scenario.booted Scenario.booted_world
              (mkInputs 1700000500000 Scenario.random2) Scenario.dek
              dek_well_formed)))).
Defined.

(** C2 as stated fails: the envelope wrapped before the rotation no longer
    unwraps after it. *)
Lemma old_envelope_lost_after_rotation :
  wrapKey Scenario.booted Scenario.dek = Ok Scenario.wrapped /\
  unwrapKey Scenario.booted Scenario.wrapped = Ok Scenario.dek /\
  snd Scenario.rotation = Returned /\
  unwrapKey Scenario.rotated Scenario.wrapped
  = Throw (js "Key unwrapping operation failed").
Proof. vm_compute. repeat split; reflexivity. Qed.

End RotationFacts.

(** *** Start-up with a key file that cannot be read *)

Module StartupFacts.
Import MasterKey.
Local Open Scope Z_scope.

(** [loadMasterKey] gives [null] for a missing file and for every file it
    cannot decipher and parse; nothing tells the two apart. *)
Lemma loadMasterKey_null (w : World) :
  loadMasterKey w = None <->
  master_key_file w = None
  \/ (exists raw, master_key_file w = Some (Unreadable raw))
  \/ (exists pw d, master_key_file w = Some (Sealed pw d) /\ pw <> storageKey w).
Proof.
  unfold loadMasterKey, jsstring_eqb.
  destruct (master_key_file w) as [[pw d|raw]|].
  - destruct (list_eq_dec N.eq_dec pw (storageKey w)) as [E|E]; split.
    + discriminate.
    + intros [H|[[raw H]|[pw' [d' [H Hne]]]]]; try discriminate.
      injection H as -> ->. contradiction.
    + intros _. right. right. eauto.
    + reflexivity.
  - split; [intros _; right; left; eauto | reflexivity].
  - split; [intros _; left; reflexivity | reflexivity].
Qed.

(** C6 (as amended).  If at start-up the key file exists but cannot be
    deciphered with the storage password, [loadMasterKey] gives [null] and
    [initMasterKey] goes on as on a first boot: it returns normally with a
    freshly generated key installed as version [keyVersion + 1], and the
    file is overwritten with that key. *)
Theorem unreadable_key_file_is_replaced (st : State) (w : World) (i : Inputs)
        (f : FileContent) :
  master_key_file w = Some f ->
  loadMasterKey w = None ->
  keys_dir_writable w = true ->
  let k := generateMasterKey st i in
  exists w',
    initMasterKey st w i = (install k, w', Returned)
    /\ currentMasterKey (install k) = Some (Base64.decode (Base64.encode (random i)))
    /\ keyVersion (install k) = keyVersion st + 1
    /\ master_key_file w' = Some (Sealed (storageKey w) (mkKeyData k (now i))).
Proof.
  intros _ Hload Hw k. unfold initMasterKey. rewrite Hload.
  unfold saveMasterKey. rewrite Hw. fold k.
  eexists. split; [reflexivity|]. repeat split.
Qed.

Lemma unreadable_key_file_is_replaced_witness :
  master_key_file Scenario.restart_world
  = Some (Sealed (js "default-dev-password")
                 (mkKeyData (generateMasterKey initial
                               (mkInputs 1700000000000 Scenario.random1))
                            1700000000000)) /\
  loadMasterKey Scenario.restart_world = None /\
  keys_dir_writable Scenario.restart_world = true /\
  exists w',
    Scenario.restart
    = (install (generateMasterKey initial (mkInputs 1700000900000 Scenario.random2)),
       w', Returned).
Proof.
  assert (master_key_file Scenario.restart_world
          = Some (Sealed (js "default-dev-password")
                    (mkKeyData (generateMasterKey initial
                                  (mkInputs 1700000000000 Scenario.random1))
                               1700000000000))) as Hf by reflexivity.
  assert (loadMasterKey Scenario.restart_world = None) as Hl
      by (vm_compute; reflexivity).
  split; [exact Hf|]. split; [exact Hl|]. split; [reflexivity|].
  destruct (@unreadable_key_file_is_replaced initial Scenario.restart_world
              (mkInputs 1700000900000 Scenario.random2) _ Hf Hl eq_refl)
    as [w' [H _]].
  exists w'. exact H.
Defined.

(** C6 as stated fails: the file written at the first boot is still there,
    the storage password in the environment has changed, and start-up
    neither aborts nor keeps the key: it installs a new one over it.  A
    damaged file is treated alike. *)
Lemma startup_regenerates_over_existing_file :
  master_key_file Scenario.restart_world <> None /\
  loadMasterKey Scenario.restart_world = None /\
  snd Scenario.restart = Returned /\
  currentMasterKey (fst (fst Scenario.restart)) = Some Scenario.random2 /\
  currentMasterKey (fst (fst Scenario.restart)) <> currentMasterKey Scenario.booted /\
  master_key_file (snd (fst Scenario.restart)) <> master_key_file Scenario.restart_world /\
  master_key_file Scenario.damaged_world <> None /\
  snd Scenario.restart_damaged = Returned /\
  currentMasterKey (fst (fst Scenario.restart_damaged)) = Some Scenario.random2.
Proof.
  vm_compute. repeat split; try reflexivity; discriminate.
Qed.

End StartupFacts.

(** *** Tampered envelopes *)

Module TamperFacts.
Import MasterKey.

(** The tag [unwrapKey] checks the envelope against. *)
Lemma unwrapKey_verified (st : State) (env : Envelope) (s : JsString) :
  unwrapKey st env = Ok s ->
  exists mk,
    currentMasterKey st = Some mk /\
    let key := fst (NodeCrypto.evp_bytes_to_key mk) in
    let iv := snd (NodeCrypto.evp_bytes_to_key mk) in
    let ct := Base64.decode (wrappedKey env) in
    let tag := Base64.decode (authTag env) in
    NodeCrypto.valid_gcm_tag_length (length tag) = true /\
    firstn (length tag) (GCM.tag_of key iv ct) = tag /\
    s = Utf8.decode (GCM.gctr (GCM.cipher key) (GCM.inc32 (GCM.j0 iv)) ct).
Proof.
  unfold unwrapKey, getCurrentMasterKey.
  destruct (currentMasterKey st) as [mk|]; [|discriminate].
  intros H. exists mk. split; [reflexivity|]. cbv zeta.
  destruct (authTag env) as [|c t]; [discriminate|].
  unfold NodeCrypto.gcm_decipher in H.
  destruct (NodeCrypto.evp_bytes_to_key mk) as [key iv]. cbn [fst snd].
  destruct (NodeCrypto.valid_gcm_tag_length (length (Base64.decode (c :: t))));
    [|discriminate].
  destruct (GCMFacts.decrypt_spec key iv (Base64.decode (wrappedKey env))
              (Base64.decode (c :: t))) as [[T D]|[_ D]];
    rewrite D in H; [|discriminate].
  injection H as <-. auto.
Qed.

(** Whatever goes wrong, [unwrapKey] throws one and the same error. *)
Lemma unwrapKey_error (st : State) (env : Envelope) (e : JsString) :
  unwrapKey st env = Throw e -> e = js "Key unwrapping operation failed".
Proof.
  unfold unwrapKey, getCurrentMasterKey.
  destruct (currentMasterKey st) as [mk|]; [|congruence].
  destruct (NodeCrypto.gcm_decipher _ _ _); congruence.
Qed.


Lemma booted_key : currentMasterKey Scenario.booted = Some Scenario.random1.
Proof. vm_compute. reflexivity. Qed.


(** Changing tag bytes in place, the ciphertext left alone, is always
    refused. *)
Corollary altered_tag_is_refused (st : State) (mk : Bytes) (dek : JsString)
          (tag' : Bytes) :
  currentMasterKey st = Some mk ->
  Utf8.well_formed dek = true ->
  all_bytes tag' -> length tag' = 16%nat ->
  tag' <> snd (NodeCrypto.gcm_cipher mk dek) ->
  unwrapKey st (mkEnvelope (wrappedKey (envelope_of mk (keyVersion st) dek))
                           (Base64.encode tag') (keyVersion st) (js "AES-256-GCM"))
  = Throw (js "Key unwrapping operation failed").
Proof.
  intros Hk Hwf Hb Hl Hne.
  match goal with |- ?u = _ => destruct u as [s|e] eqn:U end.
  - exfalso. destruct (unwrapKey_verified _ _ U) as [mk' [Hk' [_ [T _]]]].
    rewrite Hk in Hk'. injection Hk' as <-.
    cbn [authTag wrappedKey envelope_of] in T.
    rewrite (@Base64Facts.base64_decode_encode tag' Hb), Hl in T.
    rewrite NodeCryptoFacts.gcm_cipher_eq in Hne, T. cbn [fst snd] in Hne, T.
    rewrite Base64Facts.base64_decode_encode in T.
    + apply Hne. rewrite <- T. unfold GCM.encrypt. cbn [fst snd].
      apply firstn_all2. rewrite GCMFacts.tag_of_length. auto.
    + unfold GCM.encrypt. cbn [fst].
      apply GCMFacts.gctr_all_bytes, utf8_encode_all_bytes, Hwf.
  - f_equal. exact (unwrapKey_error _ _ U).
Qed.


(** The tag cut to four bytes is accepted as well. *)
Lemma short_tag_is_accepted :
  wrappedKey Scenario.short_tag = wrappedKey Scenario.wrapped /\
  Base64.decode (authTag Scenario.short_tag)
  = firstn 4 (Base64.decode (authTag Scenario.wrapped)) /\
  unwrapKey Scenario.booted Scenario.short_tag = Ok Scenario.dek.
Proof. vm_compute. repeat split; reflexivity. Qed.

(** Tampering is reported with the very error of a missing master key. *)
Lemma refusal_is_not_distinct :
  unwrapKey initial Scenario.wrapped = unwrapKey Scenario.booted Scenario.bad_tag.
Proof. vm_compute. reflexivity. Qed.

End TamperFacts.

(** *** The nonce of [wrapKey] *)

Module NonceFacts.
Import MasterKey.

Lemma keystream_prefix (E : N -> N) (n m : nat) (cb : N) :
  (n <= m)%nat -> exists t, GCM.keystream E m cb = GCM.keystream E n cb ++ t.
Proof.
  revert m cb. induction n as [|n IH]; intros m cb H.
  - exists (GCM.keystream E m cb). reflexivity.
  - destruct m as [|m]; [lia|]. cbn [GCM.keystream].
    destruct (IH m (GCM.inc32 cb)) as [t Ht]; [lia|].
    exists t. rewrite Ht, app_assoc. reflexivity.
Qed.

Lemma xor_bytes_app_r (a k t : Bytes) :
  (length a <= length k)%nat -> xor_bytes a (k ++ t) = xor_bytes a k.
Proof.
  revert k. induction a as [|x a IH]; intros k H; [reflexivity|].
  destruct k as [|y k]; cbn [length] in H; [lia|].
  cbn [xor_bytes app]. rewrite IH by lia. reflexivity.
Qed.

Lemma xor_bytes_cancel (a b k : Bytes) :
  (length a <= length k)%nat -> (length b <= length k)%nat ->
  xor_bytes (xor_bytes a k) (xor_bytes b k) = xor_bytes a b.
Proof.
  revert b k. induction a as [|x a IH]; intros b k Ha Hb; [reflexivity|].
  destruct k as [|z k]; cbn [length] in Ha; [lia|].
  destruct b as [|y b]; [reflexivity|]. cbn [length] in Hb.
  cbn [xor_bytes]. rewrite IH by lia. f_equal.
  rewrite (N.lxor_comm y z), N.lxor_assoc, <- (N.lxor_assoc z z y).
  rewrite N.lxor_nilpotent, N.lxor_0_l. reflexivity.
Qed.

(** Two plaintexts enciphered from one counter block: the exclusive or of
    the ciphertexts is the exclusive or of the plaintexts. *)
Lemma gctr_two_time_pad (E : N -> N) (icb : N) (a b : Bytes) :
  xor_bytes (GCM.gctr E icb a) (GCM.gctr E icb b) = xor_bytes a b.
Proof.
  unfold GCM.gctr.
  set (na := S (length a / 16)). set (nb := S (length b / 16)).
  pose proof (GCMFacts.keystream_covers E icb a) as Ca.
  pose proof (GCMFacts.keystream_covers E icb b) as Cb.
  fold na in Ca. fold nb in Cb.
  destruct (Nat.le_ge_cases na nb) as [L|L].
  - destruct (@keystream_prefix E na nb icb L) as [t Ht].
    rewrite <- (@xor_bytes_app_r a (GCM.keystream E na icb) t Ca), <- Ht.
    apply xor_bytes_cancel; [|assumption].
    rewrite Ht, length_app. lia.
  - destruct (@keystream_prefix E nb na icb L) as [t Ht].
    rewrite <- (@xor_bytes_app_r b (GCM.keystream E nb icb) t Cb), <- Ht.
    apply xor_bytes_cancel; [assumption|].
    rewrite Ht, length_app. lia.
Qed.

(** The key and the IV of [wrapKey] come from the master key alone, so any
    two envelopes under one master key share their key stream. *)
Theorem envelopes_share_the_keystream (mk : Bytes) (dek1 dek2 : JsString) :
  let key := fst (NodeCrypto.evp_bytes_to_key mk) in
  let iv := snd (NodeCrypto.evp_bytes_to_key mk) in
  xor_bytes (fst (GCM.encrypt key iv (Utf8.encode dek1)))
            (fst (GCM.encrypt key iv (Utf8.encode dek2)))
  = xor_bytes (Utf8.encode dek1) (Utf8.encode dek2).
Proof. cbv zeta. unfold GCM.encrypt. cbn [fst]. apply gctr_two_time_pad. Qed.

(** C5 fails on the code.  Two calls of [wrapKey] on one key under one
    master key give one and the same ciphertext and tag, whatever the clock
    and the version counter are at the two calls. *)
Theorem wrapping_twice_repeats_the_ciphertext (mk : Bytes) (dek : JsString)
        (v1 v2 : Z) (c1 c2 : option Z) :
  exists e1 e2,
    wrapKey (mkState (Some mk) v1 c1) dek = Ok e1 /\
    wrapKey (mkState (Some mk) v2 c2) dek = Ok e2 /\
    wrappedKey e1 = wrappedKey e2 /\ authTag e1 = authTag e2.
Proof.
  exists (envelope_of mk v1 dek), (envelope_of mk v2 dek).
  split; [apply (@MasterKeyFacts.wrapKey_envelope (mkState (Some mk) v1 c1) mk dek);
          reflexivity|].
  split; [apply (@MasterKeyFacts.wrapKey_envelope (mkState (Some mk) v2 c2) mk dek);
          reflexivity|].
  split; reflexivity.
Qed.

(** At the first boot of the scenario, both calls return [wrapped]. *)
Lemma wrapping_twice_in_the_scenario :
  wrapKey Scenario.booted Scenario.dek = Ok Scenario.wrapped /\
  wrapKey Scenario.booted Scenario.dek = Ok Scenario.wrapped.
Proof. vm_compute. split; reflexivity. Qed.

End NonceFacts.

(** ** Strings and values compared *)

Lemma jsstring_eqb_eq (a b : JsString) : jsstring_eqb a b = true <-> a = b.
Proof.
  unfold jsstring_eqb. destruct (list_eq_dec N.eq_dec a b); split; auto; discriminate.
Qed.

Lemma jsstring_eqb_refl (a : JsString) : jsstring_eqb a a = true.
Proof. now apply jsstring_eqb_eq. Qed.

Lemma strict_eq_eq (a b : Js.JsVal) : Js.strict_eq a b = true <-> a = b.
Proof.
  destruct a, b; cbn [Js.strict_eq]; split; intros H;
    try discriminate; try reflexivity.
  - apply Bool.eqb_prop in H. now subst.
  - injection H as ->. apply Bool.eqb_reflx.
  - apply Z.eqb_eq in H. now subst.
  - injection H as ->. apply Z.eqb_refl.
  - apply jsstring_eqb_eq in H. now subst.
  - injection H as ->. apply jsstring_eqb_refl.
Qed.

Lemma strict_neq_false (a b : Js.JsVal) : Js.strict_neq a b = false <-> a = b.
Proof. unfold Js.strict_neq. rewrite negb_false_iff. apply strict_eq_eq. Qed.

Lemma strict_neq_true (a b : Js.JsVal) : Js.strict_neq a b = true <-> a <> b.
Proof.
  unfold Js.strict_neq. rewrite negb_true_iff. split.
  - intros H E. apply strict_eq_eq in E. congruence.
  - intros H. destruct (Js.strict_eq a b) eqn:E; [|reflexivity].
    apply strict_eq_eq in E. contradiction.
Qed.

(** ** The dual authorization gate *)

Module GateFacts.
Import Js Jwt Gate.
Local Open Scope Z_scope.

(** A third-party header counts when it is not the empty text; a token
    that verifies is not the empty text. *)
Lemma given_some (t : option TokenString) (tok : TokenString) :
  given t = Some tok -> t = Some tok /\ tok <> Malformed [].
Proof.
  unfold given. destruct t as [[[|c raw]|j]|]; intros H; try discriminate;
    injection H as <-; split; try reflexivity; discriminate.
Qed.

Lemma given_nonempty (tok : TokenString) :
  tok <> Malformed [] -> given (Some tok) = Some tok.
Proof. destruct tok as [[|c raw]|j]; [contradiction | reflexivity | reflexivity]. Qed.

Lemma given_verified (tok : TokenString) (key : JsString) (now : Z) (p : Payload) :
  verifyJWT tok key now = Ok p -> given (Some tok) = Some tok.
Proof. destruct tok as [[|c raw]|j]; [discriminate | reflexivity | reflexivity]. Qed.

(** What has happened when the gate calls [next()]. *)
Lemma next_inversion (pk : option JsString) (redis : Redis) (now : Z)
      (req : Request) (a : Auth) :
  verifyDualAuth pk redis now req = Next a ->
  exists tok1 tok2 key g t,
    authorization req = Some (Bearer tok1) /\
    x_third_party_token req = Some tok2 /\
    KeyDirectory.truthy pk = Some key /\
    verifyJWT tok1 key now = Ok g /\
    checkTokenBlacklist redis (p_jti g) = false /\
    verifyJWT tok2 key now = Ok t /\
    p_sub g = p_sub t /\ p_username g = p_username t /\
    exp_before (p_exp g) now = false /\ exp_before (p_exp t) now = false /\
    is_string (p_jti g) = true /\
    a = mkAuth (p_sub g) (p_username g) (p_email g)
               (p_jti g) (p_iat g) (p_exp g) (p_jti t) (p_iat t) (p_exp t).
Proof.
  unfold verifyDualAuth.
  destruct (authorization req) as [[tok1|raw]|]; try discriminate.
  destruct (given (x_third_party_token req)) as [tok2|] eqn:G; try discriminate.
  apply given_some in G. destruct G as [G _]. rewrite G.
  destruct (KeyDirectory.truthy pk) as [key|]; try discriminate.
  destruct (verifyJWT tok1 key now) as [g|m1] eqn:V1; try discriminate.
  destruct (checkTokenBlacklist redis (p_jti g)) eqn:B; try discriminate.
  destruct (verifyJWT tok2 key now) as [t|m2] eqn:V2; try discriminate.
  destruct (strict_neq (p_sub g) (p_sub t)) eqn:S; try discriminate.
  destruct (strict_neq (p_username g) (p_username t)) eqn:U; try discriminate.
  cbn [orb].
  destruct (exp_before (p_exp g) now) eqn:E1; try discriminate.
  destruct (exp_before (p_exp t) now) eqn:E2; try discriminate.
  cbn [orb].
  destruct (is_string (p_jti g)) eqn:J; try discriminate.
  intros H. injection H as <-.
  apply strict_neq_false in S. apply strict_neq_false in U.
  exists tok1, tok2, key, g, t. repeat split; auto.
Qed.

(** C4.  Two tokens that both pass verification, the first not
    blacklisted, and that differ in [sub] or in [username] are answered
    with the 401 ['Token mismatch'] response, which no other denial shares;
    and whenever the gate lets such a pair through, the two agree on [sub]
    and [username], and the identity handed on is the common one. *)
Theorem subject_mismatch_is_denied (pk : option JsString) (redis : Redis) (now : Z)
        (req : Request) (tok1 tok2 : TokenString) (key : JsString) (g t : Payload) :
  authorization req = Some (Bearer tok1) ->
  x_third_party_token req = Some tok2 ->
  KeyDirectory.truthy pk = Some key ->
  verifyJWT tok1 key now = Ok g ->
  verifyJWT tok2 key now = Ok t ->
  checkTokenBlacklist redis (p_jti g) = false ->
  ((p_sub g <> p_sub t \/ p_username g <> p_username t) ->
   verifyDualAuth pk redis now req = Respond token_mismatch)
  /\ (verifyDualAuth pk redis now req = Respond token_mismatch ->
      p_sub g <> p_sub t \/ p_username g <> p_username t)
  /\ (forall a, verifyDualAuth pk redis now req = Next a ->
                p_sub g = p_sub t /\ p_username g = p_username t /\
                user_id a = p_sub g /\ user_username a = p_username g).
Proof.
  intros Ha Ht Hk V1 V2 B. split; [|split].
  - intros D. unfold verifyDualAuth.
    rewrite Ha, Ht, (given_verified _ _ _ V2), Hk, V1, B, V2.
    destruct D as [D|D]; apply strict_neq_true in D; rewrite D;
      [|rewrite orb_true_r]; reflexivity.
  - unfold verifyDualAuth.
    rewrite Ha, Ht, (given_verified _ _ _ V2), Hk, V1, B, V2.
    destruct (strict_neq (p_sub g) (p_sub t)) eqn:S;
      [intros _; left; now apply strict_neq_true|].
    destruct (strict_neq (p_username g) (p_username t)) eqn:U;
      [intros _; right; now apply strict_neq_true|].
    cbn [orb].
    destruct (exp_before (p_exp g) now || exp_before (p_exp t) now);
      [discriminate|].
    destruct (is_string (p_jti g)); discriminate.
  - intros a H. apply next_inversion in H.
    destruct H as (tok1' & tok2' & key' & g' & t' & Ha' & Ht' & Hk' & V1' & _ & V2'
                   & S & U & _ & _ & _ & ->).
    rewrite Ha in Ha'. injection Ha' as <-.
    rewrite Ht in Ht'. injection Ht' as <-.
    rewrite Hk in Hk'. injection Hk' as <-.
    rewrite V1 in V1'. injection V1' as <-.
    rewrite V2 in V2'. injection V2' as <-.
    auto.
Qed.

Lemma subject_mismatch_is_denied_witness :
  verifyJWT GateScenario.resource_token GateScenario.issuer_key GateScenario.clock
  = Ok (mkPayload (JStr (js "jti-resource-0001")) (JStr GateScenario.alice_id)
                  (JStr (js "alice")) JUndefined (JNum 1700000000) (Some 1700086400))
  /\ verifyJWT GateScenario.bob_identity_token GateScenario.issuer_key GateScenario.clock
     = Ok (mkPayload (JStr (js "jti-identity-0003")) (JStr GateScenario.bob_id)
                     (JStr (js "bob")) JUndefined (JNum 1700000000) (Some 1700086400))
  /\ verifyDualAuth (Some GateScenario.issuer_key) GateScenario.redis_empty
                    GateScenario.clock GateScenario.mixed_request
     = Respond token_mismatch.
Proof.
  split; [vm_compute; reflexivity|]. split; [vm_compute; reflexivity|].
  refine (proj1 (@subject_mismatch_is_denied
                   (Some GateScenario.issuer_key) GateScenario.redis_empty
                   GateScenario.clock GateScenario.mixed_request
                   GateScenario.resource_token GateScenario.bob_identity_token
                   GateScenario.issuer_key _ _ _ _ _ _ _ _) _).
  - reflexivity.
  - reflexivity.
  - reflexivity.
  - vm_compute. reflexivity.
  - vm_compute. reflexivity.
  - vm_compute. reflexivity.
  - left. vm_compute. discriminate.
Defined.

End GateFacts.

(** *** What a denial tells the caller *)

Module DenialFacts.
Import Js Jwt Gate.
Local Open Scope Z_scope.





(** The six responses are pairwise different. *)
Lemma denials_are_distinct (m1 m2 : JsString) :
  NoDup [field "error" (invalid_google_token m1); field "error" token_revoked;
         field "error" (invalid_third_party_token m2); field "error" token_mismatch;
         field "error" token_expired; field "error" internal_error].
Proof.
  repeat (constructor; [cbn [In]; intros H; repeat destruct H as [H|H];
                        try discriminate H; try contradiction|]).
  constructor.
Qed.

(** Within the first and the third kind the message tells an expired
    token from a bad signature. *)
Lemma verifier_message_tells_expiry_from_signature :
  verifyJWT GateScenario.forged_token GateScenario.issuer_key GateScenario.clock
  = Throw (js "JWT verification failed: invalid signature") /\
  verifyJWT GateScenario.resource_token GateScenario.issuer_key GateScenario.late_clock
  = Throw (js "JWT verification failed: jwt expired").
Proof. vm_compute. split; reflexivity. Qed.


End DenialFacts.

(** *** Revocation of the identity token *)

Module IdentityTokenFacts.
Import Js Jwt Gate.
Local Open Scope Z_scope.

(** The store enters the decision only through the entry for the [jti] of
    the first token. *)
Lemma gate_reads_the_first_jti_only (pk : option JsString) (redis redis' : Redis)
      (now : Z) (req : Request) :
  (forall tok key g, authorization req = Some (Bearer tok) ->
                     verifyJWT tok key now = Ok g ->
                     checkTokenBlacklist redis (p_jti g)
                     = checkTokenBlacklist redis' (p_jti g)) ->
  verifyDualAuth pk redis now req = verifyDualAuth pk redis' now req.
Proof.
  intros H. unfold verifyDualAuth.
  destruct (authorization req) as [[tok1|raw]|]; try reflexivity.
  destruct (x_third_party_token req) as [tok2|]; try reflexivity.
  destruct (KeyDirectory.truthy pk) as [key|]; try reflexivity.
  destruct (verifyJWT tok1 key now) as [g|m1] eqn:V1; try reflexivity.
  rewrite (H tok1 key g eq_refl V1). reflexivity.
Qed.

(** C10.  The gate looks up the blacklist for the [jti] of the first
    (resource) token only.  When the identity token's [jti] is blacklisted
    and the resource token's is not, and both tokens verify, are not past
    their expiry, and agree on [sub] and [username], the gate calls
    [next()] with the identity of the resource token. *)
Theorem blacklisted_identity_token_passes (pk : option JsString) (redis : Redis)
        (now : Z) (req : Request) (tok1 tok2 : TokenString) (key : JsString)
        (g t : Payload) :
  authorization req = Some (Bearer tok1) ->
  x_third_party_token req = Some tok2 ->
  KeyDirectory.truthy pk = Some key ->
  verifyJWT tok1 key now = Ok g ->
  verifyJWT tok2 key now = Ok t ->
  exp_before (p_exp g) now = false ->
  exp_before (p_exp t) now = false ->
  is_string (p_jti g) = true ->
  p_sub g = p_sub t ->
  p_username g = p_username t ->
  checkTokenBlacklist redis (p_jti g) = false ->
  checkTokenBlacklist redis (p_jti t) = true ->
  verifyDualAuth pk redis now req
  = Next (mkAuth (p_sub g) (p_username g) (p_email g)
                 (p_jti g) (p_iat g) (p_exp g) (p_jti t) (p_iat t) (p_exp t)).
Proof.
  intros Ha Ht Hk V1 V2 E1 E2 J S U B1 _.
  unfold verifyDualAuth.
  rewrite Ha, Ht, (GateFacts.given_verified _ _ _ V2), Hk, V1, B1, V2.
  apply strict_neq_false in S. apply strict_neq_false in U.
  rewrite S, U, E1, E2, J. reflexivity.
Qed.

Lemma blacklisted_identity_token_passes_witness :
  checkTokenBlacklist GateScenario.redis_identity_listed
                      (JStr (js "jti-resource-0001")) = false /\
  checkTokenBlacklist GateScenario.redis_identity_listed
                      (JStr (js "jti-identity-0002")) = true /\
  verifyDualAuth (Some GateScenario.issuer_key) GateScenario.redis_identity_listed
                 GateScenario.clock GateScenario.request
  = Next GateScenario.alice_auth.
Proof.
  split; [vm_compute; reflexivity|]. split; [vm_compute; reflexivity|].
  refine (@blacklisted_identity_token_passes
            (Some GateScenario.issuer_key) GateScenario.redis_identity_listed
            GateScenario.clock GateScenario.request
            GateScenario.resource_token GateScenario.identity_token
            GateScenario.issuer_key
            (mkPayload (JStr (js "jti-resource-0001")) (JStr GateScenario.alice_id)
                       (JStr (js "alice")) JUndefined (JNum 1700000000)
                       (Some 1700086400))
            (mkPayload (JStr (js "jti-identity-0002")) (JStr GateScenario.alice_id)
                       (JStr (js "alice")) JUndefined (JNum 1700000000)
                       (Some 1700086400))
            _ _ _ _ _ _ _ _ _ _ _ _);
    vm_compute; reflexivity.
Defined.

End IdentityTokenFacts.

(** ** The signing key of the identity provider *)

Module KeyDirectoryFacts.
Import KeyDirectory.
Local Open Scope Z_scope.

Lemma no_key_no_next (redis : Gate.Redis) (now : Z) (req : Gate.Request)
      (pk : option JsString) :
  truthy pk = None ->
  (forall a, Gate.verifyDualAuth pk redis now req <> Gate.Next a)
  /\ (forall tok1 tok2,
         Gate.authorization req = Some (Jwt.Bearer tok1) ->
         Gate.x_third_party_token req = Some tok2 ->
         tok2 <> Jwt.Malformed [] ->
         Gate.verifyDualAuth pk redis now req = Gate.Respond Gate.service_unavailable).
Proof.
  intros H. split.
  - intros a N. apply GateFacts.next_inversion in N.
    destruct N as (_ & _ & key & _ & _ & _ & _ & K & _). congruence.
  - intros tok1 tok2 Ha Ht Hne. unfold Gate.verifyDualAuth.
    rewrite Ha, Ht, (GateFacts.given_nonempty Hne), H. reflexivity.
Qed.

(** The [catch] block of [fetchAuthPublicKey].  A refresh is attempted
    ([get] gave nothing at the call) and the request fails.  If the cache
    holds a key when the failure is handled, that key is returned.  If it
    holds none, the call throws the request's error, and as long as
    [getAuthPublicKey()] gives nothing the gate lets no request through:
    with a bearer token and a third-party header that is not empty it
    answers 503. *)
Lemma fallback_reads_the_cache (c : Cache) (now : Z) (e : JsString)
      (resumed : Cache) (later : Z) :
  truthy (get c now) = None ->
  (forall k, truthy (get resumed later) = Some k ->
             fetchAuthPublicKey c now (RequestFailed e) resumed later
             = (Ok k, resumed))
  /\ (truthy (get resumed later) = None ->
      fetchAuthPublicKey c now (RequestFailed e) resumed later = (Throw e, resumed)
      /\ forall redis clock req,
          (forall a, Gate.verifyDualAuth (getAuthPublicKey resumed later) redis clock req
                     <> Gate.Next a)
          /\ (forall tok1 tok2,
                 Gate.authorization req = Some (Jwt.Bearer tok1) ->
                 Gate.x_third_party_token req = Some tok2 ->
                 tok2 <> Jwt.Malformed [] ->
                 Gate.verifyDualAuth (getAuthPublicKey resumed later) redis clock req
                 = Gate.Respond Gate.service_unavailable)).
Proof.
  intros H0. unfold fetchAuthPublicKey. rewrite H0. split.
  - intros k Hk. rewrite Hk. reflexivity.
  - intros Hn. rewrite Hn. split; [reflexivity|].
    intros redis clock req. apply no_key_no_next. exact Hn.
Qed.

(** The fallback does return a key that another call stored while the
    request was in flight. *)
Example fallback_after_concurrent_refill :
  fetchAuthPublicKey None 400000 GateScenario.unreachable
                     GateScenario.refilled_cache 401000
  = (Ok GateScenario.issuer_key, GateScenario.refilled_cache).
Proof. reflexivity. Qed.

(** An entry is served for five minutes and not after. *)
Lemma key_expires_after_ttl (k : JsString) (t now : Z) :
  t + 300000 < now -> getAuthPublicKey (set k t) now = None.
Proof.
  intros H. unfold getAuthPublicKey, get, set, stdTTL. cbn [expires value].
  assert ((t + 300 * 1000 <? now) = true) as -> by (apply Z.ltb_lt; lia).
  reflexivity.
Qed.

(** What [get] does not give now it does not give later. *)
Lemma get_nothing_later (c : Cache) (now later : Z) :
  now <= later -> truthy (get c now) = None -> truthy (get c later) = None.
Proof.
  intros Hle H0. unfold get in *. destruct c as [en|]; [|reflexivity].
  destruct (expires en <? now) eqn:E1.
  - apply Z.ltb_lt in E1.
    assert ((expires en <? later) = true) as -> by (apply Z.ltb_lt; lia).
    reflexivity.
  - destruct (expires en <? later); [reflexivity | exact H0].
Qed.

(** C9 fails on the code.  When nothing else has written to the cache while
    the request was in flight, a failed refresh finds in its [catch] block
    what the call found before the request: nothing.  So a key that was
    cached earlier and has passed its five minutes is never returned by the
    fallback: the call throws, and the gate, reading the same cache, answers
    503 to a request that brings both tokens, although a key had been
    cached. *)
Theorem failed_refresh_serves_no_stale_key (k : JsString) (t now later : Z)
        (e : JsString) (redis : Gate.Redis) (clock : Z) (req : Gate.Request)
        (tok1 tok2 : Jwt.TokenString) :
  t + 300000 < now ->
  now <= later ->
  Gate.authorization req = Some (Jwt.Bearer tok1) ->
  Gate.x_third_party_token req = Some tok2 ->
  tok2 <> Jwt.Malformed [] ->
  fetchAuthPublicKey (set k t) now (RequestFailed e) (set k t) later
  = (Throw e, set k t)
  /\ Gate.verifyDualAuth (getAuthPublicKey (set k t) later) redis clock req
     = Gate.Respond Gate.service_unavailable.
Proof.
  intros Ht Hle Ha H3 Hne.
  assert (truthy (get (set k t) now) = None) as H0.
  { change (get (set k t) now) with (getAuthPublicKey (set k t) now).
    rewrite key_expires_after_ttl by assumption. reflexivity. }
  pose proof (@get_nothing_later (set k t) now later Hle H0) as H1.
  split.
  - unfold fetchAuthPublicKey. rewrite H0, H1. reflexivity.
  - apply (proj2 (@no_key_no_next redis clock req
                    (getAuthPublicKey (set k t) later) H1) tok1 tok2 Ha H3 Hne).
Qed.

Lemma failed_refresh_serves_no_stale_key_witness :
  getAuthPublicKey GateScenario.filled_cache 299000 = Some GateScenario.issuer_key /\
  fetchAuthPublicKey GateScenario.filled_cache 301000 GateScenario.unreachable
                     GateScenario.filled_cache 306000
  = (Throw (js "connect ECONNREFUSED 127.0.0.1:3001"), GateScenario.filled_cache) /\
  Gate.verifyDualAuth (getAuthPublicKey GateScenario.filled_cache 306000)
                      GateScenario.redis_empty GateScenario.clock GateScenario.request
  = Gate.Respond Gate.service_unavailable.
Proof.
  split; [reflexivity|].
  apply (@failed_refresh_serves_no_stale_key
           GateScenario.issuer_key 0 301000 306000
           (js "connect ECONNREFUSED 127.0.0.1:3001")
           GateScenario.redis_empty GateScenario.clock GateScenario.request
           GateScenario.resource_token GateScenario.identity_token);
    try reflexivity; discriminate.
Defined.

End KeyDirectoryFacts.

(** ** Revocation: the durable table and the cache *)

Module RevocationFacts.
Import Js Jwt AuthService.
Local Open Scope Z_scope.

(** The payload of a token does not depend on when it is verified. *)
Lemma verify_payload_fixed (tok : TokenString) (pk : JsString) (tol1 tol2 t1 t2 : Z)
      (p1 p2 : Payload) :
  verify tok pk tol1 t1 = Ok p1 -> verify tok pk tol2 t2 = Ok p2 -> p1 = p2.
Proof.
  unfold verify. destruct tok as [raw|t]; [discriminate|].
  destruct (negb (jsstring_eqb (alg t) (js "RS256"))); [discriminate|].
  destruct (negb (jsstring_eqb (signed_for t) pk)); [discriminate|].
  destruct (nbf (claims t)) as [| |b|n|s]; try discriminate.
  - destruct (exp (claims t)) as [| |b|e|s]; try discriminate.
    + congruence.
    + destruct (e + tol1 <=? t1); [discriminate|].
      destruct (e + tol2 <=? t2); [discriminate|]. congruence.
  - destruct (t1 + tol1 <? n); [discriminate|].
    destruct (t2 + tol2 <? n); [discriminate|].
    destruct (exp (claims t)) as [| |b|e|s]; try discriminate.
    + congruence.
    + destruct (e + tol1 <=? t1); [discriminate|].
      destruct (e + tol2 <=? t2); [discriminate|]. congruence.
Qed.

(** A verified token is not past its expiry. *)
Lemma verify_not_expired (tok : TokenString) (pk : JsString) (tol now : Z)
      (p : Payload) (e : Z) :
  verify tok pk tol now = Ok p -> p_exp p = Some e -> now < e + tol.
Proof.
  unfold verify. destruct tok as [raw|t]; [discriminate|].
  destruct (negb (jsstring_eqb (alg t) (js "RS256"))); [discriminate|].
  destruct (negb (jsstring_eqb (signed_for t) pk)); [discriminate|].
  assert (forall r : Result Error Payload,
             match exp (claims t) with
             | JUndefined =>
                 Ok (mkPayload (jti (claims t)) (sub (claims t)) (username (claims t))
                               (email (claims t)) (iat (claims t)) None)
             | JNum e0 =>
                 if e0 + tol <=? now
                 then Throw (mkError TokenExpiredError (js "jwt expired"))
                 else Ok (mkPayload (jti (claims t)) (sub (claims t))
                                    (username (claims t)) (email (claims t))
                                    (iat (claims t)) (Some e0))
             | _ => Throw (mkError JsonWebTokenError (js "invalid exp value"))
             end = Ok p -> p_exp p = Some e -> now < e + tol) as G.
  { intros _. destruct (exp (claims t)) as [| |b|e0|s]; try discriminate.
    - intros H. injection H as <-. discriminate.
    - destruct (e0 + tol <=? now) eqn:L; [discriminate|].
      intros H. injection H as <-. cbn [p_exp]. intros H. injection H as <-.
      apply Z.leb_gt in L. lia. }
  destruct (nbf (claims t)) as [| |b|n|s]; try discriminate.
  - apply (G (Throw (mkError JsonWebTokenError []))).
  - destruct (now + tol <? n); [discriminate|].
    apply (G (Throw (mkError JsonWebTokenError []))).
Qed.

(** A successful logout leaves a row for the token's [jti], expiring with
    the token. *)
Lemma logout_inserts (pk : JsString) (db : Db) (now : Z) (req : Request)
      (db' : Db) (r : Response) :
  logout_route pk db now req = (db', r) -> status r = 200 ->
  exists tok p e j,
    authorization req = Some (Bearer tok) /\
    verify tok pk 0 now = Ok p /\ p_exp p = Some e /\
    sql_param (p_jti p) = Some j /\
    In (mkRow j (sql_param (p_sub p)) (e * 1000)) (token_blacklist db').
Proof.
  unfold logout_route.
  destruct (authorization req) as [[tok|raw]|];
    try (intros H; injection H as <- <-; discriminate).
  destruct (verify tok pk 0 now) as [p|err] eqn:V;
    try (intros H; injection H as <- <-; discriminate).
  destruct (p_exp p) as [e|] eqn:E;
    try (intros H; injection H as <- <-; discriminate).
  destruct (insert_blacklist db (p_jti p) (p_sub p) (e * 1000)) as [db1|] eqn:I;
    try (intros H; injection H as <- <-; discriminate).
  intros H _. injection H as <- <-.
  unfold insert_blacklist in I.
  destruct (sql_param (p_jti p)) as [j|] eqn:J; [|discriminate].
  match type of I with (if ?c then _ else _) = _ => destruct c end; [|discriminate].
  injection I as <-. exists tok, p, e, j. cbn [token_blacklist].
  repeat split; auto. apply in_or_app. right. left. reflexivity.
Qed.

(** Rows outlive every cleanup that runs before they expire. *)
Lemma row_survives (until : Z) (db db' : Db) (row : BlacklistRow) :
  evolves until db db' -> until <= expired_at row ->
  In row (token_blacklist db) -> In row (token_blacklist db').
Proof.
  intros Ev Hu. induction Ev as [db|db1 db2 db3 j s ex Ev IH I|db1 db2 t Ev IH Ht];
    intros Hin.
  - assumption.
  - specialize (IH Hin). unfold insert_blacklist in I.
    destruct (sql_param j) as [jj|]; [|discriminate].
    match type of I with (if ?c then _ else _) = _ => destruct c end; [|discriminate].
    injection I as <-. cbn [token_blacklist]. apply in_or_app. left. exact IH.
  - specialize (IH Hin). cbn [cleanupExpiredTokens token_blacklist].
    apply filter_In. split; [exact IH|].
    apply negb_true_iff, Z.ltb_ge. lia.
Qed.

Lemma listed_is_refused (pk : JsString) (db : Db) (now : Z) (req : Request)
      (tok : TokenString) (p : Payload) (j : JsString) (row : BlacklistRow) :
  authorization req = Some (Bearer tok) ->
  verify tok pk 0 now = Ok p ->
  sql_param (p_jti p) = Some j ->
  In row (token_blacklist db) -> token_jti row = j ->
  verify_route pk db now req = Refused revoked_response.
Proof.
  intros Ha V J Hin Hj. unfold verify_route. rewrite Ha, V.
  unfold select_blacklist. rewrite J.
  destruct (filter (fun r => jsstring_eqb (token_jti r) j) (token_blacklist db))
    as [|x l] eqn:F; [|reflexivity].
  exfalso.
  assert (In row (filter (fun r => jsstring_eqb (token_jti r) j) (token_blacklist db)))
    as X by (apply filter_In; split; [assumption | now apply jsstring_eqb_eq]).
  rewrite F in X. contradiction.
Qed.

(** C3 (as amended).  Once [/logout] has answered 200 for a token, the
    auth service's [/verify] refuses that token with 401 ['Token has been
    revoked'] at every later time at which it still verifies, whatever
    further logouts and cleanups the table has seen up to then.  The gate
    middleware does not read that table: it asks Redis for
    [blacklist:<jti>], and an error or a missing key there counts as not
    revoked. *)
Theorem revoked_token_is_refused_by_verify (pk : JsString) (db db' db'' : Db)
        (now later : Z) (req : Request) (r : Response) (tok : TokenString)
        (p : Payload) :
  authorization req = Some (Bearer tok) ->
  logout_route pk db now req = (db', r) ->
  status r = 200 ->
  evolves (later * 1000 + 999) db' db'' ->
  verify tok pk 0 later = Ok p ->
  verify_route pk db'' later req = Refused revoked_response
  /\ Gate.checkTokenBlacklist Gate.RedisError (p_jti p) = false
  /\ (forall store,
         Gate.redis_get store (js "blacklist:" ++ to_string (p_jti p)) = None ->
         Gate.checkTokenBlacklist (Gate.RedisReady store) (p_jti p) = false).
Proof.
  intros Ha L S Ev V. split; [|split].
  - destruct (@logout_inserts pk db now req db' r L S) as (tok' & p' & e & j & Ha' & V' & E & J & Hin).
    rewrite Ha in Ha'. injection Ha' as <-.
    assert (p' = p) as -> by (eapply verify_payload_fixed; eassumption).
    pose proof (@verify_not_expired tok pk 0 later p e V E) as Hlt.
    apply (@listed_is_refused pk db'' later req tok p j
             (mkRow j (sql_param (p_sub p)) (e * 1000)) Ha V J); [|reflexivity].
    apply (@row_survives (later * 1000 + 999) db' db'' _ Ev);
      [cbn [expired_at]; lia | exact Hin].
  - reflexivity.
  - intros store H. unfold Gate.checkTokenBlacklist. rewrite H. reflexivity.
Qed.

Lemma revoked_token_is_refused_by_verify_witness :
  snd GateScenario.logout = mkResponse 200 [(js "message", js "Logout successful")] /\
  verify GateScenario.resource_token GateScenario.issuer_key 0 GateScenario.clock_after
  = Ok (mkPayload (JStr (js "jti-resource-0001")) (JStr GateScenario.alice_id)
                  (JStr (js "alice")) JUndefined (JNum 1700000000) (Some 1700086400)) /\
  verify_route GateScenario.issuer_key
               (cleanupExpiredTokens GateScenario.db_after_logout 1700000105000)
               GateScenario.clock_after
               (GateScenario.bearer GateScenario.resource_token)
  = Refused revoked_response.
Proof.
  split; [vm_compute; reflexivity|]. split; [vm_compute; reflexivity|].
  refine (proj1 (@revoked_token_is_refused_by_verify
                   GateScenario.issuer_key GateScenario.db0
                   GateScenario.db_after_logout
                   (cleanupExpiredTokens GateScenario.db_after_logout 1700000105000)
                   GateScenario.clock GateScenario.clock_after
                   (GateScenario.bearer GateScenario.resource_token)
                   (snd GateScenario.logout) GateScenario.resource_token
                   _ _ _ _ _ _)).
  - reflexivity.
  - vm_compute. reflexivity.
  - vm_compute. reflexivity.
  - apply evolves_cleanup; [apply evolves_refl | vm_compute; discriminate].
  - vm_compute. reflexivity.
Defined.

(** C3 as stated fails: after Alice's logout the table holds her token's
    [jti] and [/verify] refuses the token, yet the gate, finding no
    [blacklist:] key in Redis or no Redis at all, lets the token through. *)
Lemma revoked_token_passes_the_gate :
  snd GateScenario.logout = mkResponse 200 [(js "message", js "Logout successful")] /\
  List.map token_jti (token_blacklist GateScenario.db_after_logout)
  = [js "jti-resource-0001"] /\
  verify_route GateScenario.issuer_key GateScenario.db_after_logout
               GateScenario.clock_after (GateScenario.bearer GateScenario.resource_token)
  = Refused revoked_response /\
  Gate.verifyDualAuth (Some GateScenario.issuer_key) GateScenario.redis_empty
                      GateScenario.clock_after GateScenario.request
  = Gate.Next GateScenario.alice_auth /\
  Gate.verifyDualAuth (Some GateScenario.issuer_key) Gate.RedisError
                      GateScenario.clock_after GateScenario.request
  = Gate.Next GateScenario.alice_auth.
Proof. vm_compute. repeat split; reflexivity. Qed.

End RevocationFacts.
(** ** The key file across saves, restarts and rotations *)

Module KeyFileFacts.
Import MasterKey.
Local Open Scope Z_scope.

(** What a save that returns has done. *)
Lemma save_returned (st : State) (w w' : World) (i : Inputs) (k : KeyObject) :
  saveMasterKey st w i k = (w', Returned) ->
  w' = mkWorld (Some (Sealed (storageKey w) (mkKeyData k (now i))))
               (rotation_log w ++
                  [mkLogEntry (now i) (js "KEY_ROTATION") (keyVersion st) (ko_version k)
                              (ko_keyId k) (ko_algorithm k)])
               (env_STORAGE_PASSWORD w) (keys_dir_writable w).
Proof.
  unfold saveMasterKey. destruct (keys_dir_writable w); [|discriminate].
  intros H. injection H as <-. reflexivity.
Qed.

Lemma load_after_save (st : State) (w w' : World) (i : Inputs) (k : KeyObject) :
  saveMasterKey st w i k = (w', Returned) ->
  loadMasterKey w' = Some (mkKeyData k (now i)).
Proof.
  intros H. apply save_returned in H. subst w'.
  unfold loadMasterKey. cbn [master_key_file].
  change (storageKey (mkWorld _ _ (env_STORAGE_PASSWORD w) _)) with (storageKey w).
  rewrite jsstring_eqb_refl. reflexivity.
Qed.

(** What a key generation followed by a save leaves behind. *)
Lemma generated_and_saved (st0 st : State) (w w1 : World) (i i2 : Inputs) :
  saveMasterKey (install (generateMasterKey st i)) w i (generateMasterKey st i)
  = (w1, Returned) ->
  now i2 - now i <= maxAge ->
  initMasterKey st0 w1 i2 = (install (generateMasterKey st i), w1, Returned).
Proof.
  intros S A. unfold initMasterKey.
  rewrite (@load_after_save _ _ _ _ _ S). cbn [kd_object].
  change (ko_createdAt (generateMasterKey st i)) with (now i).
  assert ((maxAge <? now i2 - now i) = false) as -> by (apply Z.ltb_ge; exact A).
  reflexivity.
Qed.

(** X2.  A restart keeps the key.  Once [initMasterKey] has returned, a
    later [initMasterKey] of a fresh process on the same keys directory,
    at most ninety days after the key's creation, installs the very same
    key, version and creation time, writes nothing and logs nothing. *)
Theorem restart_keeps_the_key (st st0 st1 : State) (w w1 : World) (i i2 : Inputs)
        (created : Z) :
  initMasterKey st w i = (st1, w1, Returned) ->
  keyCreatedAt st1 = Some created ->
  now i2 - created <= maxAge ->
  initMasterKey st0 w1 i2 = (st1, w1, Returned).
Proof.
  unfold initMasterKey at 1.
  destruct (loadMasterKey w) as [d|] eqn:L.
  - destruct (maxAge <? now i - ko_createdAt (kd_object d)) eqn:A.
    + unfold rotateMasterKey.
      destruct (saveMasterKey (install (generateMasterKey (install (kd_object d)) i)) w i
                              (generateMasterKey (install (kd_object d)) i))
        as [w' o] eqn:S.
      intros H C Hage. injection H as <- <- ->.
      cbn [install keyCreatedAt generateMasterKey ko_createdAt] in C.
      injection C as <-.
      apply (@generated_and_saved st0 (install (kd_object d)) w w' i i2 S Hage).
    + intros H C Hage. injection H as <- <-.
      cbn [install keyCreatedAt] in C. injection C as <-.
      unfold initMasterKey. rewrite L.
      assert ((maxAge <? now i2 - ko_createdAt (kd_object d)) = false) as ->
          by (apply Z.ltb_ge; exact Hage).
      reflexivity.
  - destruct (saveMasterKey (install (generateMasterKey st i)) w i (generateMasterKey st i))
      as [w' o] eqn:S.
    intros H C Hage. injection H as <- <- ->.
    cbn [install keyCreatedAt generateMasterKey ko_createdAt] in C.
    injection C as <-.
    apply (@generated_and_saved st0 st w w' i i2 S Hage).
Qed.

Lemma restart_keeps_the_key_witness :
  initMasterKey initial Scenario.booted_world (mkInputs 1700000900000 Scenario.random2)
  = (Scenario.booted, Scenario.booted_world, Returned).
Proof.
  apply (@restart_keeps_the_key initial initial Scenario.booted
           Scenario.empty_world Scenario.booted_world
           (mkInputs 1700000000000 Scenario.random1)
           (mkInputs 1700000900000 Scenario.random2) 1700000000000).
  - vm_compute. reflexivity.
  - reflexivity.
  - vm_compute. discriminate.
Defined.

(** X3.  What start-up does with a key file it can read.  A key of at
    most ninety days is installed as it is, with the version recorded in
    the file, and nothing is written.  An older key is rotated: the new
    key gets the file's version plus one, whatever version the process
    started with, and it replaces the old one in the file. *)
Theorem startup_rotates_only_an_old_key (st : State) (w : World) (i : Inputs)
        (d : KeyData) :
  loadMasterKey w = Some d ->
  (now i - ko_createdAt (kd_object d) <= maxAge ->
   initMasterKey st w i = (install (kd_object d), w, Returned))
  /\ (maxAge < now i - ko_createdAt (kd_object d) ->
      keys_dir_writable w = true ->
      exists w',
        initMasterKey st w i
        = (install (generateMasterKey (install (kd_object d)) i), w', Returned)
        /\ keyVersion (fst (fst (initMasterKey st w i))) = ko_version (kd_object d) + 1
        /\ loadMasterKey w'
           = Some (mkKeyData (generateMasterKey (install (kd_object d)) i) (now i))).
Proof.
  intros L. split.
  - intros A. unfold initMasterKey. rewrite L.
    assert ((maxAge <? now i - ko_createdAt (kd_object d)) = false) as ->
        by (apply Z.ltb_ge; exact A).
    reflexivity.
  - intros A Hw. unfold initMasterKey. rewrite L.
    assert ((maxAge <? now i - ko_createdAt (kd_object d)) = true) as ->
        by (apply Z.ltb_lt; exact A).
    unfold rotateMasterKey.
    destruct (saveMasterKey (install (generateMasterKey (install (kd_object d)) i)) w i
                            (generateMasterKey (install (kd_object d)) i))
      as [w' o] eqn:S.
    assert (o = Returned) as ->.
    { unfold saveMasterKey in S. rewrite Hw in S. injection S as _ <-. reflexivity. }
    exists w'. split; [reflexivity|]. split; [reflexivity|].
    apply (@load_after_save _ _ _ _ _ S).
Qed.

Lemma startup_rotates_only_an_old_key_witness :
  loadMasterKey Scenario.booted_world
  = Some (mkKeyData (generateMasterKey initial (mkInputs 1700000000000 Scenario.random1))
                    1700000000000)
  /\ initMasterKey initial Scenario.booted_world
                   (mkInputs (1700000000000 + maxAge) Scenario.random2)
     = (Scenario.booted, Scenario.booted_world, Returned)
  /\ keyVersion (fst (fst (initMasterKey initial Scenario.booted_world
                             (mkInputs (1700000000001 + maxAge) Scenario.random2))))
     = 3.
Proof.
  assert (loadMasterKey Scenario.booted_world
          = Some (mkKeyData (generateMasterKey initial
                               (mkInputs 1700000000000 Scenario.random1))
                            1700000000000)) as L by (vm_compute; reflexivity).
  split; [exact L|]. split.
  - apply (proj1 (@startup_rotates_only_an_old_key initial Scenario.booted_world
                    (mkInputs (1700000000000 + maxAge) Scenario.random2) _ L)).
    vm_compute. discriminate.
  - destruct (proj2 (@startup_rotates_only_an_old_key initial Scenario.booted_world
                       (mkInputs (1700000000001 + maxAge) Scenario.random2) _ L))
      as [w' [_ [V _]]].
    + vm_compute. reflexivity.
    + reflexivity.
    + exact V.
Defined.

(** X4.  The rotation log never shows the version that was replaced.
    [logKeyRotation] reads [oldVersion] from [keyVersion], and both callers
    of [saveMasterKey] have assigned the new version by then: every line
    that [rotateMasterKey] or [initMasterKey] writes has [oldVersion] equal
    to [newVersion]. *)
Theorem rotation_log_old_version_is_the_new (st : State) (w : World) (i : Inputs) :
  (let w' := snd (fst (rotateMasterKey st w i)) in
   rotation_log w' = rotation_log w
   \/ exists e, rotation_log w' = rotation_log w ++ [e]
                /\ le_oldVersion e = keyVersion st + 1
                /\ le_newVersion e = keyVersion st + 1)
  /\ (let w' := snd (fst (initMasterKey st w i)) in
      rotation_log w' = rotation_log w
      \/ exists e, rotation_log w' = rotation_log w ++ [e]
                   /\ le_oldVersion e = le_newVersion e).
Proof.
  assert (forall s : State,
             let w' := snd (fst (rotateMasterKey s w i)) in
             rotation_log w' = rotation_log w
             \/ exists e, rotation_log w' = rotation_log w ++ [e]
                          /\ le_oldVersion e = keyVersion s + 1
                          /\ le_newVersion e = keyVersion s + 1) as R.
  { intros s. unfold rotateMasterKey, saveMasterKey.
    destruct (keys_dir_writable w); cbn [fst snd]; [right | left; reflexivity].
    eexists. split; [reflexivity|]. split; reflexivity. }
  split; [apply R|].
  unfold initMasterKey. destruct (loadMasterKey w) as [d|].
  - destruct (maxAge <? now i - ko_createdAt (kd_object d)).
    + destruct (R (install (kd_object d))) as [E|[e [E [O N]]]]; [left; exact E|].
      right. exists e. split; [exact E | congruence].
    + left. reflexivity.
  - destruct (R st) as [E|[e [E [O N]]]].
    + left. unfold rotateMasterKey in E.
      destruct (saveMasterKey (install (generateMasterKey st i)) w i
                              (generateMasterKey st i)). exact E.
    + right. exists e. unfold rotateMasterKey in E.
      destruct (saveMasterKey (install (generateMasterKey st i)) w i
                              (generateMasterKey st i)).
      split; [exact E | congruence].
Qed.

(** X5.  A rotation whose save fails has already replaced the key in
    memory: the call throws, the process goes on with the new key, and the
    key file still holds what it held.  The next start-up reads that file,
    so it brings the previous key back. *)
Theorem failed_save_leaves_memory_ahead_of_the_file (st st0 : State) (w : World)
        (i i2 : Inputs) (d : KeyData) :
  keys_dir_writable w = false ->
  loadMasterKey w = Some d ->
  now i2 - ko_createdAt (kd_object d) <= maxAge ->
  (exists m, rotateMasterKey st w i = (install (generateMasterKey st i), w, Threw m))
  /\ currentMasterKey (fst (fst (rotateMasterKey st w i)))
     = Some (Base64.decode (Base64.encode (random i)))
  /\ initMasterKey st0 w i2 = (install (kd_object d), w, Returned).
Proof.
  intros Hw L A. split; [|split].
  - unfold rotateMasterKey, saveMasterKey. rewrite Hw. eexists. reflexivity.
  - rewrite RotationFacts.rotate_state. reflexivity.
  - unfold initMasterKey. rewrite L.
    assert ((maxAge <? now i2 - ko_createdAt (kd_object d)) = false) as ->
        by (apply Z.ltb_ge; exact A).
    reflexivity.
Qed.

Lemma failed_save_leaves_memory_ahead_of_the_file_witness :
  currentMasterKey
    (fst (fst (rotateMasterKey Scenario.booted Runs.read_only_world
                               (mkInputs 1700000500000 Scenario.random2))))
  = Some (Base64.decode (Base64.encode (random (mkInputs 1700000500000 Scenario.random2))))
  /\ initMasterKey initial Runs.read_only_world
                   (mkInputs 1700000900000 Scenario.random2)
     = (Scenario.booted, Runs.read_only_world, Returned).
Proof.
  refine (proj2 (@failed_save_leaves_memory_ahead_of_the_file
                   Scenario.booted initial Runs.read_only_world
                   (mkInputs 1700000500000 Scenario.random2)
                   (mkInputs 1700000900000 Scenario.random2)
                   (mkKeyData (generateMasterKey initial
                                 (mkInputs 1700000000000 Scenario.random1))
                              1700000000000) _ _ _)).
  - reflexivity.
  - vm_compute. reflexivity.
  - vm_compute. discriminate.
Defined.

End KeyFileFacts.

(** ** What an envelope shows and what [unwrapKey] settles for *)

Module EnvelopeFacts.
Import MasterKey.
Local Open Scope Z_scope.

(** X6.  After a rotation the key in memory is the 32 random bytes that
    were drawn, and [getKeyInfo] reports the version and the key id that
    went into the key file and the rotation log. *)
Theorem key_info_matches_the_key_file (st : State) (w : World) (i : Inputs) :
  all_bytes (random i) ->
  let st' := fst (fst (rotateMasterKey st w i)) in
  currentMasterKey st' = Some (random i)
  /\ ki_keyId (getKeyInfo st') = Some (ko_keyId (generateMasterKey st i))
  /\ ki_version (getKeyInfo st') = ko_version (generateMasterKey st i)
  /\ ki_createdAt (getKeyInfo st') = Some (ko_createdAt (generateMasterKey st i)).
Proof.
  intros Hb st'. subst st'. rewrite RotationFacts.rotate_state.
  unfold getKeyInfo, install.
  cbn [currentMasterKey keyVersion keyCreatedAt ki_keyId ki_version ki_createdAt].
  cbn [generateMasterKey ko_key ko_version ko_createdAt ko_keyId].
  rewrite Base64Facts.base64_decode_encode by assumption.
  repeat split.
Qed.

Lemma random1_all_bytes : all_bytes Scenario.random1.
Proof. unfold all_bytes, is_byte. repeat (constructor; [reflexivity|]). constructor. Qed.

Lemma key_info_matches_the_key_file_witness :
  currentMasterKey (fst (fst (rotateMasterKey initial Scenario.empty_world
                                (mkInputs 1700000000000 Scenario.random1))))
  = Some (random (mkInputs 1700000000000 Scenario.random1))
  /\ ki_keyId (getKeyInfo (fst (fst (rotateMasterKey initial Scenario.empty_world
                                       (mkInputs 1700000000000 Scenario.random1)))))
     = Some (ko_keyId (generateMasterKey initial
                         (mkInputs 1700000000000 Scenario.random1)))
  /\ ki_version (getKeyInfo (fst (fst (rotateMasterKey initial Scenario.empty_world
                                         (mkInputs 1700000000000 Scenario.random1)))))
     = ko_version (generateMasterKey initial (mkInputs 1700000000000 Scenario.random1))
  /\ ki_createdAt (getKeyInfo (fst (fst (rotateMasterKey initial Scenario.empty_world
                                           (mkInputs 1700000000000 Scenario.random1)))))
     = Some (ko_createdAt (generateMasterKey initial
                             (mkInputs 1700000000000 Scenario.random1))).
Proof.
  exact (@key_info_matches_the_key_file initial Scenario.empty_world
           (mkInputs 1700000000000 Scenario.random1) random1_all_bytes).
Defined.

Lemma firstn_all_bytes (n : nat) (bs : Bytes) :
  all_bytes bs -> all_bytes (firstn n bs).
Proof.
  unfold all_bytes. revert bs. induction n as [|n IH]; intros [|b bs] H;
    cbn [firstn]; try constructor.
  - now inversion H.
  - apply IH. now inversion H.
Qed.

Lemma cipher_text_bytes (mk : Bytes) (dek : JsString) :
  Utf8.well_formed dek = true ->
  Base64.decode (fst (NodeCrypto.gcm_cipher mk dek))
  = GCM.gctr (GCM.cipher (fst (NodeCrypto.evp_bytes_to_key mk)))
             (GCM.inc32 (GCM.j0 (snd (NodeCrypto.evp_bytes_to_key mk))))
             (Utf8.encode dek).
Proof.
  intros Hwf. rewrite NodeCryptoFacts.gcm_cipher_eq. cbn [fst].
  unfold GCM.encrypt. cbn [fst].
  apply Base64Facts.base64_decode_encode.
  apply GCMFacts.gctr_all_bytes, utf8_encode_all_bytes, Hwf.
Qed.

(** X7.  The envelope [wrapKey] returns carries the current key version,
    the literal algorithm name, a 16-byte tag, and a ciphertext of exactly
    as many bytes as the UTF-8 text of the key that was wrapped. *)
Theorem envelope_shape (st : State) (mk : Bytes) (dek : JsString) :
  currentMasterKey st = Some mk ->
  Utf8.well_formed dek = true ->
  exists env,
    wrapKey st dek = Ok env
    /\ version env = keyVersion st
    /\ algorithm env = js "AES-256-GCM"
    /\ length (Base64.decode (authTag env)) = 16%nat
    /\ length (Base64.decode (wrappedKey env)) = length (Utf8.encode dek).
Proof.
  intros E Hwf. exists (envelope_of mk (keyVersion st) dek).
  split; [apply (@MasterKeyFacts.wrapKey_envelope st mk dek E)|].
  unfold envelope_of. cbn [version algorithm authTag wrappedKey].
  split; [reflexivity|]. split; [reflexivity|]. split.
  - rewrite Base64Facts.base64_decode_encode
      by apply NodeCryptoFacts.cipher_tag_all_bytes.
    apply NodeCryptoFacts.cipher_tag_length.
  - rewrite cipher_text_bytes by assumption. apply GCMFacts.gctr_length.
Qed.

Lemma envelope_shape_witness :
  exists env,
    wrapKey Scenario.booted Scenario.dek = Ok env
    /\ version env = keyVersion Scenario.booted
    /\ algorithm env = js "AES-256-GCM"
    /\ length (Base64.decode (authTag env)) = 16%nat
    /\ length (Base64.decode (wrappedKey env)) = length (Utf8.encode Scenario.dek).
Proof.
  exact (@envelope_shape Scenario.booted Scenario.random1 Scenario.dek
           TamperFacts.booted_key RotationFacts.dek_well_formed).
Defined.

(** X8.  [unwrapKey] sets the tag without an expected length, so it
    settles for a prefix of the tag: an envelope of [wrapKey] whose tag was
    cut to its first 4, 8 or 12 to 15 bytes still unwraps to the key. *)
Theorem truncated_tag_still_unwraps (st : State) (mk : Bytes) (dek : JsString)
        (n : nat) (v : Z) (a : JsString) :
  currentMasterKey st = Some mk ->
  Utf8.well_formed dek = true ->
  NodeCrypto.valid_gcm_tag_length n = true ->
  unwrapKey st (mkEnvelope (fst (NodeCrypto.gcm_cipher mk dek))
                           (Base64.encode (firstn n (snd (NodeCrypto.gcm_cipher mk dek))))
                           v a)
  = Ok dek.
Proof.
  intros E Hwf Hn.
  pose proof (NodeCryptoFacts.cipher_tag_length mk dek) as L16.
  pose proof (NodeCryptoFacts.cipher_tag_all_bytes mk dek) as B16.
  assert (4 <= n <= 16)%nat as Rn.
  { unfold NodeCrypto.valid_gcm_tag_length in Hn.
    destruct (Nat.eqb_spec n 4) as [->|_]; [lia|].
    destruct (Nat.eqb_spec n 8) as [->|_]; [lia|].
    cbn [orb] in Hn. apply andb_true_iff in Hn. destruct Hn as [H1 H2].
    apply Nat.leb_le in H1. apply Nat.leb_le in H2. lia. }
  set (tag := snd (NodeCrypto.gcm_cipher mk dek)) in *.
  assert (length (firstn n tag) = n) as Ln by (rewrite length_firstn; lia).
  assert (all_bytes (firstn n tag)) as Bn by (apply firstn_all_bytes; exact B16).
  unfold unwrapKey, getCurrentMasterKey. rewrite E. cbn [authTag wrappedKey].
  destruct (firstn n tag) as [|b t] eqn:F; [cbn in Ln; lia|].
  destruct (Base64.encode (b :: t)) eqn:Enc;
    [now apply MasterKeyFacts.encode_nonempty in Enc|].
  rewrite <- Enc, Base64Facts.base64_decode_encode by assumption.
  unfold NodeCrypto.gcm_decipher.
  pose proof (@cipher_text_bytes mk dek Hwf) as C.
  assert (tag = GCM.tag_of (fst (NodeCrypto.evp_bytes_to_key mk))
                           (snd (NodeCrypto.evp_bytes_to_key mk))
                           (Base64.decode (fst (NodeCrypto.gcm_cipher mk dek)))) as T.
  { rewrite C. subst tag. rewrite NodeCryptoFacts.gcm_cipher_eq. reflexivity. }
  destruct (NodeCrypto.evp_bytes_to_key mk) as [key iv]. cbn [fst snd] in *.
  rewrite Ln, Hn.
  destruct (GCMFacts.decrypt_spec key iv
              (Base64.decode (fst (NodeCrypto.gcm_cipher mk dek))) (b :: t))
    as [[_ D]|[D _]].
  - rewrite D, C, GCMFacts.gctr_involutive,
      Utf8Facts.utf8_decode_encode by assumption.
    reflexivity.
  - exfalso. apply D. rewrite Ln, <- T. exact F.
Qed.

Lemma truncated_tag_still_unwraps_witness :
  unwrapKey Scenario.booted
            (mkEnvelope (fst (NodeCrypto.gcm_cipher Scenario.random1 Scenario.dek))
                        (Base64.encode
                           (firstn 4 (snd (NodeCrypto.gcm_cipher Scenario.random1
                                                                 Scenario.dek))))
                        2 (js "AES-256-GCM"))
  = Ok Scenario.dek.
Proof.
  exact (@truncated_tag_still_unwraps Scenario.booted Scenario.random1 Scenario.dek
           4 2 (js "AES-256-GCM") TamperFacts.booted_key
           RotationFacts.dek_well_formed eq_refl).
Defined.

End EnvelopeFacts.

(** ** Logging out, again *)

Module LogoutFacts.
Import Js Jwt AuthService.
Local Open Scope Z_scope.

(** A row with the [jti] is in the way of a second insert. *)
Lemma insert_refused_when_listed (db : Db) (jti sub : JsVal) (j : JsString)
      (expired : Z) (r : BlacklistRow) :
  sql_param jti = Some j -> In r (token_blacklist db) -> token_jti r = j ->
  insert_blacklist db jti sub expired = None.
Proof.
  intros J Hin Hj. unfold insert_blacklist. rewrite J.
  assert (existsb (fun r0 => jsstring_eqb (token_jti r0) j) (token_blacklist db) = true)
    as ->.
  { apply existsb_exists. exists r. split; [exact Hin | now apply jsstring_eqb_eq]. }
  rewrite andb_false_r. reflexivity.
Qed.

(** X9.  A token can be logged out once.  After [/logout] has answered
    200 for a token, every further [/logout] with that token, at any time
    and whatever further logouts and cleanups the table has seen up to
    then, answers 500 ['Logout failed'] and leaves the database as it is:
    either the token no longer verifies, or it has not expired, its row has
    outlived every cleanup, and the insert runs into it. *)
Theorem second_logout_fails (pk : JsString) (db db1 db2 : Db) (now later : Z)
        (req : Request) (r1 : Response) :
  logout_route pk db now req = (db1, r1) ->
  status r1 = 200 ->
  evolves (later * 1000 + 999) db1 db2 ->
  logout_route pk db2 later req
  = (db2, mkResponse 500 [(js "error", js "Logout failed")]).
Proof.
  intros L S Ev.
  destruct (@RevocationFacts.logout_inserts pk db now req db1 r1 L S)
    as (tok & p & e & j & Ha & V & E & J & Hin).
  unfold logout_route. rewrite Ha.
  destruct (verify tok pk 0 later) as [p'|err] eqn:V'; [|reflexivity].
  assert (p' = p) as -> by (eapply RevocationFacts.verify_payload_fixed; eassumption).
  pose proof (@RevocationFacts.verify_not_expired tok pk 0 later p e V' E) as Hlt.
  rewrite E.
  rewrite (@insert_refused_when_listed db2 (p_jti p) (p_sub p) j (e * 1000)
             (mkRow j (sql_param (p_sub p)) (e * 1000)) J); [reflexivity| |reflexivity].
  apply (@RevocationFacts.row_survives (later * 1000 + 999) db1 db2 _ Ev);
    [cbn [expired_at]; lia | exact Hin].
Qed.

Lemma second_logout_fails_witness :
  logout_route GateScenario.issuer_key
               (cleanupExpiredTokens GateScenario.db_after_logout 1700000105000)
               GateScenario.clock_after (GateScenario.bearer GateScenario.resource_token)
  = (cleanupExpiredTokens GateScenario.db_after_logout 1700000105000,
     mkResponse 500 [(js "error", js "Logout failed")]).
Proof.
  apply (@second_logout_fails GateScenario.issuer_key GateScenario.db0
           GateScenario.db_after_logout
           (cleanupExpiredTokens GateScenario.db_after_logout 1700000105000)
           GateScenario.clock GateScenario.clock_after
           (GateScenario.bearer GateScenario.resource_token)
           (snd GateScenario.logout)).
  - vm_compute. reflexivity.
  - vm_compute. reflexivity.
  - apply evolves_cleanup; [apply evolves_refl | vm_compute; discriminate].
Defined.

(** X10.  A token that carries no [jti], or no [exp], cannot be revoked:
    although it verifies, [/logout] answers 500 and the blacklist stays as
    it was, so [/verify] goes on answering what it answered before. *)
Theorem token_without_jti_or_exp_cannot_be_revoked (pk : JsString) (db : Db) (now : Z)
        (req : Request) (tok : TokenString) (p : Payload) :
  authorization req = Some (Bearer tok) ->
  verify tok pk 0 now = Ok p ->
  p_jti p = JUndefined \/ p_jti p = JNull \/ p_exp p = None ->
  logout_route pk db now req = (db, mkResponse 500 [(js "error", js "Logout failed")])
  /\ verify_route pk (fst (logout_route pk db now req)) now req
     = verify_route pk db now req.
Proof.
  intros Ha V H.
  assert (logout_route pk db now req
          = (db, mkResponse 500 [(js "error", js "Logout failed")])) as L.
  { unfold logout_route. rewrite Ha, V.
    destruct (p_exp p) as [e|] eqn:E; [|reflexivity].
    unfold insert_blacklist.
    destruct H as [H|[H|H]]; [rewrite H | rewrite H | discriminate]; reflexivity. }
  split; [exact L|]. rewrite L. reflexivity.
Qed.

Lemma token_without_jti_or_exp_cannot_be_revoked_witness :
  verify Runs.token_without_jti GateScenario.issuer_key 0 GateScenario.clock
  = Ok (mkPayload JUndefined (JStr GateScenario.alice_id) (JStr (js "alice")) JUndefined
                  (JNum 1700000000) (Some 1700086400))
  /\ logout_route GateScenario.issuer_key GateScenario.db0 GateScenario.clock
                  (GateScenario.bearer Runs.token_without_jti)
     = (GateScenario.db0, mkResponse 500 [(js "error", js "Logout failed")])
  /\ verify_route GateScenario.issuer_key
                  (fst (logout_route GateScenario.issuer_key GateScenario.db0
                                     GateScenario.clock
                                     (GateScenario.bearer Runs.token_without_jti)))
                  GateScenario.clock (GateScenario.bearer Runs.token_without_jti)
     = verify_route GateScenario.issuer_key GateScenario.db0 GateScenario.clock
                    (GateScenario.bearer Runs.token_without_jti).
Proof.
  split; [vm_compute; reflexivity|].
  apply (@token_without_jti_or_exp_cannot_be_revoked GateScenario.issuer_key
           GateScenario.db0 GateScenario.clock
           (GateScenario.bearer Runs.token_without_jti) Runs.token_without_jti
           (mkPayload JUndefined (JStr GateScenario.alice_id) (JStr (js "alice"))
                      JUndefined (JNum 1700000000) (Some 1700086400))).
  - reflexivity.
  - vm_compute. reflexivity.
  - left. reflexivity.
Defined.

End LogoutFacts.

(** ** The single-token gates *)

Module SingleGateFacts.
Import Js Jwt Express.
Local Open Scope Z_scope.

(** What the verifier returns for a well-signed token with no [nbf]. *)
Lemma verify_signed (t : Jws) (key : JsString) (tol now : Z) :
  alg t = js "RS256" -> signed_for t = key -> nbf (claims t) = JUndefined ->
  verify (Compact t) key tol now =
  match exp (claims t) with
  | JUndefined =>
      Ok (mkPayload (jti (claims t)) (sub (claims t)) (username (claims t))
                    (email (claims t)) (iat (claims t)) None)
  | JNum e =>
      if e + tol <=? now
      then Throw (mkError TokenExpiredError (js "jwt expired"))
      else Ok (mkPayload (jti (claims t)) (sub (claims t)) (username (claims t))
                         (email (claims t)) (iat (claims t)) (Some e))
  | _ => Throw (mkError JsonWebTokenError (js "invalid exp value"))
  end.
Proof.
  intros A S Nb. unfold verify. rewrite A, S, Nb, !jsstring_eqb_refl. reflexivity.
Qed.

(** A token the verifier accepts with no tolerance it accepts with the 30
    seconds of the gates, with the same payload. *)
Lemma verify_with_tolerance (tok : TokenString) (key : JsString) (now : Z) (p : Payload) :
  verify tok key 0 now = Ok p -> verify tok key 30 now = Ok p.
Proof.
  unfold verify. destruct tok as [raw|t]; [discriminate|].
  destruct (negb (jsstring_eqb (alg t) (js "RS256"))); [discriminate|].
  destruct (negb (jsstring_eqb (signed_for t) key)); [discriminate|].
  assert (forall e, (e + 0 <=? now) = false -> (e + 30 <=? now) = false) as Ex.
  { intros e H. apply Z.leb_gt in H. apply Z.leb_gt. lia. }
  destruct (nbf (claims t)) as [| |b|n|s]; try discriminate.
  - destruct (exp (claims t)) as [| |b|e|s]; try discriminate; [auto|].
    destruct (e + 0 <=? now) eqn:E; [discriminate|]. now rewrite (Ex e E).
  - destruct (now + 0 <? n) eqn:Nb; [discriminate|].
    assert ((now + 30 <? n) = false) as ->
        by (apply Z.ltb_ge; apply Z.ltb_ge in Nb; lia).
    destruct (exp (claims t)) as [| |b|e|s]; try discriminate; [auto|].
    destruct (e + 0 <=? now) eqn:E; [discriminate|]. now rewrite (Ex e E).
Qed.

(** X11.  [verifyAuth] answers 401 or 503 and nothing else: every failure
    has a response of its own inside the [try], so the 500 of the outer
    [catch] is never sent.  The 503 is sent exactly when a bearer token
    arrives while no signing key is cached. *)
Theorem verifyAuth_never_answers_500 (pk : option JsString) (redis : Gate.Redis)
        (now : Z) (req : MessageGate.Request) (r : Response) :
  MessageGate.verifyAuth pk redis now req = Reply r ->
  (status r = 401 \/ status r = 503)
  /\ (status r = 503 <->
      KeyDirectory.truthy pk = None
      /\ exists tok, MessageGate.authorization req = Some (Bearer tok)).
Proof.
  unfold MessageGate.verifyAuth.
  destruct (MessageGate.authorization req) as [[tok|raw]|].
  - destruct (KeyDirectory.truthy pk) as [key|].
    + destruct (Gate.verifyJWT tok key now) as [d|m].
      * destruct (Gate.checkTokenBlacklist redis (p_jti d)).
        -- intros H. injection H as <-. split; [left; reflexivity|].
           split; [discriminate | intros [H _]; discriminate].
        -- destruct (Gate.exp_before (p_exp d) now); [|discriminate].
           intros H. injection H as <-. split; [left; reflexivity|].
           split; [discriminate | intros [H _]; discriminate].
      * intros H. injection H as <-. split; [left; reflexivity|].
        split; [discriminate | intros [H _]; discriminate].
    + intros H. injection H as <-. split; [right; reflexivity|].
      split; [intros _; split; [reflexivity | now exists tok] | reflexivity].
  - intros H. injection H as <-. split; [left; reflexivity|].
    split; [discriminate | intros [_ [tok H]]; discriminate].
  - intros H. injection H as <-. split; [left; reflexivity|].
    split; [discriminate | intros [_ [tok H]]; discriminate].
Qed.

Lemma verifyAuth_never_answers_500_witness :
  (status Gate.service_unavailable = 401 \/ status Gate.service_unavailable = 503)
  /\ (status Gate.service_unavailable = 503 <->
      KeyDirectory.truthy None = None
      /\ exists tok,
          MessageGate.authorization
            (MessageGate.mkRequest (Some (Bearer GateScenario.resource_token)))
          = Some (Bearer tok)).
Proof.
  apply (@verifyAuth_never_answers_500 None GateScenario.redis_empty GateScenario.clock
           (MessageGate.mkRequest (Some (Bearer GateScenario.resource_token)))
           Gate.service_unavailable).
  reflexivity.
Defined.

(** X12.  The 30 seconds of clock tolerance and the gates' own expiry
    check.  For a well-signed token that expired less than 30 seconds ago
    and is not blacklisted, the verifier raises nothing; [verifyAuth] then
    answers 401 ['Token expired'] through its own comparison of [exp] with
    the clock, and [verifyDualAuth] never calls [next()], whereas
    [verifyGoogleAuth], which makes no such comparison, lets the token
    through. *)
Theorem tolerance_window (key : JsString) (redis : Gate.Redis) (now e : Z) (t : Jws)
        (third : option TokenString) :
  key <> [] ->
  alg t = js "RS256" -> signed_for t = key ->
  nbf (claims t) = JUndefined -> exp (claims t) = JNum e ->
  e < now < e + 30 ->
  Gate.checkTokenBlacklist redis (jti (claims t)) = false ->
  let p := mkPayload (jti (claims t)) (sub (claims t)) (username (claims t))
                     (email (claims t)) (iat (claims t)) (Some e) in
  Gate.verifyJWT (Compact t) key now = Ok p
  /\ MessageGate.verifyAuth (Some key) redis now
                            (MessageGate.mkRequest (Some (Bearer (Compact t))))
     = Reply Gate.token_expired
  /\ KaclsGate.verifyGoogleAuth (Some key) redis now
                                (Gate.mkRequest (Some (Bearer (Compact t))) third)
     = Proceed (auth_of p)
  /\ forall a, Gate.verifyDualAuth (Some key) redis now
                                   (Gate.mkRequest (Some (Bearer (Compact t))) third)
               <> Gate.Next a.
Proof.
  intros Hk A S Nb Ex R B p.
  assert (Gate.verifyJWT (Compact t) key now = Ok p) as V.
  { unfold Gate.verifyJWT. rewrite (@verify_signed t key 30 now A S Nb), Ex.
    assert ((e + 30 <=? now) = false) as -> by (apply Z.leb_gt; lia).
    reflexivity. }
  assert (KeyDirectory.truthy (Some key) = Some key) as T
      by (destruct key; [contradiction | reflexivity]).
  assert (Gate.exp_before (p_exp p) now = true) as X
      by (apply Z.ltb_lt; cbn [p_exp p]; lia).
  split; [exact V|]. split; [|split].
  - unfold MessageGate.verifyAuth. cbn [MessageGate.authorization].
    rewrite T, V. change (p_jti p) with (jti (claims t)). rewrite B, X. reflexivity.
  - unfold KaclsGate.verifyGoogleAuth. cbn [Gate.authorization].
    rewrite T, V. change (p_jti p) with (jti (claims t)). rewrite B. reflexivity.
  - intros a N. apply GateFacts.next_inversion in N.
    destruct N as (tok1 & tok2 & key' & g & t' & Ha & _ & Hk' & V1 & _ & _ & _ & _
                   & E1 & _).
    cbn [Gate.authorization] in Ha. injection Ha as <-.
    rewrite T in Hk'. injection Hk' as <-.
    rewrite V in V1. injection V1 as <-. congruence.
Qed.

Lemma tolerance_window_witness :
  Gate.verifyJWT GateScenario.resource_token GateScenario.issuer_key 1700086410
  = Ok (mkPayload (JStr (js "jti-resource-0001")) (JStr GateScenario.alice_id)
                  (JStr (js "alice")) JUndefined (JNum 1700000000) (Some 1700086400))
  /\ MessageGate.verifyAuth (Some GateScenario.issuer_key) GateScenario.redis_empty
                            1700086410
                            (MessageGate.mkRequest
                               (Some (Bearer GateScenario.resource_token)))
     = Reply Gate.token_expired
  /\ KaclsGate.verifyGoogleAuth (Some GateScenario.issuer_key) GateScenario.redis_empty
                                1700086410
                                (Gate.mkRequest
                                   (Some (Bearer GateScenario.resource_token)) None)
     = Proceed (auth_of (mkPayload (JStr (js "jti-resource-0001"))
                                   (JStr GateScenario.alice_id) (JStr (js "alice"))
                                   JUndefined (JNum 1700000000) (Some 1700086400))).
Proof.
  destruct (@tolerance_window GateScenario.issuer_key GateScenario.redis_empty
              1700086410 1700086400
              (mkJws (js "RS256")
                     (GateScenario.claims_of (js "jti-resource-0001")
                                             GateScenario.alice_id (js "alice"))
                     GateScenario.issuer_key)
              None)
    as (V & M & K & _).
  - discriminate.
  - reflexivity.
  - reflexivity.
  - reflexivity.
  - reflexivity.
  - split; [reflexivity | reflexivity].
  - reflexivity.
  - split; [exact V|]. split; [exact M | exact K].
Defined.

(** X13.  A token without [exp] never expires at the gates: the verifier
    has nothing to check and [undefined < now] is false.  At every clock
    reading, if it is well signed and not blacklisted, [verifyAuth] and
    [verifyGoogleAuth] let it through. *)
Theorem token_without_exp_never_expires (key : JsString) (redis : Gate.Redis) (t : Jws)
        (third : option TokenString) :
  key <> [] ->
  alg t = js "RS256" -> signed_for t = key ->
  nbf (claims t) = JUndefined -> exp (claims t) = JUndefined ->
  Gate.checkTokenBlacklist redis (jti (claims t)) = false ->
  forall now : Z,
    let p := mkPayload (jti (claims t)) (sub (claims t)) (username (claims t))
                       (email (claims t)) (iat (claims t)) None in
    MessageGate.verifyAuth (Some key) redis now
                           (MessageGate.mkRequest (Some (Bearer (Compact t))))
    = Proceed (auth_of p)
    /\ KaclsGate.verifyGoogleAuth (Some key) redis now
                                  (Gate.mkRequest (Some (Bearer (Compact t))) third)
       = Proceed (auth_of p).
Proof.
  intros Hk A S Nb Ex B now p.
  assert (Gate.verifyJWT (Compact t) key now = Ok p) as V.
  { unfold Gate.verifyJWT. rewrite (@verify_signed t key 30 now A S Nb), Ex.
    reflexivity. }
  assert (KeyDirectory.truthy (Some key) = Some key) as T
      by (destruct key; [contradiction | reflexivity]).
  split.
  - unfold MessageGate.verifyAuth. cbn [MessageGate.authorization].
    rewrite T, V. change (p_jti p) with (jti (claims t)). rewrite B. reflexivity.
  - unfold KaclsGate.verifyGoogleAuth. cbn [Gate.authorization].
    rewrite T, V. change (p_jti p) with (jti (claims t)). rewrite B. reflexivity.
Qed.

Lemma token_without_exp_never_expires_witness :
  MessageGate.verifyAuth (Some GateScenario.issuer_key) GateScenario.redis_empty
                         4102444800
                         (MessageGate.mkRequest (Some (Bearer Runs.token_without_exp)))
  = Proceed (auth_of (mkPayload (JStr (js "jti-resource-0004"))
                                (JStr GateScenario.alice_id) (JStr (js "alice"))
                                JUndefined (JNum 1700000000) None)).
Proof.
  refine (proj1 (@token_without_exp_never_expires
                   GateScenario.issuer_key GateScenario.redis_empty
                   (mkJws (js "RS256")
                          (mkClaims (JStr (js "jti-resource-0004"))
                                    (JStr GateScenario.alice_id) (JStr (js "alice"))
                                    JUndefined (JNum 1700000000) JUndefined JUndefined)
                          GateScenario.issuer_key)
                   None _ _ _ _ _ _ 4102444800)).
  - discriminate.
  - reflexivity.
  - reflexivity.
  - reflexivity.
  - reflexivity.
  - reflexivity.
Defined.

(** X14.  [optionalAuth] treats a request as anonymous exactly when it
    brings no bearer header.  With a bearer header it is [verifyAuth]: a
    token that fails is answered with 401 or 503 and the request is not
    served as anonymous, and [authError] is never set. *)
Theorem optionalAuth_anonymous_only_without_bearer (pk : option JsString)
        (redis : Gate.Redis) (now : Z) (req : MessageGate.Request) :
  (forall tok, MessageGate.authorization req = Some (Bearer tok) ->
               MessageGate.optionalAuth pk redis now req
               = MessageGate.verifyAuth pk redis now req)
  /\ ((forall tok, MessageGate.authorization req <> Some (Bearer tok)) ->
      MessageGate.optionalAuth pk redis now req = Proceed MessageGate.anonymous)
  /\ (forall a, MessageGate.optionalAuth pk redis now req = Proceed a ->
                ra_authError a = None
                /\ (ra_isAnonymous a = true <->
                    forall tok, MessageGate.authorization req <> Some (Bearer tok))).
Proof.
  unfold MessageGate.optionalAuth.
  destruct (MessageGate.authorization req) as [[tok|raw]|] eqn:Ha.
  - split; [reflexivity|]. split; [intros H; now destruct (H tok)|].
    intros a H. unfold MessageGate.verifyAuth in H. rewrite Ha in H.
    destruct (KeyDirectory.truthy pk) as [key|]; [|discriminate].
    destruct (Gate.verifyJWT tok key now) as [d|m]; [|discriminate].
    destruct (Gate.checkTokenBlacklist redis (p_jti d)); [discriminate|].
    destruct (Gate.exp_before (p_exp d) now); [discriminate|].
    injection H as <-. split; [reflexivity|].
    split; [discriminate | intros H; now destruct (H tok)].
  - split; [discriminate|]. split; [reflexivity|].
    intros a H. injection H as <-. split; [reflexivity|].
    split; [discriminate | reflexivity].
  - split; [discriminate|]. split; [reflexivity|].
    intros a H. injection H as <-. split; [reflexivity|].
    split; [discriminate | reflexivity].
Qed.

(** What the gates put into [req.auth.user]: no role. *)
Lemma auth_of_user (p : Payload) :
  ra_user (auth_of p)
  = Some (mkUser (p_sub p) (p_username p) (p_email p) JUndefined).
Proof. reflexivity. Qed.

Lemma requireRole_without_role (required : JsString) (a : ReqAuth) (u : User) :
  ra_user a = Some u -> usr_role u = JUndefined ->
  (requireRole required (Some a) = Pass <-> required = js "user").
Proof.
  intros Hu Hr. unfold requireRole. rewrite Hu, Hr. cbn [truthy].
  assert (strict_neq (JStr (js "user")) (JStr (js "admin")) = true) as ->
      by (vm_compute; reflexivity).
  rewrite andb_true_r.
  destruct (strict_neq (JStr (js "user")) (JStr required)) eqn:E.
  - split; [discriminate|]. intros ->.
    apply strict_neq_true in E. now destruct E.
  - split; [|reflexivity]. intros _.
    apply strict_neq_false in E. congruence.
Qed.

(** X15.  No gate grants a role.  None of the four authentication
    middlewares puts a [role] into [req.auth.user], so [requireRole] takes
    every authenticated user for a ['user']: behind any of them it lets a
    request through exactly when the required role is ['user'], whoever
    asks, and a request that [optionalAuth] passed as anonymous is answered
    401. *)
Theorem no_gate_grants_a_role (required : JsString) (pk : option JsString)
        (redis : Gate.Redis) (now : Z) :
  (forall req a,
      MessageGate.verifyAuth pk redis now req = Proceed a ->
      (requireRole required (Some a) = Pass <-> required = js "user"))
  /\ (forall req a,
         KaclsGate.verifyGoogleAuth pk redis now req = Proceed a ->
         (requireRole required (Some a) = Pass <-> required = js "user"))
  /\ (forall req a,
         Gate.verifyDualAuth pk redis now req = Gate.Next a ->
         (requireRole required (Some (dual_auth a)) = Pass <-> required = js "user"))
  /\ (forall req a,
         MessageGate.optionalAuth pk redis now req = Proceed a ->
         ra_isAnonymous a = true ->
         requireRole required (Some a) = Deny authentication_required)
  /\ requireRole required None = Deny authentication_required.
Proof.
  assert (forall req a, MessageGate.verifyAuth pk redis now req = Proceed a ->
                        exists p, a = auth_of p) as VA.
  { intros req a. unfold MessageGate.verifyAuth.
    destruct (MessageGate.authorization req) as [[tok|raw]|]; try discriminate.
    destruct (KeyDirectory.truthy pk) as [key|]; [|discriminate].
    destruct (Gate.verifyJWT tok key now) as [d|m]; [|discriminate].
    destruct (Gate.checkTokenBlacklist redis (p_jti d)); [discriminate|].
    destruct (Gate.exp_before (p_exp d) now); [discriminate|].
    intros H. injection H as <-. now exists d. }
  split; [|split; [|split; [|split]]].
  - intros req a H. destruct (VA req a H) as [p ->].
    now apply (@requireRole_without_role required (auth_of p) _ (auth_of_user p)).
  - intros req a. unfold KaclsGate.verifyGoogleAuth.
    destruct (Gate.authorization req) as [[tok|raw]|]; try discriminate.
    destruct (KeyDirectory.truthy pk) as [key|]; [|discriminate].
    destruct (Gate.verifyJWT tok key now) as [d|m]; [|discriminate].
    destruct (Gate.checkTokenBlacklist redis (p_jti d)); [discriminate|].
    intros H. injection H as <-.
    now apply (@requireRole_without_role required (auth_of d) _ (auth_of_user d)).
  - intros req a _.
    now apply (@requireRole_without_role required (dual_auth a) _ eq_refl).
  - intros req a. unfold MessageGate.optionalAuth.
    destruct (MessageGate.authorization req) as [[tok|raw]|].
    + intros H An. destruct (VA req a H) as [p ->]. discriminate.
    + intros H _. injection H as <-. reflexivity.
    + intros H _. injection H as <-. reflexivity.
  - reflexivity.
Qed.

(** X16.  The dual gate is the stricter one: whenever [verifyDualAuth]
    calls [next()], [verifyGoogleAuth] calls [next()] for the same request
    at the same time, and hands on the same user and the same token
    information. *)
Theorem dual_gate_implies_single_gate (pk : option JsString) (redis : Gate.Redis)
        (now : Z) (req : Gate.Request) (a : Gate.Auth) :
  Gate.verifyDualAuth pk redis now req = Gate.Next a ->
  exists b,
    KaclsGate.verifyGoogleAuth pk redis now req = Proceed b
    /\ ra_user b = ra_user (dual_auth a)
    /\ ra_tokenInfo b = ra_tokenInfo (dual_auth a)
    /\ ra_thirdPartyAuth b = None.
Proof.
  intros N. apply GateFacts.next_inversion in N.
  destruct N as (tok1 & tok2 & key & g & t & Ha & _ & Hk & V1 & B & _ & _ & _ & _ & _
                 & _ & ->).
  exists (auth_of g). unfold KaclsGate.verifyGoogleAuth. rewrite Ha, Hk, V1, B.
  repeat split.
Qed.

Lemma dual_gate_implies_single_gate_witness :
  exists b,
    KaclsGate.verifyGoogleAuth (Some GateScenario.issuer_key) GateScenario.redis_empty
                               GateScenario.clock GateScenario.request
    = Proceed b
    /\ ra_user b = ra_user (dual_auth GateScenario.alice_auth)
    /\ ra_tokenInfo b = ra_tokenInfo (dual_auth GateScenario.alice_auth)
    /\ ra_thirdPartyAuth b = None.
Proof.
  apply (@dual_gate_implies_single_gate (Some GateScenario.issuer_key)
           GateScenario.redis_empty GateScenario.clock GateScenario.request
           GateScenario.alice_auth).
  vm_compute. reflexivity.
Defined.

(** X17.  The services agree on what the issuer accepts.  A token for
    which the auth service's [/verify] answers with the user is let through
    by [verifyAuth] of the message service and by [verifyGoogleAuth] of the
    KACLS at the same clock reading, under the key the issuer publishes and
    with no blacklist entry in Redis, and the identity they hand on is the
    one [/verify] returned. *)
Theorem issuer_verdict_carries_over (pk : JsString) (db : AuthService.Db) (now : Z)
        (tok : TokenString) (p : Payload) (redis : Gate.Redis)
        (third : option TokenString) :
  pk <> [] ->
  AuthService.verify_route pk db now (AuthService.mkRequest (Some (Bearer tok)))
  = AuthService.Valid p ->
  Gate.checkTokenBlacklist redis (p_jti p) = false ->
  MessageGate.verifyAuth (Some pk) redis now (MessageGate.mkRequest (Some (Bearer tok)))
  = Proceed (auth_of p)
  /\ KaclsGate.verifyGoogleAuth (Some pk) redis now
                                (Gate.mkRequest (Some (Bearer tok)) third)
     = Proceed (auth_of p).
Proof.
  intros Hk R B.
  assert (verify tok pk 0 now = Ok p) as V0.
  { unfold AuthService.verify_route in R. cbn [AuthService.authorization] in R.
    destruct (verify tok pk 0 now) as [d|err].
    - destruct (AuthService.select_blacklist db (p_jti d)); [|discriminate].
      destruct (AuthService.select_active_user db (p_sub d)); [discriminate|].
      injection R as <-. reflexivity.
    - destruct (name err); discriminate. }
  assert (Gate.verifyJWT tok pk now = Ok p) as V
      by (unfold Gate.verifyJWT; now rewrite (@verify_with_tolerance tok pk now p V0)).
  assert (Gate.exp_before (p_exp p) now = false) as X.
  { destruct (p_exp p) as [e|] eqn:E; [|reflexivity].
    pose proof (@RevocationFacts.verify_not_expired tok pk 0 now p e V0 E).
    apply Z.ltb_ge. lia. }
  assert (KeyDirectory.truthy (Some pk) = Some pk) as T
      by (destruct pk; [contradiction | reflexivity]).
  split.
  - unfold MessageGate.verifyAuth. cbn [MessageGate.authorization].
    rewrite T, V, B, X. reflexivity.
  - unfold KaclsGate.verifyGoogleAuth. cbn [Gate.authorization].
    rewrite T, V, B. reflexivity.
Qed.

Lemma issuer_verdict_carries_over_witness :
  MessageGate.verifyAuth (Some GateScenario.issuer_key) GateScenario.redis_empty
                         GateScenario.clock
                         (MessageGate.mkRequest (Some (Bearer GateScenario.resource_token)))
  = Proceed (auth_of (mkPayload (JStr (js "jti-resource-0001"))
                                (JStr GateScenario.alice_id) (JStr (js "alice"))
                                JUndefined (JNum 1700000000) (Some 1700086400)))
  /\ KaclsGate.verifyGoogleAuth (Some GateScenario.issuer_key) GateScenario.redis_empty
                                GateScenario.clock
                                (Gate.mkRequest
                                   (Some (Bearer GateScenario.resource_token)) None)
     = Proceed (auth_of (mkPayload (JStr (js "jti-resource-0001"))
                                   (JStr GateScenario.alice_id) (JStr (js "alice"))
                                   JUndefined (JNum 1700000000) (Some 1700086400))).
Proof.
  apply (@issuer_verdict_carries_over GateScenario.issuer_key GateScenario.db0
           GateScenario.clock GateScenario.resource_token
           (mkPayload (JStr (js "jti-resource-0001")) (JStr GateScenario.alice_id)
                      (JStr (js "alice")) JUndefined (JNum 1700000000)
                      (Some 1700086400))
           GateScenario.redis_empty None).
  - discriminate.
  - vm_compute. reflexivity.
  - reflexivity.
Defined.

End SingleGateFacts.

(** ** The per-user rate limit *)

Module RateLimitFacts.
Import Js Express MessageGate.
Local Open Scope Z_scope.

Lemma strict_eq_refl (k : JsVal) : strict_eq k k = true.
Proof. now apply strict_eq_eq. Qed.

Lemma lookup_set_same (m : Store) (k k' : JsVal) (v : list Z) :
  strict_eq k k' = true -> lookup (set m k v) k' = Some v.
Proof.
  intros E. apply strict_eq_eq in E. subst k'.
  induction m as [|[k0 v0] m IH]; cbn [set lookup].
  - now rewrite strict_eq_refl.
  - destruct (strict_eq k0 k) eqn:E; cbn [lookup]; rewrite E; [reflexivity | exact IH].
Qed.

Lemma lookup_set_other (m : Store) (k k' : JsVal) (v : list Z) :
  strict_eq k k' = false -> lookup (set m k v) k' = lookup m k'.
Proof.
  intros E. induction m as [|[k0 v0] m IH]; cbn [set lookup].
  - now rewrite E.
  - destruct (strict_eq k0 k) eqn:E0; cbn [lookup].
    + apply strict_eq_eq in E0. subst k0. now rewrite E.
    + now rewrite IH.
Qed.

Lemma get_set_same (m : Store) (k k' : JsVal) (v : list Z) :
  strict_eq k k' = true -> get_or_empty (set m k v) k' = v.
Proof. intros E. unfold get_or_empty. now rewrite lookup_set_same. Qed.

Lemma get_set_other (m : Store) (k k' : JsVal) (v : list Z) :
  strict_eq k k' = false -> get_or_empty (set m k v) k' = get_or_empty m k'.
Proof. intros E. unfold get_or_empty. now rewrite lookup_set_other. Qed.

(** Filtering for a later window start subsumes filtering for an earlier
    one. *)
Lemma filter_later (a b : Z) (l : list Z) :
  a <= b ->
  filter (fun t => b <? t) (filter (fun t => a <? t) l) = filter (fun t => b <? t) l.
Proof.
  intros H. induction l as [|x l IH]; [reflexivity|]. cbn [filter].
  destruct (a <? x) eqn:A; cbn [filter]; destruct (b <? x) eqn:B;
    rewrite ?IH; try reflexivity.
  apply Z.ltb_lt in B. apply Z.ltb_ge in A. lia.
Qed.

Lemma filter_later_length (a b : Z) (l : list Z) :
  a <= b ->
  (length (filter (fun t => (b <? t)%Z) l)
   <= length (filter (fun t => (a <? t)%Z) l))%nat.
Proof.
  intros H. rewrite <- (@filter_later a b l H). apply filter_length_le.
Qed.

Lemma in_window_le (w s : Z) (l : list Z) :
  (in_window w s l <= length (filter (fun t => (s - w <? t)%Z) l))%nat.
Proof.
  unfold in_window. induction l as [|x l IH]; [reflexivity|]. cbn [filter].
  destruct (s - w <? x); cbn [andb]; [|exact IH].
  destruct (x <=? s); cbn [length]; lia.
Qed.

Lemma in_window_app (w s : Z) (l : list Z) (x : Z) :
  in_window w s (l ++ [x])
  = (in_window w s l + (if ((s - w <? x) && (x <=? s))%Z then 1 else 0))%nat.
Proof.
  unfold in_window. rewrite filter_app, length_app. cbn [filter].
  destruct ((s - w <? x) && (x <=? s)); reflexivity.
Qed.

(** The map after one request, as seen by any user. *)
Lemma rateLimit_by_user (w mx : Z) (msg : option JsString) (m : Store) (now : Z)
      (u : User) (tk tp : option TokenInfo) (an : bool) (er : option JsString)
      (k : JsVal) :
  let cleaned := filter (fun t => now - w <? t) (get_or_empty m (usr_id u)) in
  let r := rateLimit w mx msg m now (Some (mkReqAuth (Some u) tk tp an er)) in
  (if mx <=? Z.of_nat (length cleaned)
   then snd r = Deny (rate_limit_exceeded w mx msg (retryAfter cleaned w now))
        /\ get_or_empty (fst r) k
           = (if strict_eq (usr_id u) k then cleaned else get_or_empty m k)
   else snd r = Pass
        /\ get_or_empty (fst r) k
           = (if strict_eq (usr_id u) k then cleaned ++ [now] else get_or_empty m k)).
Proof.
  cbv zeta. unfold rateLimit.
  set (F := fun t => now - w <? t).
  set (m1 := match lookup m (usr_id u) with
             | Some requests => set m (usr_id u) (filter F requests)
             | None => m
             end).
  assert (get_or_empty m1 (usr_id u) = filter F (get_or_empty m (usr_id u))) as G1.
  { subst m1. unfold get_or_empty at 2.
    destruct (lookup m (usr_id u)) as [l|] eqn:L.
    - apply get_set_same, strict_eq_refl.
    - unfold get_or_empty. now rewrite L. }
  assert (forall k', strict_eq (usr_id u) k' = false ->
                     get_or_empty m1 k' = get_or_empty m k') as G2.
  { intros k' E. subst m1. destruct (lookup m (usr_id u)); [|reflexivity].
    now apply get_set_other. }
  rewrite G1.
  destruct (mx <=? Z.of_nat (length (filter F (get_or_empty m (usr_id u))))).
  - cbn [fst snd]. split; [reflexivity|].
    destruct (strict_eq (usr_id u) k) eqn:E.
    + apply strict_eq_eq in E. subst k. exact G1.
    + now apply G2.
  - cbn [fst snd]. split; [reflexivity|].
    destruct (strict_eq (usr_id u) k) eqn:E.
    + now apply get_set_same.
    + rewrite get_set_other by assumption. now apply G2.
Qed.

(** One run of [serve] keeps the map and the record of passed requests in
    step, and the record within the limit. *)
Lemma serve_invariant (w mx : Z) (msg : option JsString) (u : JsVal)
      (reqs : list (Z * option ReqAuth)) :
  forall (m : Store) (passed : list Z) (c : Z),
    clock_from c reqs ->
    (forall s, c <= s ->
               filter (fun t => s - w <? t) (get_or_empty m u)
               = filter (fun t => s - w <? t) passed) ->
    (forall s, Z.of_nat (in_window w s passed) <= Z.max 0 mx) ->
    forall s, Z.of_nat (in_window w s (snd (serve w mx msg u m passed reqs)))
              <= Z.max 0 mx.
Proof.
  induction reqs as [|[now auth] rest IH]; intros m passed c Hc I1 B; [exact B|].
  cbn [clock_from] in Hc. destruct Hc as [Hle Hc]. cbn [serve].
  destruct auth as [[[usr|] tk tp an er]|].
  - pose proof (@rateLimit_by_user w mx msg m now usr tk tp an er u) as R.
    cbv zeta in R.
    destruct (rateLimit w mx msg m now (Some (mkReqAuth (Some usr) tk tp an er)))
      as [m' v].
    cbn [fst snd] in R. cbn [by_user].
    set (cleaned := filter (fun t => now - w <? t) (get_or_empty m (usr_id usr))) in *.
    destruct (mx <=? Z.of_nat (length cleaned)) eqn:Full; destruct R as [-> G].
    + rewrite andb_false_r. apply (IH m' passed now Hc); [|exact B].
      intros s Hs. rewrite G. destruct (strict_eq (usr_id usr) u) eqn:E.
      * apply strict_eq_eq in E. subst u. subst cleaned.
        rewrite filter_later by lia. apply I1. lia.
      * apply I1. lia.
    + cbn [is_pass]. rewrite andb_true_r.
      destruct (strict_eq (usr_id usr) u) eqn:E.
      * apply strict_eq_eq in E. subst u.
        apply (IH m' (passed ++ [now]) now Hc).
        -- intros s Hs. rewrite G, !filter_app. f_equal. subst cleaned.
           rewrite filter_later by lia. apply I1. lia.
        -- intros s. rewrite in_window_app.
           destruct ((s - w <? now) && (now <=? s)) eqn:W.
           ++ apply andb_true_iff in W. destruct W as [_ W]. apply Z.leb_le in W.
              pose proof (in_window_le w s passed) as L1.
              rewrite <- (I1 s ltac:(lia)) in L1.
              pose proof (@filter_later_length (now - w) (s - w)
                            (get_or_empty m (usr_id usr)) ltac:(lia)) as L2.
              fold cleaned in L2. apply Z.leb_gt in Full. lia.
           ++ specialize (B s). lia.
      * apply (IH m' passed now Hc); [|exact B].
        intros s Hs. rewrite G. apply I1. lia.
  - cbn [rateLimit by_user andb]. apply (IH m passed now Hc); [|exact B].
    intros s Hs. apply I1. lia.
  - cbn [rateLimit by_user andb]. apply (IH m passed now Hc); [|exact B].
    intros s Hs. apply I1. lia.
Qed.

(** X18.  The limit holds in every window.  Starting from an empty map
    and with a clock that does not go back, whatever requests arrive, of
    whichever users, the requests of one user that the middleware lets
    through number at most [maxRequests] in any interval of [windowMs]
    milliseconds (none at all if [maxRequests] is not positive). *)
Theorem rate_limit_holds_in_every_window (windowMs maxRequests : Z)
        (message : option JsString) (u : JsVal) (c : Z)
        (requests : list (Z * option ReqAuth)) (s : Z) :
  clock_from c requests ->
  Z.of_nat (in_window windowMs s
              (snd (serve windowMs maxRequests message u [] [] requests)))
  <= Z.max 0 maxRequests.
Proof.
  intros Hc.
  apply (@serve_invariant windowMs maxRequests message u requests [] [] c Hc).
  - reflexivity.
  - intros s'. cbn. lia.
Qed.

Lemma rate_limit_holds_in_every_window_witness :
  snd (serve 1000 2 None (JStr GateScenario.alice_id) [] [] Runs.burst)
  = [1700000000000; 1700000000400; 1700000001000; 1700000001500]
  /\ Z.of_nat (in_window 1000 1700000001000
                 (snd (serve 1000 2 None (JStr GateScenario.alice_id) [] [] Runs.burst)))
     <= Z.max 0 2.
Proof.
  split; [vm_compute; reflexivity|].
  apply (@rate_limit_holds_in_every_window 1000 2 None (JStr GateScenario.alice_id)
           1700000000000 Runs.burst 1700000001000).
  vm_compute. repeat split; discriminate.
Defined.

(** X19.  With a positive limit, every 429 of the rate limit names a
    [retryAfter] of at least one second: the list it is computed from has
    just been cleaned, so its first time stamp lies inside the window. *)
Theorem retry_after_is_at_least_a_second (windowMs maxRequests : Z)
        (message : option JsString) (m m' : Store) (now : Z) (auth : option ReqAuth)
        (r : Response) :
  0 < maxRequests ->
  rateLimit windowMs maxRequests message m now auth = (m', Deny r) ->
  exists n, r = rate_limit_exceeded windowMs maxRequests message (Some n) /\ 1 <= n.
Proof.
  intros Hmx H.
  destruct auth as [[[usr|] tk tp an er]|]; try discriminate.
  pose proof (@rateLimit_by_user windowMs maxRequests message m now usr tk tp an er
                (usr_id usr)) as R.
  cbv zeta in R. rewrite H in R. cbn [fst snd] in R.
  set (cleaned := filter (fun t => now - windowMs <? t) (get_or_empty m (usr_id usr)))
    in *.
  destruct (maxRequests <=? Z.of_nat (length cleaned)) eqn:Full;
    destruct R as [R _]; [|discriminate].
  injection R as ->. apply Z.leb_le in Full.
  destruct cleaned as [|first l] eqn:C; [cbn in Full; lia|].
  assert (In first (filter (fun t => now - windowMs <? t)
                           (get_or_empty m (usr_id usr)))) as Hin
      by (fold cleaned; rewrite C; left; reflexivity).
  apply filter_In in Hin. destruct Hin as [_ Hin]. apply Z.ltb_lt in Hin.
  exists (ceil_div_1000 (first + windowMs - now)). split; [reflexivity|].
  unfold ceil_div_1000. lia.
Qed.

Lemma retry_after_is_at_least_a_second_witness :
  exists n,
    mkResponse 429
      [(js "error", js "Rate limit exceeded");
       (js "message", js "Too many requests. Limit: 2 per 1000ms");
       (js "retryAfter", js "1")]
    = rate_limit_exceeded 1000 2 None (Some n) /\ 1 <= n.
Proof.
  apply (@retry_after_is_at_least_a_second 1000 2 None
           [(JStr GateScenario.alice_id, [1700000000000; 1700000000400])]
           [(JStr GateScenario.alice_id, [1700000000000; 1700000000400])]
           1700000000700 (Some Runs.alice_req_auth)).
  - reflexivity.
  - vm_compute. reflexivity.
Defined.

(** X20.  The limit is per user.  A request leaves the record of every
    other user as it was, and a request with no authenticated user is let
    through without a trace in the map. *)
Theorem rate_limit_is_per_user (windowMs maxRequests : Z) (message : option JsString)
        (m : Store) (now : Z) (auth : option ReqAuth) (k : JsVal) :
  (by_user k auth = false ->
   get_or_empty (fst (rateLimit windowMs maxRequests message m now auth)) k
   = get_or_empty m k)
  /\ ((forall a, auth = Some a -> ra_user a = None) ->
      rateLimit windowMs maxRequests message m now auth = (m, Pass)).
Proof.
  split.
  - destruct auth as [[[usr|] tk tp an er]|]; try reflexivity.
    cbn [by_user]. intros E.
    pose proof (@rateLimit_by_user windowMs maxRequests message m now usr tk tp an er k)
      as R.
    cbv zeta in R. rewrite E in R.
    destruct (maxRequests <=? _) in R; destruct R as [_ R]; exact R.
  - destruct auth as [[[usr|] tk tp an er]|]; try reflexivity.
    intros H. specialize (H _ eq_refl). discriminate.
Qed.

End RateLimitFacts.

(** ** The address whitelist *)

Module WhitelistFacts.
Import Express KaclsGate.

Lemma split_comma_cons (s : JsString) : exists p ps, split_comma s = p :: ps.
Proof.
  induction s as [|c r [p [ps IH]]]; cbn [split_comma]; [now eexists; eexists|].
  destruct (c =? 44); [now eexists; eexists|]. rewrite IH. now eexists; eexists.
Qed.

Lemma join_comma_cons (c : N) (p : JsString) (ps : list JsString) :
  join_comma ((c :: p) :: ps) = c :: join_comma (p :: ps).
Proof. destruct ps; reflexivity. Qed.

(** X21.  The whitelist is the variable's text cut at its commas, and
    nothing more: there is always at least one entry, joining the entries
    with commas gives the text back, and no entry holds a comma.  Nothing
    is trimmed and nothing is dropped, so the empty text yields the one
    entry [""]. *)
Theorem whitelist_entries_are_the_comma_separated_pieces (s : JsString) :
  (0 < length (split_comma s))%nat
  /\ join_comma (split_comma s) = s
  /\ Forall (fun p => ~ In 44 p) (split_comma s)
  /\ split_comma [] = [[]].
Proof.
  split; [|split; [|split; [|reflexivity]]].
  - destruct (split_comma_cons s) as [p [ps ->]]. cbn [length]. lia.
  - induction s as [|c r IH]; [reflexivity|]. cbn [split_comma].
    destruct (N.eqb_spec c 44) as [->|Hc].
    + destruct (split_comma_cons r) as [p [ps E]]. rewrite E in *.
      change (join_comma ([] :: p :: ps)) with (44 :: join_comma (p :: ps)).
      now rewrite IH.
    + destruct (split_comma_cons r) as [p [ps E]]. rewrite E in *.
      rewrite join_comma_cons. now rewrite IH.
  - induction s as [|c r IH]; [repeat constructor; auto|]. cbn [split_comma].
    destruct (N.eqb_spec c 44) as [->|Hc].
    + constructor; [auto | exact IH].
    + destruct (split_comma_cons r) as [p [ps E]]. rewrite E in *.
      inversion_clear IH as [|? ? Hp Hps]. constructor; [|exact Hps].
      intros [H|H]; [congruence | contradiction].
Qed.

Lemma includes_In (l : list JsString) (v : option JsString) :
  includes l v = true <-> exists a, v = Some a /\ In a l.
Proof.
  unfold includes. destruct v as [a|].
  - rewrite existsb_exists. split.
    + intros [x [Hin E]]. apply jsstring_eqb_eq in E. subst x. now exists a.
    + intros [x [E Hin]]. injection E as <-. exists a. split; [exact Hin|].
      apply jsstring_eqb_refl.
  - split; [discriminate | intros [a [E _]]; discriminate].
Qed.

(** X22.  Who passes the whitelist.  With [WHITELISTED_IPS] unset every
    request passes.  With the variable set, whatever its text, a request
    passes exactly when the client address is, character for character,
    one of the comma-separated pieces; so setting the variable to the empty
    text shuts out every client that has an address. *)
Theorem whitelist_admits_exactly_the_listed (req : Connection) :
  requireWhitelistedIP None req = Pass
  /\ (forall s, requireWhitelistedIP (Some s) req = Pass <->
                exists a, clientIP req = Some a /\ In a (split_comma s))
  /\ (requireWhitelistedIP (Some []) req = Pass <-> clientIP req = Some [])
  /\ (forall s, requireWhitelistedIP (Some s) req = Pass \/
                requireWhitelistedIP (Some s) req = Deny not_whitelisted).
Proof.
  assert (forall s, requireWhitelistedIP (Some s) req = Pass <->
                    exists a, clientIP req = Some a /\ In a (split_comma s)) as G.
  { intros s. unfold requireWhitelistedIP.
    destruct (split_comma_cons s) as [p [ps E]]. rewrite E. cbn [length Nat.ltb Nat.leb andb].
    rewrite <- E. rewrite <- includes_In.
    destruct (includes (split_comma s) (clientIP req)); cbn [negb];
      split; try reflexivity; discriminate. }
  split; [reflexivity|]. split; [exact G|]. split.
  - rewrite G. cbn [split_comma]. split.
    + intros [a [E [<-|[]]]]. exact E.
    + intros E. exists []. split; [exact E | now left].
  - intros s. unfold requireWhitelistedIP.
    destruct (_ && _); [right | left]; reflexivity.
Qed.

End WhitelistFacts.

(** ** Users verified in bulk *)

Module DirectoryFacts.
Import Js KeyDirectory Directory.
Local Open Scope Z_scope.

Lemma verifyUser_has_no_userId (userId : JsVal) (http : UserHttp) :
  vr_userId (verifyUser userId http) = JUndefined.
Proof.
  destruct http as [user|m|code m|m]; cbn [verifyUser]; try reflexivity.
  destruct (code =? 404); reflexivity.
Qed.

Lemma last_of_cons (A : Type) (x d d' : A) (l : list A) :
  last (x :: l) d = last (x :: l) d'.
Proof.
  revert x. induction l as [|y l IH]; intros x; [reflexivity|].
  change (last (y :: l) d = last (y :: l) d'). apply IH.
Qed.

Lemma fold_assign_undefined (results : list Verification) (v : Verification) :
  Forall (fun r => vr_userId r = JUndefined) results ->
  fold_left (fun acc result => assign acc (to_string (vr_userId result)) result)
            results [(js "undefined", v)]
  = [(js "undefined", last results v)].
Proof.
  revert v. induction results as [|r rs IH]; intros v H; [reflexivity|].
  inversion_clear H as [|? ? Hr Hrs]. cbn [fold_left]. rewrite Hr.
  cbn [to_string assign]. rewrite jsstring_eqb_refl. rewrite (IH r Hrs).
  destruct rs as [|r' rs]; [reflexivity|].
  change (last (r :: r' :: rs) v) with (last (r' :: rs) v).
  now rewrite (last_of_cons r' r v rs).
Qed.

(** X23.  [batchVerifyUsers] files every result under one and the same
    key.  The results of [verifyUser] carry no [userId], so the object it
    builds has, for any non-empty list of users, exactly one property,
    named ["undefined"], holding the result for the last user of the list;
    no user id is a key of it. *)
Theorem batchVerifyUsers_keeps_one_result (calls : list (JsVal * UserHttp))
        (userId : JsVal) (http : UserHttp) :
  batchVerifyUsers [] = []
  /\ batchVerifyUsers (calls ++ [(userId, http)])
     = [(js "undefined", verifyUser userId http)].
Proof.
  split; [reflexivity|]. unfold batchVerifyUsers.
  destruct calls as [|[u0 h0] rest].
  - cbn [app List.map fold_left fst snd]. rewrite verifyUser_has_no_userId. reflexivity.
  - cbn [app List.map fold_left fst snd]. rewrite verifyUser_has_no_userId.
    cbn [to_string assign]. rewrite fold_assign_undefined.
    + rewrite map_app. cbn [List.map fst snd]. now rewrite last_last.
    + apply Forall_forall. intros r Hin. apply in_map_iff in Hin.
      destruct Hin as [[u h] [<- _]]. apply verifyUser_has_no_userId.
Qed.

(** ** The life of the cached signing key *)

Lemma truthy_some (v : option JsString) (x : JsString) :
  truthy v = Some x -> v = Some x /\ x <> [].
Proof.
  unfold truthy. destruct v as [[|c s]|]; try discriminate.
  intros H. injection H as <-. split; [reflexivity | discriminate].
Qed.

Lemma get_within_ttl (k : JsString) (t now : Z) :
  now <= t + 300000 -> get (set k t) now = Some k.
Proof.
  intros H. unfold get, set, stdTTL. cbn [expires value].
  assert ((t + 300 * 1000 <? now) = false) as -> by (apply Z.ltb_ge; lia).
  reflexivity.
Qed.

(** A call made while the key is served makes no request and leaves the
    entry, expiry included, as it is. *)
Lemma fetch_while_served (k : JsString) (t : Z) (call : Call) :
  k <> [] -> called_at call <= t + 300000 ->
  fetch_alone (set k t) call = (Ok k, set k t).
Proof.
  intros Hk H. unfold fetch_alone, fetchAuthPublicKey.
  rewrite get_within_ttl by assumption.
  destruct k; [contradiction | reflexivity].
Qed.

Lemma refreshes_while_served (k : JsString) (t : Z) (calls : list Call) :
  k <> [] -> Forall (fun call => called_at call <= t + 300000) calls ->
  refreshes (set k t) calls = set k t.
Proof.
  intros Hk H. unfold refreshes. induction H as [|call calls Hc _ IH]; [reflexivity|].
  cbn [fold_left]. unfold periodic_refresh at 2.
  rewrite fetch_while_served by assumption. exact IH.
Qed.

(** X24.  The key fetched at start-up lives five minutes, and refreshing
    it early does not prolong it.  If [startServer] gets as far as
    listening, the cache holds the key of the reply, stored when the reply
    arrived.  For the next 300 seconds [getAuthPublicKey] gives that key
    and every call of [fetchAuthPublicKey] returns it without a request,
    leaving the expiry where it was.  After those 300 seconds
    [getAuthPublicKey] gives nothing, however many refreshes ran while the
    key was still served. *)
Theorem startup_key_lives_five_minutes (database_ok redis_ok : bool) (call : Call)
        (c : Cache) (calls : list Call) :
  startServer database_ok redis_ok call = Listening c ->
  Forall (fun x => called_at x <= resumed_at call + 300000) calls ->
  exists k,
    reply call = Replied (Some k) /\ k <> []
    /\ c = set k (resumed_at call)
    /\ (forall now, now <= resumed_at call + 300000 -> getAuthPublicKey c now = Some k)
    /\ refreshes c calls = c
    /\ (forall now, resumed_at call + 300000 < now ->
                    getAuthPublicKey (refreshes c calls) now = None).
Proof.
  unfold startServer. destruct database_ok; [|discriminate].
  destruct redis_ok; [|discriminate].
  unfold fetch_alone, fetchAuthPublicKey. cbn [get truthy].
  destruct (reply call) as [e|[k|]]; try discriminate.
  destruct (truthy (Some k)) as [k'|] eqn:T; [|discriminate].
  apply truthy_some in T. destruct T as [T Hk]. injection T as <-.
  intros H Hcalls. injection H as <-.
  exists k. split; [reflexivity|]. split; [exact Hk|]. split; [reflexivity|].
  split; [intros now Hn; now apply get_within_ttl|].
  rewrite refreshes_while_served by assumption.
  split; [reflexivity|].
  intros now Hn. now apply KeyDirectoryFacts.key_expires_after_ttl.
Qed.

Lemma startup_key_lives_five_minutes_witness :
  exists k,
    reply Runs.startup_call = Replied (Some k) /\ k <> []
    /\ Runs.startup_cache = set k (resumed_at Runs.startup_call)
    /\ (forall now, now <= resumed_at Runs.startup_call + 300000 ->
                    getAuthPublicKey Runs.startup_cache now = Some k)
    /\ refreshes Runs.startup_cache Runs.early_refreshes = Runs.startup_cache
    /\ (forall now, resumed_at Runs.startup_call + 300000 < now ->
                    getAuthPublicKey
                      (refreshes Runs.startup_cache Runs.early_refreshes) now
                    = None).
Proof.
  apply (@startup_key_lives_five_minutes true true Runs.startup_call
           Runs.startup_cache Runs.early_refreshes).
  - reflexivity.
  - repeat constructor; vm_compute; discriminate.
Defined.

(** X25.  Once the cached key has expired, every gate answers 503 to
    every request that brings a bearer token, whatever the token is, until
    a fetch succeeds.  The dual gate does so when the request also brings
    a third-party header that is not empty; an empty header it refuses
    before it looks for the key, with 401 and its message for a missing
    third-party token. *)
Theorem expired_key_closes_every_gate (k : JsString) (t now : Z) (redis : Gate.Redis)
        (clock : Z) (tok : Jwt.TokenString) (third : Jwt.TokenString) :
  t + 300000 < now ->
  MessageGate.verifyAuth (getAuthPublicKey (set k t) now) redis clock
                         (MessageGate.mkRequest (Some (Jwt.Bearer tok)))
  = Express.Reply Gate.service_unavailable
  /\ KaclsGate.verifyGoogleAuth (getAuthPublicKey (set k t) now) redis clock
                                (Gate.mkRequest (Some (Jwt.Bearer tok)) None)
     = Express.Reply Gate.service_unavailable
  /\ (third <> Jwt.Malformed [] ->
      Gate.verifyDualAuth (getAuthPublicKey (set k t) now) redis clock
                          (Gate.mkRequest (Some (Jwt.Bearer tok)) (Some third))
      = Gate.Respond Gate.service_unavailable)
  /\ Gate.verifyDualAuth (getAuthPublicKey (set k t) now) redis clock
                         (Gate.mkRequest (Some (Jwt.Bearer tok))
                                         (Some (Jwt.Malformed [])))
     = Gate.Respond Gate.missing_third_party
  /\ MessageGate.optionalAuth (getAuthPublicKey (set k t) now) redis clock
                              (MessageGate.mkRequest (Some (Jwt.Bearer tok)))
     = Express.Reply Gate.service_unavailable.
Proof.
  intros H. rewrite KeyDirectoryFacts.key_expires_after_ttl by assumption.
  split; [reflexivity|]. split; [reflexivity|]. split.
  - intros Hne. unfold Gate.verifyDualAuth.
    cbn [Gate.authorization Gate.x_third_party_token].
    rewrite (GateFacts.given_nonempty Hne). reflexivity.
  - split; reflexivity.
Qed.

Lemma expired_key_closes_every_gate_witness :
  MessageGate.verifyAuth (getAuthPublicKey GateScenario.filled_cache 300001)
                         GateScenario.redis_empty GateScenario.clock
                         (MessageGate.mkRequest
                            (Some (Jwt.Bearer GateScenario.resource_token)))
  = Express.Reply Gate.service_unavailable
  /\ Gate.verifyDualAuth (getAuthPublicKey GateScenario.filled_cache 300001)
                         GateScenario.redis_empty GateScenario.clock
                         (Gate.mkRequest
                            (Some (Jwt.Bearer GateScenario.resource_token))
                            (Some GateScenario.identity_token))
     = Gate.Respond Gate.service_unavailable.
Proof.
  pose proof (@expired_key_closes_every_gate GateScenario.issuer_key 0 300001
                GateScenario.redis_empty GateScenario.clock
                GateScenario.resource_token GateScenario.identity_token
                ltac:(reflexivity)) as H.
  split; [exact (proj1 H)|].
  apply (proj1 (proj2 (proj2 H))). discriminate.
Defined.

End DirectoryFacts.

(** ** From start-up to the first wrapped key *)

Module ServiceFacts.
Import MasterKey.
Local Open Scope Z_scope.

Lemma init_installs_a_key (st st' : State) (w w' : World) (i : Inputs) (o : Outcome) :
  initMasterKey st w i = (st', w', o) -> exists mk, currentMasterKey st' = Some mk.
Proof.
  unfold initMasterKey. destruct (loadMasterKey w) as [d|].
  - destruct (maxAge <? now i - ko_createdAt (kd_object d)).
    + unfold rotateMasterKey. destruct (saveMasterKey _ w i _) as [w1 o1].
      intros H. injection H as <- _ _. eexists. reflexivity.
    + intros H. injection H as <- _ _. eexists. reflexivity.
  - destruct (saveMasterKey _ w i _) as [w1 o1].
    intros H. injection H as <- _ _. eexists. reflexivity.
Qed.

(** X26.  Before [initMasterKey] nothing can be wrapped or unwrapped:
    both calls throw.  Once [initMasterKey] has run, even if it threw
    because the key file could not be written, [wrapKey] succeeds on every
    key and [unwrapKey] gives the key back, for every key that is a
    well-formed string. *)
Theorem keys_wrap_once_the_master_key_is_initialised (st st' : State) (w w' : World)
        (i : Inputs) (o : Outcome) (dek : JsString) (env0 : Envelope) :
  initMasterKey st w i = (st', w', o) ->
  Utf8.well_formed dek = true ->
  wrapKey initial dek = Throw (js "Key wrapping operation failed")
  /\ unwrapKey initial env0 = Throw (js "Key unwrapping operation failed")
  /\ exists env, wrapKey st' dek = Ok env
                 /\ version env = keyVersion st'
                 /\ unwrapKey st' env = Ok dek.
Proof.
  intros I Hwf. split; [reflexivity|]. split; [reflexivity|].
  destruct (init_installs_a_key _ _ _ I) as [mk E].
  exists (envelope_of mk (keyVersion st') dek).
  split; [apply (@MasterKeyFacts.wrapKey_envelope st' mk dek E)|].
  split; [reflexivity|].
  apply (@MasterKeyFacts.unwrapKey_envelope st' mk (keyVersion st') dek E Hwf).
Qed.

Lemma keys_wrap_once_the_master_key_is_initialised_witness :
  wrapKey initial Scenario.dek = Throw (js "Key wrapping operation failed")
  /\ unwrapKey initial Scenario.wrapped = Throw (js "Key unwrapping operation failed")
  /\ exists env, wrapKey Scenario.booted Scenario.dek = Ok env
                 /\ version env = keyVersion Scenario.booted
                 /\ unwrapKey Scenario.booted env = Ok Scenario.dek.
Proof.
  apply (@keys_wrap_once_the_master_key_is_initialised initial Scenario.booted
           Scenario.empty_world Scenario.booted_world
           (mkInputs 1700000000000 Scenario.random1) Returned
           Scenario.dek Scenario.wrapped).
  - vm_compute. reflexivity.
  - exact RotationFacts.dek_well_formed.
Defined.

(** X27.  Envelopes outlive a restart.  A key wrapped after
    [initMasterKey] has returned is unwrapped by the process that a later
    start-up on the same keys directory brings up, as long as the master key
    is then at most ninety days old. *)
Theorem envelopes_outlive_a_restart (st st0 st1 : State) (w w1 : World) (i i2 : Inputs)
        (created : Z) (dek : JsString) :
  initMasterKey st w i = (st1, w1, Returned) ->
  keyCreatedAt st1 = Some created ->
  now i2 - created <= maxAge ->
  Utf8.well_formed dek = true ->
  exists env,
    wrapKey st1 dek = Ok env
    /\ unwrapKey (fst (fst (initMasterKey st0 w1 i2))) env = Ok dek.
Proof.
  intros I C A Hwf.
  destruct (init_installs_a_key _ _ _ I) as [mk E].
  exists (envelope_of mk (keyVersion st1) dek).
  split; [apply (@MasterKeyFacts.wrapKey_envelope st1 mk dek E)|].
  assert (currentMasterKey (fst (fst (initMasterKey st0 w1 i2))) = Some mk) as E2.
  { revert I C E. unfold initMasterKey at 1.
    destruct (loadMasterKey w) as [d|] eqn:L.
    - destruct (maxAge <? now i - ko_createdAt (kd_object d)).
      + unfold rotateMasterKey.
        destruct (saveMasterKey (install (generateMasterKey (install (kd_object d)) i))
                                w i (generateMasterKey (install (kd_object d)) i))
          as [w' o] eqn:S.
        intros H C E. injection H as <- <- ->. 
        cbn [install keyCreatedAt generateMasterKey ko_createdAt] in C.
        injection C as <-.
        rewrite (@KeyFileFacts.generated_and_saved st0 _ w w' i i2 S A). exact E.
      + intros H C E. injection H as <- <-.
        cbn [install keyCreatedAt] in C. injection C as <-.
        unfold initMasterKey. rewrite L.
        assert ((maxAge <? now i2 - ko_createdAt (kd_object d)) = false) as ->
            by (apply Z.ltb_ge; exact A).
        exact E.
    - destruct (saveMasterKey (install (generateMasterKey st i)) w i
                              (generateMasterKey st i)) as [w' o] eqn:S.
      intros H C E. injection H as <- <- ->.
      cbn [install keyCreatedAt generateMasterKey ko_createdAt] in C.
      injection C as <-.
      rewrite (@KeyFileFacts.generated_and_saved st0 _ w w' i i2 S A). exact E. }
  apply (@MasterKeyFacts.unwrapKey_envelope _ mk (keyVersion st1) dek E2 Hwf).
Qed.

Lemma envelopes_outlive_a_restart_witness :
  exists env,
    wrapKey Scenario.booted Scenario.dek = Ok env
    /\ unwrapKey (fst (fst (initMasterKey initial Scenario.booted_world
                              (mkInputs 1700000900000 Scenario.random2))))
                 env
       = Ok Scenario.dek.
Proof.
  apply (@envelopes_outlive_a_restart initial initial Scenario.booted
           Scenario.empty_world Scenario.booted_world
           (mkInputs 1700000000000 Scenario.random1)
           (mkInputs 1700000900000 Scenario.random2) 1700000000000 Scenario.dek).
  - vm_compute. reflexivity.
  - reflexivity.
  - vm_compute. discriminate.
  - exact RotationFacts.dek_well_formed.
Defined.

(** X28.  One known key opens the others.  Every envelope under one
    master key is enciphered with the same key stream, so whoever holds one
    envelope together with the key inside it reads the key inside any other
    envelope that is no longer, from the two ciphertexts alone and without
    the master key. *)
Theorem one_known_key_opens_the_others (st : State) (mk : Bytes)
        (known other : JsString) :
  currentMasterKey st = Some mk ->
  Utf8.well_formed known = true ->
  Utf8.well_formed other = true ->
  (length (Utf8.encode other) <= length (Utf8.encode known))%nat ->
  exists e1 e2,
    wrapKey st known = Ok e1 /\ wrapKey st other = Ok e2
    /\ Utf8.decode
         (xor_bytes (xor_bytes (Base64.decode (wrappedKey e2))
                               (Base64.decode (wrappedKey e1)))
                    (Utf8.encode known))
       = other.
Proof.
  intros E Hk Ho Hl.
  exists (envelope_of mk (keyVersion st) known), (envelope_of mk (keyVersion st) other).
  split; [apply (@MasterKeyFacts.wrapKey_envelope st mk known E)|].
  split; [apply (@MasterKeyFacts.wrapKey_envelope st mk other E)|].
  unfold envelope_of. cbn [wrappedKey].
  rewrite !EnvelopeFacts.cipher_text_bytes by assumption.
  rewrite NonceFacts.gctr_two_time_pad.
  rewrite xor_bytes_involutive by assumption.
  now apply Utf8Facts.utf8_decode_encode.
Qed.

Lemma one_known_key_opens_the_others_witness :
  exists e1 e2,
    wrapKey Scenario.booted Scenario.dek = Ok e1
    /\ wrapKey Scenario.booted Runs.other_dek = Ok e2
    /\ Utf8.decode
         (xor_bytes (xor_bytes (Base64.decode (wrappedKey e2))
                               (Base64.decode (wrappedKey e1)))
                    (Utf8.encode Scenario.dek))
       = Runs.other_dek.
Proof.
  apply (@one_known_key_opens_the_others Scenario.booted Scenario.random1
           Scenario.dek Runs.other_dek TamperFacts.booted_key
           RotationFacts.dek_well_formed).
  - vm_compute. reflexivity.
  - apply Nat.leb_le. vm_compute. reflexivity.
Defined.

End ServiceFacts.

(** ** The issuer's key on its way to the gate *)

Module IssuerKeyFacts.
Import Js Jwt Express KeyDirectory Directory.
Local Open Scope Z_scope.

Lemma received_public_key (pk : JsString) :
  PublicKeyRoute.received (PublicKeyRoute.public_key pk) = Replied (Some pk).
Proof. reflexivity. Qed.

(** X29.  From the issuer to the gate.  When the message service has
    started against an auth service that answers [/public-key], the key in
    its cache is the issuer's, and for the next five minutes every token for
    which the issuer's [/verify] answers with the user is let through by
    [verifyAuth], with that user, unless Redis lists its [jti]. *)
Theorem issuer_key_reaches_the_gate (pk : JsString) (call : Call) (c : Cache)
        (db : AuthService.Db) (now_ms now : Z) (tok : TokenString) (p : Payload)
        (redis : Gate.Redis) :
  reply call = PublicKeyRoute.received (PublicKeyRoute.public_key pk) ->
  startServer true true call = Listening c ->
  now_ms <= resumed_at call + 300000 ->
  AuthService.verify_route pk db now (AuthService.mkRequest (Some (Bearer tok)))
  = AuthService.Valid p ->
  Gate.checkTokenBlacklist redis (p_jti p) = false ->
  getAuthPublicKey c now_ms = Some pk
  /\ MessageGate.verifyAuth (getAuthPublicKey c now_ms) redis now
                            (MessageGate.mkRequest (Some (Bearer tok)))
     = Proceed (auth_of p).
Proof.
  intros Hr S Hn R B. rewrite received_public_key in Hr.
  unfold startServer, fetch_alone, fetchAuthPublicKey in S. rewrite Hr in S.
  assert (pk <> []) as Hk by (intros ->; discriminate S).
  assert (truthy (Some pk) = Some pk) as T
      by (destruct pk; [contradiction | reflexivity]).
  cbn [get] in S. change (truthy None) with (@None JsString) in S. cbv iota in S.
  rewrite T in S. injection S as <-.
  assert (getAuthPublicKey (set pk (resumed_at call)) now_ms = Some pk) as G
      by (now apply DirectoryFacts.get_within_ttl).
  split; [exact G|]. rewrite G.
  assert (verify tok pk 0 now = Ok p) as V0.
  { unfold AuthService.verify_route in R. cbn [AuthService.authorization] in R.
    destruct (verify tok pk 0 now) as [d|err].
    - destruct (AuthService.select_blacklist db (p_jti d)); [|discriminate].
      destruct (AuthService.select_active_user db (p_sub d)); [discriminate|].
      injection R as <-. reflexivity.
    - destruct (name err); discriminate. }
  assert (Gate.exp_before (p_exp p) now = false) as X.
  { destruct (p_exp p) as [e|] eqn:E; [|reflexivity].
    pose proof (@RevocationFacts.verify_not_expired tok pk 0 now p e V0 E).
    apply Z.ltb_ge. lia. }
  unfold MessageGate.verifyAuth. cbn [MessageGate.authorization].
  rewrite T. unfold Gate.verifyJWT.
  rewrite (@SingleGateFacts.verify_with_tolerance tok pk now p V0), B, X.
  reflexivity.
Qed.

Lemma issuer_key_reaches_the_gate_witness :
  getAuthPublicKey Runs.startup_cache 240000 = Some GateScenario.issuer_key
  /\ MessageGate.verifyAuth (getAuthPublicKey Runs.startup_cache 240000)
                            GateScenario.redis_empty GateScenario.clock
                            (MessageGate.mkRequest
                               (Some (Bearer GateScenario.resource_token)))
     = Proceed (auth_of (mkPayload (JStr (js "jti-resource-0001"))
                                   (JStr GateScenario.alice_id) (JStr (js "alice"))
                                   JUndefined (JNum 1700000000) (Some 1700086400))).
Proof.
  apply (@issuer_key_reaches_the_gate GateScenario.issuer_key Runs.startup_call
           Runs.startup_cache GateScenario.db0 240000 GateScenario.clock
           GateScenario.resource_token
           (mkPayload (JStr (js "jti-resource-0001")) (JStr GateScenario.alice_id)
                      (JStr (js "alice")) JUndefined (JNum 1700000000)
                      (Some 1700086400))
           GateScenario.redis_empty).
  - reflexivity.
  - reflexivity.
  - vm_compute. discriminate.
  - vm_compute. reflexivity.
  - reflexivity.
Defined.

End IssuerKeyFacts.

(** ** What the hourly cleanup forgets *)

Module CleanupFacts.
Import Js Jwt AuthService.
Local Open Scope Z_scope.

(** A token that verified once is refused as expired from its expiry on. *)
Lemma verify_expired_later (tok : TokenString) (pk : JsString) (now later : Z)
      (p : Payload) (e : Z) :
  verify tok pk 0 now = Ok p -> p_exp p = Some e -> e <= later ->
  verify tok pk 0 later = Throw (mkError TokenExpiredError (js "jwt expired")).
Proof.
  intros V E L.
  pose proof (@RevocationFacts.verify_not_expired tok pk 0 now p e V E) as Hn.
  revert V E. unfold verify. destruct tok as [raw|t]; [discriminate|].
  destruct (negb (jsstring_eqb (alg t) (js "RS256"))); [discriminate|].
  destruct (negb (jsstring_eqb (signed_for t) pk)); [discriminate|].
  assert ((e + 0 <=? later) = true) as X by (apply Z.leb_le; lia).
  destruct (nbf (claims t)) as [| |b|n|s]; try discriminate.
  - destruct (exp (claims t)) as [| |b|e0|s]; try discriminate.
    + intros H. injection H as <-. discriminate.
    + destruct (e0 + 0 <=? now); [discriminate|].
      intros H. injection H as <-. cbn [p_exp]. intros H. injection H as ->.
      now rewrite X.
  - destruct (now + 0 <? n) eqn:Nb; [discriminate|].
    assert ((later + 0 <? n) = false) as ->
        by (apply Z.ltb_ge; apply Z.ltb_ge in Nb; lia).
    destruct (exp (claims t)) as [| |b|e0|s]; try discriminate.
    + intros H. injection H as <-. discriminate.
    + destruct (e0 + 0 <=? now); [discriminate|].
      intros H. injection H as <-. cbn [p_exp]. intros H. injection H as ->.
      now rewrite X.
Qed.

(** X30.  The cleanup forgets dead tokens only.  If the blacklist row of
    a logged-out token is gone after a cleanup, the token had expired when
    the cleanup ran: from that second on [/verify] refuses it with 401
    ['Token has expired'], whatever the database holds. *)
Theorem cleanup_forgets_only_dead_tokens (pk : JsString) (db db1 db' : Db)
        (now now_ms later : Z) (tok : TokenString) (p : Payload) (r1 : Response) :
  logout_route pk db now (mkRequest (Some (Bearer tok))) = (db1, r1) ->
  status r1 = 200 ->
  verify tok pk 0 now = Ok p ->
  select_blacklist (cleanupExpiredTokens db1 now_ms) (p_jti p) = [] ->
  now_ms <= later * 1000 + 999 ->
  verify_route pk db' later (mkRequest (Some (Bearer tok)))
  = Refused (mkResponse 401 [(js "error", js "Token has expired")]).
Proof.
  intros L S V Gone Hl.
  destruct (@RevocationFacts.logout_inserts pk db now _ db1 r1 L S)
    as (tok' & p' & e & j & Ha & V' & E & J & Hin).
  cbn [authorization] in Ha. injection Ha as <-.
  rewrite V in V'. injection V' as <-.
  assert (e * 1000 < now_ms) as Dead.
  { destruct (Z.ltb_spec (e * 1000) now_ms) as [H|H]; [exact H|]. exfalso.
    unfold select_blacklist in Gone. rewrite J in Gone.
    assert (In (mkRow j (sql_param (p_sub p)) (e * 1000))
               (filter (fun r => jsstring_eqb (token_jti r) j)
                       (token_blacklist (cleanupExpiredTokens db1 now_ms)))) as X.
    { apply filter_In. split; [|apply jsstring_eqb_refl].
      cbn [cleanupExpiredTokens token_blacklist]. apply filter_In.
      split; [exact Hin|]. cbn [expired_at]. apply negb_true_iff, Z.ltb_ge. exact H. }
    rewrite Gone in X. contradiction. }
  unfold verify_route. cbn [authorization].
  rewrite (@verify_expired_later tok pk now later p e V E) by lia.
  reflexivity.
Qed.

Lemma cleanup_forgets_only_dead_tokens_witness :
  verify_route GateScenario.issuer_key GateScenario.db0 1700086400
               (mkRequest (Some (Bearer GateScenario.resource_token)))
  = Refused (mkResponse 401 [(js "error", js "Token has expired")]).
Proof.
  apply (@cleanup_forgets_only_dead_tokens GateScenario.issuer_key GateScenario.db0
           GateScenario.db_after_logout GateScenario.db0
           GateScenario.clock 1700086400001 1700086400 GateScenario.resource_token
           (mkPayload (JStr (js "jti-resource-0001")) (JStr GateScenario.alice_id)
                      (JStr (js "alice")) JUndefined (JNum 1700000000)
                      (Some 1700086400))
           (snd GateScenario.logout)).
  - vm_compute. reflexivity.
  - vm_compute. reflexivity.
  - vm_compute. reflexivity.
  - vm_compute. reflexivity.
  - vm_compute. discriminate.
Defined.

End CleanupFacts.
